(** * SwachhMap report API: a shallow embedding of the route handlers

    The development follows the two route modules of the application:

    - [/api/report]       : [POST] (create a report) and [GET_list] (paged list);
    - [/api/report/[id]]  : [GET], [PATCH] and [DELETE] on one report.

    The handlers are asynchronous JavaScript functions that await calls to
    three collaborators (the data-access layer, the image host and the
    geocoder).  They are embedded as programs of a small monad whose only
    effect is awaiting such a call; a call either resolves with a value or
    rejects with an error, and the handlers' [try]/[catch] blocks and early
    [return]s are kept as they are written.

    Conventions of the embedding:

    - a request carries what [request.json()] gives: a rejection (no body,
      or not JSON), [null], or a JSON value, given by the values of the
      properties the handlers destructure from it, [VUndefined] standing for
      a property the body does not have; [newImages] and [imagesToDelete]
      are JSON arrays when they are there;
    - header names are matched without regard to case, as [Headers.get]
      does; query parameters are matched exactly;
    - strings are sequences of code units below 256; [parseInt] gives the
      Number nearest to the integer read;
    - [console.error] writes nothing the handlers read back and is left out;
    - the data-access layer, the image host and the geocoder are not part of
      the route modules: a handler is run against an [oracle] that settles
      each call, so that every statement below holds for all behaviours of
      the three collaborators, and what the data-access layer is said to do
      by the specification is stated separately ([saved_entity],
      [apply_update], [page_of]).

    Besides the route modules the development covers three functions of the
    data-access layer over the report model ([Dal]: [createReport],
    [getReportById] and [deleteReportIfOwner], run against a [database] that
    settles each query), the explore page, which fetches the list and draws
    one card per report ([Explore]), and the navigation bar ([Navbar]). *)

From Stdlib Require Import List String Ascii ZArith QArith_base Bool Lia.
Import ListNotations.
Local Close Scope Q_scope.
Local Open Scope string_scope.
Local Open Scope Z_scope.

Set Implicit Arguments.

(* ================================================================== *)
(** ** JavaScript values and the built-ins the handlers use *)

(** A value obtained from a parsed JSON body; [VUndefined] is what
    destructuring yields for a property the body does not have.  Numbers are
    exact rationals. *)
#[local] Unset Elimination Schemes.
Inductive value : Type :=
| VUndefined
| VNull
| VBool (b : bool)
| VNum (q : Q)
| VStr (s : string)
| VArr (items : list value)
| VObj (fields : list (string * value)).
#[local] Set Elimination Schemes.

(** The two image collections of a body ([newImages], [imagesToDelete]):
    absent, [null], or a JSON array. *)
Inductive collection : Type :=
| CUndefined
| CNull
| CArr (items : list value).

(** ToBoolean. *)
Definition truthy (v : value) : bool :=
  match v with
  | VUndefined | VNull => false
  | VBool b => b
  | VNum q => negb (Qeq_bool q (0 # 1))
  | VStr s => negb (s =? "")%string
  | VArr _ | VObj _ => true
  end.

Definition truthy_coll (c : collection) : bool :=
  match c with
  | CUndefined | CNull => false
  | CArr _ => true
  end.

(** [x || d] on a string that may be [null]. *)
Definition or_default (x : option string) (d : string) : string :=
  match x with
  | Some s => if (s =? "")%string then d else s
  | None => d
  end.

(** [Array.prototype.includes] on an array of string literals. *)
Definition includes (l : list string) (v : value) : bool :=
  match v with
  | VStr s => existsb (String.eqb s) l
  | _ => false
  end.

(** White space and line terminators among the code units below 256. *)
Definition is_whitespace (c : ascii) : bool :=
  let n := nat_of_ascii c in
  (Nat.eqb n 9 || Nat.eqb n 10 || Nat.eqb n 11 || Nat.eqb n 12
   || Nat.eqb n 13 || Nat.eqb n 32 || Nat.eqb n 160)%bool.

Fixpoint trimStart (s : string) : string :=
  match s with
  | String c s' => if is_whitespace c then trimStart s' else s
  | EmptyString => EmptyString
  end.

Fixpoint trimEnd (s : string) : string :=
  match s with
  | EmptyString => EmptyString
  | String c s' =>
      match trimEnd s' with
      | EmptyString => if is_whitespace c then EmptyString else String c EmptyString
      | t => String c t
      end
  end.

(** [String.prototype.trim]. *)
Definition trim (s : string) : string := trimEnd (trimStart s).

(** Every character of [s] is white space. *)
Fixpoint all_whitespace (s : string) : bool :=
  match s with
  | EmptyString => true
  | String c s' => is_whitespace c && all_whitespace s'
  end.

Definition starts_with_whitespace (s : string) : bool :=
  match s with
  | String c _ => is_whitespace c
  | EmptyString => false
  end.

Fixpoint ends_with_whitespace (s : string) : bool :=
  match s with
  | EmptyString => false
  | String c EmptyString => is_whitespace c
  | String _ s' => ends_with_whitespace s'
  end.

(** [t] is [s] without its leading and trailing white space. *)
Definition trimmed (s t : string) : Prop :=
  exists l r,
    s = l ++ t ++ r
    /\ all_whitespace l = true /\ all_whitespace r = true
    /\ starts_with_whitespace t = false /\ ends_with_whitespace t = false.

(** *** [parseInt] without a radix argument; [None] is [NaN]. *)

Definition digit_value (radix : Z) (c : ascii) : option Z :=
  let n := Z.of_nat (nat_of_ascii c) in
  let d := if (48 <=? n) && (n <=? 57) then Some (n - 48)
           else if (97 <=? n) && (n <=? 122) then Some (n - 87)
           else if (65 <=? n) && (n <=? 90) then Some (n - 55)
           else None in
  match d with
  | Some v => if v <? radix then Some v else None
  | None => None
  end.

(** The longest prefix of digits, read in the given radix. *)
Fixpoint parse_digits (radix : Z) (s : string) (acc : option Z) : option Z :=
  match s with
  | String c s' =>
      match digit_value radix c with
      | Some d =>
          parse_digits radix s'
            (Some (match acc with Some a => a * radix + d | None => d end))
      | None => acc
      end
  | EmptyString => acc
  end.

(** The Number nearest to an integer: integers of 53 bits at most are
    Numbers; a longer one is rounded to 53 significant bits, a tie going to
    the even neighbour.  (Beyond the largest Number, which takes a string of
    more than 300 digits, the code reads [Infinity]; the embedding keeps the
    rounded integer.) *)
Definition to_number (n : Z) : Z :=
  let a := Z.abs n in
  let bits := Z.log2 a + 1 in
  if bits <=? 53 then n
  else
    let e := bits - 53 in
    let q := Z.shiftr a e in
    let r := Z.land a (Z.ones e) in
    let half := Z.shiftl 1 (e - 1) in
    let q' := if (half <? r) || ((r =? half) && Z.odd q) then q + 1 else q in
    Z.sgn n * Z.shiftl q' e.

Definition parseInt (input : option string) : option Z :=
  let s := trimStart (match input with Some s => s | None => "null" end) in
  let '(sign, s) :=
    match s with
    | String "-" r => (-1, r)
    | String "+" r => (1, r)
    | _ => (1, s)
    end in
  let '(radix, s) :=
    match s with
    | String "0" (String "x" r) | String "0" (String "X" r) => (16, r)
    | _ => (10, s)
    end in
  match parse_digits radix s None with
  | Some n => Some (to_number (sign * n))
  | None => None
  end.

(** [parseInt(x) || d]: [NaN] and [0] are falsy. *)
Definition parseInt_or (input : option string) (d : Z) : Z :=
  match parseInt input with
  | Some n => if n =? 0 then d else n
  | None => d
  end.

(* ================================================================== *)
(** ** Data model *)

Record Error := { message : string }.

(** An entry of a report's [images]. *)
Record Image := { url : string; publicId : string }.

(** What the image host answers to an upload. *)
Record UploadResult := { secure_url : string; public_id : string }.

Record User := { user_id : string; username : string; email : string }.

Record Author := { author_id : string; author_username : string }.

Record Review := {
  review_id : string;
  comment : value;
  upvote : value;
  review_createdAt : value;
  author : option Author
}.

(** JSON body of a create or update request, destructured. *)
Module Body.
Record t := {
  title : value;
  description : value;
  category : value;
  location : value;
  address : value;
  newImages : collection;
  imagesToDelete : collection
}.

(** What destructuring yields from a JSON value that has none of the
    properties. *)
Definition absent : t :=
  {| title := VUndefined;
     description := VUndefined;
     category := VUndefined;
     location := VUndefined;
     address := VUndefined;
     newImages := CUndefined;
     imagesToDelete := CUndefined |}.
End Body.

(** What [await request.json()] gives: the promise rejects (the request has
    no body, or one that is not JSON), or the body parses.  The JSON [null]
    cannot be destructured; any other JSON value is given by the values of
    the properties the handlers destructure from it. *)
Inductive parsed : Type :=
| Unparsable (e : Error)
| JsonNull
| Json (body : Body.t).

(** The object handed to [createReport]. *)
Module ReportData.
Record t := {
  title : string;
  description : string;
  category : value;
  location : value;
  imageUrl : string;
  images : list Image;
  createdBy : string
}.
End ReportData.

(** The object handed to [updateReport]; [None] is a key that was not set. *)
Module UpdateData.
Record t := {
  title : option value;
  description : option value;
  category : option value;
  location : option value;
  imagesToDelete : option collection;
  newImages : option (list Image)
}.
End UpdateData.

(** A report document as the data-access layer returns it. *)
Module Report.
Record t := {
  _id : string;
  title : value;
  description : value;
  category : value;
  location : value;
  imageUrl : string;
  images : option (list Image);
  resolved : bool;
  resolvedAt : value;
  resolvedBy : value;
  createdAt : value;
  createdBy : option User;
  reviews : option (list Review)
}.
End Report.

Module ListOptions.
Record t := {
  page : Z;
  limit : Z;
  category : option string;
  resolved : option bool
}.
End ListOptions.

Record Pagination := {
  pg_page : Z;
  pg_limit : Z;
  pg_total : Z;
  pg_pages : Z
}.

Record ReportsResult := {
  reports : list Report.t;
  pagination : Pagination
}.

(** *** Requests and responses *)

Module Request.
Record t := {
  headers : list (string * string);
  searchParams : list (string * string);
  json : parsed
}.

(** The properties destructured from the body; all [undefined] where there
    is nothing to destructure. *)
Definition body (request : t) : Body.t :=
  match json request with
  | Json b => b
  | _ => Body.absent
  end.
End Request.

(** [URLSearchParams.get]: the value of the first entry of that name, or
    [null]. *)
Fixpoint get (entries : list (string * string)) (name : string) : option string :=
  match entries with
  | [] => None
  | (k, v) :: rest => if (k =? name)%string then Some v else get rest name
  end.

(** ASCII lower case, as header names are compared. *)
Definition lower (c : ascii) : ascii :=
  let n := nat_of_ascii c in
  if (65 <=? n)%nat && (n <=? 90)%nat then ascii_of_nat (n + 32) else c.

Fixpoint lowercase (s : string) : string :=
  match s with
  | EmptyString => EmptyString
  | String c rest => String (lower c) (lowercase rest)
  end.

(** [Headers.get]: header names match without regard to case; the values of
    a header sent more than once are joined with a comma and a space; [null]
    when the request has no such header.  [entries] are the header lines as
    received. *)
Definition header (entries : list (string * string)) (name : string) : option string :=
  match
    map snd (filter (fun entry => (lowercase (fst entry) =? lowercase name)%string) entries)
  with
  | [] => None
  | v :: more => Some (fold_left (fun joined x => joined ++ ", " ++ x) more v)
  end.

Module Created.
Record t := {
  _id : string;
  title : value;
  category : value;
  location : value;
  imageUrl : string;
  createdAt : value
}.
End Created.

Record FormattedReview := {
  fr_id : string;
  fr_comment : value;
  fr_upvote : value;
  fr_createdAt : value;
  fr_author : Author
}.

Module Formatted.
Record t := {
  _id : string;
  title : value;
  description : value;
  category : value;
  location : value;
  imageUrl : string;
  images : list Image;
  resolved : bool;
  resolvedAt : value;
  resolvedBy : value;
  createdAt : value;
  createdBy : User;
  reviews : option (list FormattedReview)
}.
End Formatted.

Module Summary.
Record t := {
  _id : string;
  title : value;
  category : value;
  location : value;
  thumbnail : string;
  status : string;
  createdAt : value;
  createdBy : string
}.
End Summary.

Inductive payload : Type :=
| ErrorBody (error : string)
| CreatedBody (report : Created.t)
| ReportBody (report : Formatted.t)
| ListBody (summaries : list Summary.t) (pages : Pagination)
| SuccessBody.

Record Response := { content : payload; status : Z }.

(** [NextResponse.json(body, { status })]. *)
Definition json (b : payload) (st : Z) : Response :=
  {| content := b; status := st |}.

(* ================================================================== *)
(** ** Awaited calls and the program monad *)

(** The functions the handlers import from the data-access layer
    ([@/lib/db]), the image host adapter ([@/lib/cloudinary]) and the
    geocoder ([@/lib/geocode]). *)
Inductive call : Type :=
| connectToDatabase
| geocodeAddress (address : value)
| uploadImage (image : value)
| deleteImage (id : value)
| createReport (reportData : ReportData.t)
| getReportById (id : string) (includeReviews : option bool)
| getAllReports (options : ListOptions.t)
| updateReport (id : string) (updateData : UpdateData.t)
| deleteReportIfOwner (id : string) (userId : string).

(** What each call resolves with. *)
Definition answer (c : call) : Type :=
  match c with
  | connectToDatabase => unit
  | geocodeAddress _ => value
  | uploadImage _ => UploadResult
  | deleteImage _ => unit
  | createReport _ => Report.t
  | getReportById _ _ => option Report.t
  | getAllReports _ => ReportsResult
  | updateReport _ _ => option Report.t
  | deleteReportIfOwner _ _ => bool
  end.

(** A settled promise. *)
Inductive outcome (A : Type) : Type :=
| Resolved (a : A)
| Rejected (e : Error).
Arguments Resolved {A} a.
Arguments Rejected {A} e.

(** A block of handler code: it completes normally with a value, leaves the
    handler through [return NextResponse.json(...)], throws, or awaits a call
    and goes on with its outcome. *)
Inductive prog (A : Type) : Type :=
| Pure (a : A)
| Respond (r : Response)
| Throw (e : Error)
| Await (c : call) (k : outcome (answer c) -> prog A).
Arguments Pure {A} a.
Arguments Respond {A} r.
Arguments Throw {A} e.
Arguments Await {A} c k.

Fixpoint bind {A B : Type} (p : prog A) (f : A -> prog B) : prog B :=
  match p with
  | Pure a => f a
  | Respond r => Respond r
  | Throw e => Throw e
  | Await c k => Await c (fun out => bind (k out) f)
  end.

Notation "x <- p ;; q" := (bind p (fun x => q))
  (at level 61, p at next level, right associativity).
Notation "p ;; q" := (bind p (fun _ => q))
  (at level 61, right associativity).

(** [try { p } catch (error) { handler error }]: a [return] inside the block
    is not caught. *)
Fixpoint try_catch {A : Type} (p : prog A) (handler : Error -> prog A) : prog A :=
  match p with
  | Pure a => Pure a
  | Respond r => Respond r
  | Throw e => handler e
  | Await c k => Await c (fun out => try_catch (k out) handler)
  end.

(** [await f(args)]. *)
Definition await (c : call) : prog (answer c) :=
  Await c (fun out =>
    match out with
    | Resolved a => Pure a
    | Rejected e => Throw e
    end).

(** [for (const x of items) { body }], threading the variables the body
    updates. *)
Fixpoint for_of {A S : Type} (items : list A) (body : A -> S -> prog S) (s : S)
  : prog S :=
  match items with
  | [] => Pure s
  | x :: rest => s' <- body x s ;; for_of rest body s'
  end.

Definition TypeError (msg : string) : Error := {| message := msg |}.

(** *** Running a program against its collaborators *)

(** What a call answered, as recorded in the history of a request. *)
Inductive reply : Type :=
| Connected
| Coords (v : value)
| Uploaded (u : UploadResult)
| Deleted
| Saved (r : Report.t)
| Found (r : option Report.t)
| Listed (r : ReportsResult)
| Updated (r : option Report.t)
| Removed (b : bool)
| Failed (e : Error).

Definition reply_of (c : call) : outcome (answer c) -> reply :=
  match c as c0 return outcome (answer c0) -> reply with
  | connectToDatabase => fun out =>
      match out with Resolved _ => Connected | Rejected e => Failed e end
  | geocodeAddress _ => fun out =>
      match out with Resolved v => Coords v | Rejected e => Failed e end
  | uploadImage _ => fun out =>
      match out with Resolved u => Uploaded u | Rejected e => Failed e end
  | deleteImage _ => fun out =>
      match out with Resolved _ => Deleted | Rejected e => Failed e end
  | createReport _ => fun out =>
      match out with Resolved r => Saved r | Rejected e => Failed e end
  | getReportById _ _ => fun out =>
      match out with Resolved r => Found r | Rejected e => Failed e end
  | getAllReports _ => fun out =>
      match out with Resolved r => Listed r | Rejected e => Failed e end
  | updateReport _ _ => fun out =>
      match out with Resolved r => Updated r | Rejected e => Failed e end
  | deleteReportIfOwner _ _ => fun out =>
      match out with Resolved b => Removed b | Rejected e => Failed e end
  end.

Inductive event : Type := Ev (c : call) (r : reply).

Definition ev_call (e : event) : call := let 'Ev c _ := e in c.
Definition ev_reply (e : event) : reply := let 'Ev _ r := e in r.

(** The collaborators of one request: how each call settles, given what
    has happened so far in the request. *)
Definition oracle : Type := list event -> forall c : call, outcome (answer c).

Inductive completion (A : Type) : Type :=
| Normal (a : A)
| Returned (r : Response)
| Thrown (e : Error).
Arguments Normal {A} a.
Arguments Returned {A} r.
Arguments Thrown {A} e.

(** [run env p past] runs [p] after the events [past]; it gives the way [p]
    completes and the events [p] adds, in order. *)
Fixpoint run {A : Type} (env : oracle) (p : prog A) (past : list event)
  : completion A * list event :=
  match p with
  | Pure a => (Normal a, [])
  | Respond r => (Returned r, [])
  | Throw e => (Thrown e, [])
  | Await c k =>
      let out := env past c in
      let e := Ev c (reply_of c out) in
      let r := run env (k out) (past ++ [e])%list in
      (fst r, e :: snd r)
  end.

(** A handler invocation: the whole request starts from an empty history. *)
Definition handle (env : oracle) (p : prog Empty_set)
  : completion Empty_set * list event :=
  run env p [].

(* ================================================================== *)
(** ** Code shared by the handlers *)

Definition validCategories : list string := ["garbage"; "waterlogging"; "other"].

Definition missing_fields : string :=
  "Missing required fields: title, description, category, images, and location/address".
Definition invalid_category : string :=
  "Invalid category. Must be one of: garbage, waterlogging, other".

(** [s.trim()] where [s] came out of the body: only strings have the
    method. *)
Definition call_trim (v : value) : prog string :=
  match v with
  | VStr s => Pure (trim s)
  | _ => Throw (TypeError "trim is not a function")
  end.

(** [const body = await request.json()] and the destructuring of [body]:
    the promise rejects for a request without a body or with one that is not
    JSON, and [null] cannot be destructured. *)
Definition read_json (request : Request.t) : prog Body.t :=
  match Request.json request with
  | Json body => Pure body
  | JsonNull => Throw (TypeError "Cannot destructure property 'title' of 'body' as it is null.")
  | Unparsable e => Throw e
  end.

(** [for (const x of c)]: [undefined] and [null] are not iterable. *)
Definition iterate (c : collection) : prog (list value) :=
  match c with
  | CArr items => Pure items
  | _ => Throw (TypeError "not iterable")
  end.

Definition geocode_failed (error : Error) : Response :=
  json (ErrorBody ("Failed to geocode address: " ++ message error)) 400.

Definition upload_failed (error : Error) : Response :=
  json (ErrorBody ("Failed to upload image: " ++ message error)) 500.

(** [if (address && !location) { try { geocode } catch { return 400 } }]. *)
Definition resolve_location (location address : value) : prog value :=
  if truthy address && negb (truthy location) then
    try_catch
      (coords <- await (geocodeAddress address) ;;
       Pure coords)
      (fun error => Respond (geocode_failed error))
  else Pure location.

(** [try { await deleteImage(id) } catch (e) { console.error(...) }]: a
    failed deletion is logged and otherwise ignored. *)
Definition delete_quietly (id : value) : prog unit :=
  try_catch (await (deleteImage id)) (fun error => Pure tt).

(** The clean-up loop of the upload [catch] block. *)
Definition cleanup (uploadedImages : list Image) : prog unit :=
  for_of uploadedImages
    (fun uploadedImage _ => delete_quietly (VStr (publicId uploadedImage)))
    tt.

(** The entry pushed to the array of uploaded images. *)
Definition stored_image (uploadResult : UploadResult) : Image :=
  {| url := secure_url uploadResult; publicId := public_id uploadResult |}.

(** One turn of the upload loop, written identically in [POST] and
    [PATCH]; [uploadedImages] is the array the loop pushes to. *)
Definition upload_step (image : value) (uploadedImages : list Image)
  : prog (list Image) :=
  try_catch
    (uploadResult <- await (uploadImage image) ;;
     Pure (uploadedImages ++ [stored_image uploadResult])%list)
    (fun error =>
       cleanup uploadedImages ;;
       Respond (upload_failed error)).

(** The upload loop, started on an empty array. *)
Definition upload_all (newImages : list value) : prog (list Image) :=
  for_of newImages upload_step [].

Definition internal_error : Response :=
  json (ErrorBody "Internal server error") 500.

(* ================================================================== *)
(** ** [/api/report] *)

(** The required-field test of [POST]:
    [!title || !description || !category || !newImages || (!location && !address)]. *)
Definition required_missing (body : Body.t) : bool :=
  negb (truthy (Body.title body)) || negb (truthy (Body.description body))
  || negb (truthy (Body.category body)) || negb (truthy_coll (Body.newImages body))
  || (negb (truthy (Body.location body)) && negb (truthy (Body.address body))).

(** The identity [POST] records: the [user-id] header, or a fixed stand-in. *)
Definition POST_userId (request : Request.t) : string :=
  let userId :=
    or_default (header (Request.headers request) "user-id") "placeholder-user-id" in
  if (userId =? "placeholder-user-id")%string
  then "000000000000000000000001" else userId.

(** The object literal [reportData]. *)
Definition report_data (title description : string) (category finalLocation : value)
    (uploadedImages : list Image) (userId : string) : ReportData.t :=
  {| ReportData.title := title;
     ReportData.description := description;
     ReportData.category := category;
     ReportData.location := finalLocation;
     ReportData.imageUrl := or_default (option_map url (hd_error uploadedImages)) "";
     ReportData.images := uploadedImages;
     ReportData.createdBy := userId |}.

(** The projection of the saved report that [POST] answers with. *)
Definition created (savedReport : Report.t) : Created.t :=
  {| Created._id := Report._id savedReport;
     Created.title := Report.title savedReport;
     Created.category := Report.category savedReport;
     Created.location := Report.location savedReport;
     Created.imageUrl := Report.imageUrl savedReport;
     Created.createdAt := Report.createdAt savedReport |}.

(** [POST /api/report]: create a report. *)
Definition POST (request : Request.t) : prog Empty_set :=
  try_catch
    (await connectToDatabase ;;
     body <- read_json request ;;
     let title := Body.title body in
     let description := Body.description body in
     let category := Body.category body in
     let location := Body.location body in
     let address := Body.address body in
     let newImages := Body.newImages body in
     if required_missing body
     then Respond (json (ErrorBody missing_fields) 400)
     else if negb (includes validCategories category)
     then Respond (json (ErrorBody invalid_category) 400)
     else
       let userId := POST_userId request in
       finalLocation <- resolve_location location address ;;
       items <- iterate newImages ;;
       uploadedImages <- upload_all items ;;
       title' <- call_trim title ;;
       description' <- call_trim description ;;
       let reportData :=
         report_data title' description' category finalLocation uploadedImages userId in
       savedReport <- await (createReport reportData) ;;
       Respond (json (CreatedBody (created savedReport)) 201))
    (fun error => Respond internal_error).

Definition format_summary (report : Report.t) : Summary.t :=
  {| Summary._id := Report._id report;
     Summary.title := Report.title report;
     Summary.category := Report.category report;
     Summary.location := Report.location report;
     Summary.thumbnail := Report.imageUrl report;
     Summary.status := if Report.resolved report then "resolved" else "pending";
     Summary.createdAt := Report.createdAt report;
     Summary.createdBy :=
       or_default (option_map username (Report.createdBy report)) "Unknown" |}.

(** The object [options]: [category] is set when the parameter is truthy,
    [resolved] when the parameter is there. *)
Definition list_options (page limit : Z) (category resolved : option string)
  : ListOptions.t :=
  {| ListOptions.page := page;
     ListOptions.limit := limit;
     ListOptions.category :=
       match category with
       | Some c => if (c =? "")%string then None else Some c
       | None => None
       end;
     ListOptions.resolved :=
       match resolved with
       | Some r => Some (r =? "true")%string
       | None => None
       end |}.

Definition invalid_pagination : Response :=
  json (ErrorBody "Invalid pagination parameters") 400.

(** [GET /api/report]: the paged list. *)
Definition GET_list (request : Request.t) : prog Empty_set :=
  try_catch
    (await connectToDatabase ;;
     let searchParams := Request.searchParams request in
     let page := parseInt_or (get searchParams "page") 1 in
     let limit := parseInt_or (get searchParams "limit") 20 in
     let category := get searchParams "category" in
     let resolved := get searchParams "resolved" in
     if (page <? 1) || (limit <? 1) || (limit >? 100)
     then Respond invalid_pagination
     else
       let options := list_options page limit category resolved in
       result <- await (getAllReports options) ;;
       let formattedReports := map format_summary (reports result) in
       Respond (json (ListBody formattedReports (pagination result)) 200))
    (fun error => Respond internal_error).

(* ================================================================== *)
(** ** [/api/report/[id]] *)

(** [!id || id === 'undefined' || id === 'null']. *)
Definition invalid_id (id : string) : bool :=
  ((id =? "") || (id =? "undefined") || (id =? "null"))%string.

Definition invalid_report_id : Response :=
  json (ErrorBody "Invalid report ID") 400.
Definition authentication_required : Response :=
  json (ErrorBody "Authentication required") 401.
Definition report_not_found : Response :=
  json (ErrorBody "Report not found") 404.

(** [report.createdBy._id.toString()]: reading [_id] of a missing owner
    throws. *)
Definition owner_id (report : Report.t) : prog string :=
  match Report.createdBy report with
  | Some u => Pure (user_id u)
  | None => Throw (TypeError "Cannot read properties of null (reading '_id')")
  end.

(** The object literal [formattedReport], written identically in [GET] and
    [PATCH]. *)
Definition format_report (report : Report.t) : prog Formatted.t :=
  match Report.createdBy report with
  | Some u =>
      Pure
        {| Formatted._id := Report._id report;
           Formatted.title := Report.title report;
           Formatted.description := Report.description report;
           Formatted.category := Report.category report;
           Formatted.location := Report.location report;
           Formatted.imageUrl := Report.imageUrl report;
           Formatted.images :=
             match Report.images report with Some l => l | None => [] end;
           Formatted.resolved := Report.resolved report;
           Formatted.resolvedAt := Report.resolvedAt report;
           Formatted.resolvedBy := Report.resolvedBy report;
           Formatted.createdAt := Report.createdAt report;
           Formatted.createdBy :=
             {| user_id := user_id u; username := username u; email := email u |};
           Formatted.reviews := None |}
  | None => Throw (TypeError "Cannot read properties of null (reading '_id')")
  end.

Definition format_review (review : Review) (done : list FormattedReview)
  : prog (list FormattedReview) :=
  match author review with
  | Some a =>
      Pure (done ++
              [{| fr_id := review_id review;
                  fr_comment := comment review;
                  fr_upvote := upvote review;
                  fr_createdAt := review_createdAt review;
                  fr_author :=
                    {| author_id := author_id a;
                       author_username := author_username a |} |}])%list
  | None => Throw (TypeError "Cannot read properties of null (reading '_id')")
  end.

Definition with_reviews (f : Formatted.t) (rs : list FormattedReview) : Formatted.t :=
  {| Formatted._id := Formatted._id f;
     Formatted.title := Formatted.title f;
     Formatted.description := Formatted.description f;
     Formatted.category := Formatted.category f;
     Formatted.location := Formatted.location f;
     Formatted.imageUrl := Formatted.imageUrl f;
     Formatted.images := Formatted.images f;
     Formatted.resolved := Formatted.resolved f;
     Formatted.resolvedAt := Formatted.resolvedAt f;
     Formatted.resolvedBy := Formatted.resolvedBy f;
     Formatted.createdAt := Formatted.createdAt f;
     Formatted.createdBy := Formatted.createdBy f;
     Formatted.reviews := Some rs |}.

(** [GET /api/report/[id]]. *)
Definition GET (request : Request.t) (id : string) : prog Empty_set :=
  try_catch
    (await connectToDatabase ;;
     let includeReviews :=
       match get (Request.searchParams request) "includeReviews" with
       | Some s => (s =? "true")%string
       | None => false
       end in
     if invalid_id id then Respond invalid_report_id
     else
       report <- await (getReportById id (Some includeReviews)) ;;
       match report with
       | None => Respond report_not_found
       | Some report =>
           formattedReport <- format_report report ;;
           formattedReport <-
             match Report.reviews report with
             | Some reviews =>
                 if includeReviews then
                   rs <- for_of reviews format_review [] ;;
                   Pure (with_reviews formattedReport rs)
                 else Pure formattedReport
             | None => Pure formattedReport
             end ;;
           Respond (json (ReportBody formattedReport) 200)
       end)
    (fun error => Respond internal_error).

(** [x !== undefined] picks the keys of [updateData]. *)
Definition defined (v : value) : option value :=
  match v with
  | VUndefined => None
  | _ => Some v
  end.

Definition defined_coll (c : collection) : option collection :=
  match c with
  | CUndefined => None
  | _ => Some c
  end.

(** [c && c.length > 0]: the items to loop over, if any. *)
Definition nonempty_items (c : collection) : list value :=
  match c with
  | CArr items => items
  | _ => []
  end.

(** The object [updateData]: a key is set when its value is not
    [undefined], and [newImages] when something was uploaded. *)
Definition update_data (body : Body.t) (finalLocation : value)
    (uploadedNewImages : list Image) : UpdateData.t :=
  {| UpdateData.title := defined (Body.title body);
     UpdateData.description := defined (Body.description body);
     UpdateData.category := defined (Body.category body);
     UpdateData.location := defined finalLocation;
     UpdateData.imagesToDelete := defined_coll (Body.imagesToDelete body);
     UpdateData.newImages :=
       match uploadedNewImages with
       | [] => None
       | _ :: _ => Some uploadedNewImages
       end |}.

(** The caller's identity on the mutating routes of one report. *)
Definition request_userId (request : Request.t) : string :=
  or_default (header (Request.headers request) "user-id") "placeholder-user-id".

Definition forbidden (what : string) : Response :=
  json (ErrorBody ("Unauthorized: You can only " ++ what ++ " your own reports")) 403.

(** The loop over [imagesToDelete]. *)
Definition delete_listed (imagesToDelete : collection) : prog unit :=
  for_of (nonempty_items imagesToDelete) (fun publicId _ => delete_quietly publicId) tt.

(** [PATCH /api/report/[id]]. *)
Definition PATCH (request : Request.t) (id : string) : prog Empty_set :=
  try_catch
    (await connectToDatabase ;;
     if invalid_id id then Respond invalid_report_id
     else
       body <- read_json request ;;
       let title := Body.title body in
       let description := Body.description body in
       let category := Body.category body in
       let location := Body.location body in
       let address := Body.address body in
       let newImages := Body.newImages body in
       let imagesToDelete := Body.imagesToDelete body in
       let userId := request_userId request in
       if (userId =? "placeholder-user-id")%string
       then Respond authentication_required
       else
         currentReport <- await (getReportById id None) ;;
         match currentReport with
         | None => Respond report_not_found
         | Some currentReport =>
             owner <- owner_id currentReport ;;
             if negb (owner =? userId)%string
             then Respond (forbidden "edit")
             else if truthy category && negb (includes validCategories category)
             then Respond (json (ErrorBody invalid_category) 400)
             else
               finalLocation <- resolve_location location address ;;
               delete_listed imagesToDelete ;;
               uploadedNewImages <- upload_all (nonempty_items newImages) ;;
               let updateData := update_data body finalLocation uploadedNewImages in
               updated <- await (updateReport id updateData) ;;
               match updated with
               | None => Respond (json (ErrorBody "Failed to update report") 500)
               | Some updatedReport =>
                   formattedReport <- format_report updatedReport ;;
                   Respond (json (ReportBody formattedReport) 200)
               end
         end)
    (fun error => Respond internal_error).

(** [DELETE /api/report/[id]]. *)
Definition DELETE (request : Request.t) (id : string) : prog Empty_set :=
  try_catch
    (await connectToDatabase ;;
     if (id =? "")%string then Respond invalid_report_id
     else
       let userId := request_userId request in
       if (userId =? "placeholder-user-id")%string
       then Respond authentication_required
       else
         report <- await (getReportById id None) ;;
         match report with
         | None => Respond report_not_found
         | Some report =>
             owner <- owner_id report ;;
             if negb (owner =? userId)%string
             then Respond (forbidden "delete")
             else
               match Report.images report with
               | Some ((_ :: _) as images) =>
                   for_of images (fun img _ => delete_quietly (VStr (publicId img))) tt
               | Some [] =>
                   if negb (Report.imageUrl report =? "")%string
                   then delete_quietly (VStr (Report.imageUrl report))
                   else Pure tt
               | None => Pure tt
               end ;;
               deleted <- await (deleteReportIfOwner id userId) ;;
               if negb deleted
               then Respond (json (ErrorBody "Failed to delete report") 500)
               else Respond (json SuccessBody 200)
         end)
    (fun error => Respond internal_error).

(* ================================================================== *)
(** ** The data-access layer, as far as the handlers rely on it *)

(** Modelled from the spec: the data-access module ([@/lib/db]) is not among
    the route sources.  [create(data)] yields the saved entity: a report
    carrying the fields of [data], unresolved, owned by [data]'s creator.  The
    identifier and the creation time are the layer's own choice. *)
Definition saved_entity (data : ReportData.t) (saved : Report.t) : Prop :=
  Report.title saved = VStr (ReportData.title data)
  /\ Report.description saved = VStr (ReportData.description data)
  /\ Report.category saved = ReportData.category data
  /\ Report.location saved = ReportData.location data
  /\ Report.imageUrl saved = ReportData.imageUrl data
  /\ Report.images saved = Some (ReportData.images data)
  /\ Report.resolved saved = false
  /\ option_map user_id (Report.createdBy saved) = Some (ReportData.createdBy data).

(** Modelled from the spec: the image deletions of an update remove the
    stored images whose identifier the patch lists under [imagesToDelete]. *)
Definition listed_for_deletion (toDelete : option collection) (img : Image) : bool :=
  match toDelete with
  | Some (CArr ids) =>
      existsb (fun v => match v with
                        | VStr s => (s =? publicId img)%string
                        | _ => false
                        end) ids
  | _ => false
  end.

(** Modelled from the spec: the field merge of an update takes the
    patch's value for a key the patch carries and keeps the stored one
    otherwise. *)
Definition merge (old : value) (new : option value) : value :=
  match new with
  | Some v => v
  | None => old
  end.

(** Modelled from the spec: [update(id, patch)] is a field-level partial
    update of the stored report; image deletions and additions are applied
    before the field merge, and a field the patch does not carry is kept. *)
Definition apply_update (stored : Report.t) (patch : UpdateData.t) : Report.t :=
  let images :=
    match UpdateData.imagesToDelete patch, UpdateData.newImages patch with
    | None, None => Report.images stored
    | toDelete, added =>
        Some (filter (fun img => negb (listed_for_deletion toDelete img))
                     (match Report.images stored with Some l => l | None => [] end)
              ++ match added with Some l => l | None => [] end)%list
    end in
  {| Report._id := Report._id stored;
     Report.title := merge (Report.title stored) (UpdateData.title patch);
     Report.description := merge (Report.description stored) (UpdateData.description patch);
     Report.category := merge (Report.category stored) (UpdateData.category patch);
     Report.location := merge (Report.location stored) (UpdateData.location patch);
     Report.imageUrl := Report.imageUrl stored;
     Report.images := images;
     Report.resolved := Report.resolved stored;
     Report.resolvedAt := Report.resolvedAt stored;
     Report.resolvedBy := Report.resolvedBy stored;
     Report.createdAt := Report.createdAt stored;
     Report.createdBy := Report.createdBy stored;
     Report.reviews := Report.reviews stored |}.

(** Modelled from the spec: the optional category and resolved filters of
    the list query. *)
Definition matches (options : ListOptions.t) (report : Report.t) : bool :=
  match ListOptions.category options with
  | Some c => match Report.category report with
              | VStr s => (s =? c)%string
              | _ => false
              end
  | None => true
  end
  && match ListOptions.resolved options with
     | Some b => Bool.eqb (Report.resolved report) b
     | None => true
     end.

(** Modelled from the spec: [getAll(options)] yields one page of the stored
    reports that pass the filters, [limit] entries at most, together with
    the page count and the total. *)
Definition page_of (store : list Report.t) (options : ListOptions.t) : ReportsResult :=
  let selected := filter (matches options) store in
  let limit := ListOptions.limit options in
  let page := ListOptions.page options in
  let total := Z.of_nat (List.length selected) in
  {| reports := firstn (Z.to_nat limit) (skipn (Z.to_nat ((page - 1) * limit)) selected);
     pagination :=
       {| pg_page := page;
          pg_limit := limit;
          pg_total := total;
          pg_pages := (total + limit - 1) / limit |} |}.

(* ================================================================== *)
(** ** A sample deployment, for running the handlers on concrete requests *)

Module Sample.

Definition owner : User :=
  {| user_id := "64b000000000000000000042";
     username := "asha";
     email := "asha@example.org" |}.

Definition stored : Report.t :=
  {| Report._id := "64b0000000000000000000aa";
     Report.title := VStr "Overflowing bin";
     Report.description := VStr "near market";
     Report.category := VStr "garbage";
     Report.location := VObj [("lat", VNum (286 # 10)); ("lng", VNum (772 # 10))];
     Report.imageUrl := "https://img.example/bin.jpg";
     Report.images :=
       Some [{| url := "https://img.example/bin.jpg"; publicId := "reports/bin.jpg" |}];
     Report.resolved := false;
     Report.resolvedAt := VNull;
     Report.resolvedBy := VNull;
     Report.createdAt := VStr "2024-01-01T00:00:00.000Z";
     Report.createdBy := Some owner;
     Report.reviews := None |}.

(** The image host takes every string payload but the one named
    [corrupt]. *)
Definition host (image : value) : outcome UploadResult :=
  match image with
  | VStr s =>
      if (s =? "corrupt")%string
      then Rejected {| message := "Invalid image file" |}
      else Resolved {| secure_url := "https://img.example/" ++ s;
                       public_id := "reports/" ++ s |}
  | _ => Rejected {| message := "Invalid image file" |}
  end.

Definition save (data : ReportData.t) : Report.t :=
  {| Report._id := "64b0000000000000000000ab";
     Report.title := VStr (ReportData.title data);
     Report.description := VStr (ReportData.description data);
     Report.category := ReportData.category data;
     Report.location := ReportData.location data;
     Report.imageUrl := ReportData.imageUrl data;
     Report.images := Some (ReportData.images data);
     Report.resolved := false;
     Report.resolvedAt := VNull;
     Report.resolvedBy := VNull;
     Report.createdAt := VStr "2024-01-02T00:00:00.000Z";
     Report.createdBy :=
       Some {| user_id := ReportData.createdBy data; username := ""; email := "" |};
     Report.reviews := None |}.

(** Every collaborator is up; the store holds the one report [stored]. *)
Definition env : oracle :=
  fun past c =>
    match c as c0 return outcome (answer c0) with
    | connectToDatabase => Resolved tt
    | geocodeAddress _ =>
        Resolved (VObj [("lat", VNum (2861 # 100)); ("lng", VNum (7721 # 100))])
    | uploadImage image => host image
    | deleteImage _ => Resolved tt
    | createReport data => Resolved (save data)
    | getReportById id _ =>
        Resolved (if (id =? Report._id stored)%string then Some stored else None)
    | getAllReports options => Resolved (page_of [stored] options)
    | updateReport id patch =>
        Resolved (if (id =? Report._id stored)%string
                  then Some (apply_update stored patch) else None)
    | deleteReportIfOwner id userId =>
        Resolved ((id =? Report._id stored)%string && (userId =? user_id owner)%string)
    end.

Definition no_body : Body.t :=
  {| Body.title := VUndefined;
     Body.description := VUndefined;
     Body.category := VUndefined;
     Body.location := VUndefined;
     Body.address := VUndefined;
     Body.newImages := CUndefined;
     Body.imagesToDelete := CUndefined |}.

Definition bin_report (title : string) (images : collection) : Body.t :=
  {| Body.title := VStr title;
     Body.description := VStr "near market";
     Body.category := VStr "garbage";
     Body.location := VObj [("lat", VNum (286 # 10)); ("lng", VNum (772 # 10))];
     Body.address := VUndefined;
     Body.newImages := images;
     Body.imagesToDelete := CUndefined |}.

Definition request (headers query : list (string * string)) (body : Body.t)
  : Request.t :=
  {| Request.headers := headers;
     Request.searchParams := query;
     Request.json := Json body |}.

(** Create requests without a [user-id] header. *)
Definition create_two : Request.t :=
  request [] [] (bin_report "Overflowing bin" (CArr [VStr "a.jpg"; VStr "b.jpg"])).
Definition create_corrupt : Request.t :=
  request [] []
    (bin_report "Overflowing bin" (CArr [VStr "a.jpg"; VStr "corrupt"; VStr "b.jpg"])).
Definition create_none : Request.t :=
  request [] [] (bin_report "Overflowing bin" (CArr [])).
Definition create_blank : Request.t :=
  request [] [] (bin_report "   " (CArr [VStr "a.jpg"])).

(** Update bodies: a description only, and an empty category. *)
Definition describe : Body.t :=
  {| Body.title := VUndefined;
     Body.description := VStr "bin emptied, lid broken";
     Body.category := VUndefined;
     Body.location := VUndefined;
     Body.address := VUndefined;
     Body.newImages := CUndefined;
     Body.imagesToDelete := CUndefined |}.
Definition uncategorise : Body.t :=
  {| Body.title := VUndefined;
     Body.description := VUndefined;
     Body.category := VStr "";
     Body.location := VUndefined;
     Body.address := VUndefined;
     Body.newImages := CUndefined;
     Body.imagesToDelete := CUndefined |}.

Definition anonymous : Request.t := request [] [] no_body.
Definition by_owner (body : Body.t) : Request.t :=
  request [("user-id", user_id owner)] [] body.
Definition by_stranger (body : Body.t) : Request.t :=
  request [("user-id", "64b000000000000000000099")] [] body.


End Sample.

(* ================================================================== *)
(** ** Reading the history of a request *)

(** The images pushed by the uploads that resolved, in order. *)
Fixpoint uploads (tr : list event) : list Image :=
  match tr with
  | [] => []
  | Ev (uploadImage _) (Uploaded u) :: rest => stored_image u :: uploads rest
  | _ :: rest => uploads rest
  end.

(** The identifiers of the images that the request put on the image host
    and that are still there after the history [tr], given those [held]
    before it: a resolved upload adds one, a resolved deletion removes it. *)
Fixpoint hosted (tr : list event) (held : list string) : list string :=
  match tr with
  | [] => held
  | Ev (uploadImage _) (Uploaded u) :: rest =>
      hosted rest (held ++ [public_id u])
  | Ev (deleteImage (VStr p)) Deleted :: rest =>
      hosted rest (filter (fun q => negb (q =? p)%string) held)
  | _ :: rest => hosted rest held
  end.

(** The call that removes a hosted image. *)
Definition delete_call (img : Image) : call := deleteImage (VStr (publicId img)).

(** An upload that resolved. *)
Definition is_uploaded (e : event) : Prop :=
  match e with
  | Ev (uploadImage _) (Uploaded _) => True
  | _ => False
  end.

(** A deletion on the image host, settled either way. *)
Definition is_deletion (e : event) : Prop :=
  match e with
  | Ev (deleteImage _) Deleted | Ev (deleteImage _) (Failed _) => True
  | _ => False
  end.

(** Calls that change the stored reports. *)
Definition is_write (c : call) : bool :=
  match c with
  | createReport _ | updateReport _ _ | deleteReportIfOwner _ _ => true
  | _ => false
  end.

(** Calls that leave the application: geocoder and image host. *)
Definition is_external (c : call) : bool :=
  match c with
  | geocodeAddress _ | uploadImage _ | deleteImage _ => true
  | _ => false
  end.

(** Calls that read or change the stored reports. *)
Definition touches_reports (c : call) : bool :=
  match c with
  | createReport _ | getReportById _ _ | getAllReports _
  | updateReport _ _ | deleteReportIfOwner _ _ => true
  | _ => false
  end.

Definition rejected (e : event) : bool :=
  match ev_reply e with
  | Failed _ => true
  | _ => false
  end.

(** No call of the history changed the stored reports. *)
Definition no_write (tr : list event) : Prop :=
  Forall (fun e => is_write (ev_call e) = false) tr.

(** An event of the geocoder or the image host. *)
Definition external (e : event) : Prop := is_external (ev_call e) = true.

(** No call of the history was rejected. *)
Definition all_resolved (tr : list event) : Prop :=
  Forall (fun e => rejected e = false) tr.

Definition connected : event := Ev connectToDatabase Connected.

(** *** The shapes a run can take *)

(** How [resolve_location] can go: the location is taken as given, or the
    address is geocoded, or geocoding fails and the handler answers 400. *)
Inductive located (location address : value) : completion value -> list event -> Prop :=
| located_given :
    truthy address && negb (truthy location) = false ->
    located location address (Normal location) []
| located_geocoded coords :
    truthy address && negb (truthy location) = true ->
    located location address (Normal coords)
      [Ev (geocodeAddress address) (Coords coords)]
| located_failed e :
    truthy address && negb (truthy location) = true ->
    located location address (Returned (geocode_failed e))
      [Ev (geocodeAddress address) (Failed e)].

(** How the upload loop can go, started with [uploadedImages] already
    pushed: every upload resolves, or the uploads of [sent] resolve, the
    next one fails, and one deletion is issued for each image pushed so
    far. *)
Inductive upload_run (uploadedImages : list Image) (items : list value)
  : completion (list Image) -> list event -> Prop :=
| upload_run_done tr :
    Forall is_uploaded tr ->
    map ev_call tr = map uploadImage items ->
    upload_run uploadedImages items (Normal (uploadedImages ++ uploads tr)%list) tr
| upload_run_failed sent image rest ups e dels :
    items = (sent ++ image :: rest)%list ->
    Forall is_uploaded ups ->
    map ev_call ups = map uploadImage sent ->
    Forall is_deletion dels ->
    map ev_call dels = map delete_call (uploadedImages ++ uploads ups)%list ->
    upload_run uploadedImages items (Returned (upload_failed e))
      (ups ++ Ev (uploadImage image) (Failed e) :: dels)%list.

(** The body of the request cannot be read: [request.json()] rejects, or
    gives [null]. *)
Definition unreadable (request : Request.t) : Prop :=
  forall body, Request.json request <> Json body.

(** The request passes the two validations of [POST]. *)
Definition POST_valid (request : Request.t) : Prop :=
  required_missing (Request.body request) = false
  /\ includes validCategories (Body.category (Request.body request)) = true.

(** [POST] got through geocoding and the upload loop: [tr] is the history so
    far, [finalLocation] and [uploadedImages] the values of the two
    variables. *)
Definition POST_uploaded (request : Request.t) (finalLocation : value)
    (uploadedImages : list Image) (tr : list event) : Prop :=
  POST_valid request
  /\ exists geo items ups,
       tr = (connected :: geo ++ ups)%list
       /\ located (Body.location (Request.body request))
                  (Body.address (Request.body request)) (Normal finalLocation) geo
       /\ Body.newImages (Request.body request) = CArr items
       /\ upload_run [] items (Normal uploadedImages) ups.

(** Every way a [POST] request can go. *)
Inductive POST_run (request : Request.t) : completion Empty_set -> list event -> Prop :=
| POST_unconnected e :
    POST_run request (Returned internal_error) [Ev connectToDatabase (Failed e)]
| POST_missing_fields :
    required_missing (Request.body request) = true ->
    POST_run request (Returned (json (ErrorBody missing_fields) 400)) [connected]
| POST_invalid_category :
    required_missing (Request.body request) = false ->
    includes validCategories (Body.category (Request.body request)) = false ->
    POST_run request (Returned (json (ErrorBody invalid_category) 400)) [connected]
| POST_unlocated e :
    POST_valid request ->
    truthy (Body.address (Request.body request))
      && negb (truthy (Body.location (Request.body request))) = true ->
    POST_run request (Returned (geocode_failed e))
      [connected; Ev (geocodeAddress (Body.address (Request.body request))) (Failed e)]
| POST_upload_failed finalLocation geo items response ups :
    POST_valid request ->
    located (Body.location (Request.body request))
            (Body.address (Request.body request)) (Normal finalLocation) geo ->
    Body.newImages (Request.body request) = CArr items ->
    upload_run [] items (Returned response) ups ->
    POST_run request (Returned response) (connected :: geo ++ ups)%list
| POST_trim_failed finalLocation uploadedImages tr :
    POST_uploaded request finalLocation uploadedImages tr ->
    (forall t d, ~ (Body.title (Request.body request) = VStr t
                    /\ Body.description (Request.body request) = VStr d)) ->
    POST_run request (Returned internal_error) tr
| POST_unsaved finalLocation uploadedImages tr t d e :
    POST_uploaded request finalLocation uploadedImages tr ->
    Body.title (Request.body request) = VStr t ->
    Body.description (Request.body request) = VStr d ->
    POST_run request (Returned internal_error)
      (tr ++ [Ev (createReport
                    (report_data (trim t) (trim d)
                       (Body.category (Request.body request)) finalLocation
                       uploadedImages (POST_userId request)))
                 (Failed e)])%list
| POST_created finalLocation uploadedImages tr t d savedReport :
    POST_uploaded request finalLocation uploadedImages tr ->
    Body.title (Request.body request) = VStr t ->
    Body.description (Request.body request) = VStr d ->
    POST_run request (Returned (json (CreatedBody (created savedReport)) 201))
      (tr ++ [Ev (createReport
                    (report_data (trim t) (trim d)
                       (Body.category (Request.body request)) finalLocation
                       uploadedImages (POST_userId request)))
                 (Saved savedReport)])%list
| POST_unreadable :
    unreadable request ->
    POST_run request (Returned internal_error) [connected].

(** [PATCH] found the report and let the caller through: the identifier is
    well formed, the caller is identified and owns [currentReport]. *)
Definition PATCH_admitted (request : Request.t) (id : string)
    (currentReport : Report.t) : Prop :=
  invalid_id id = false
  /\ (request_userId request =? "placeholder-user-id")%string = false
  /\ exists u, Report.createdBy currentReport = Some u
               /\ user_id u = request_userId request.

Definition found (id : string) (report : option Report.t) : event :=
  Ev (getReportById id None) (Found report).

(** [PATCH] got through validation, geocoding, the deletions and the upload
    loop. *)
Definition PATCH_uploaded (request : Request.t) (id : string)
    (currentReport : Report.t) (finalLocation : value)
    (uploadedNewImages : list Image) (tr : list event) : Prop :=
  PATCH_admitted request id currentReport
  /\ (truthy (Body.category (Request.body request))
      && negb (includes validCategories (Body.category (Request.body request))) = false)
  /\ exists geo dels ups,
       tr = (connected :: found id (Some currentReport) :: geo ++ dels ++ ups)%list
       /\ located (Body.location (Request.body request))
                  (Body.address (Request.body request)) (Normal finalLocation) geo
       /\ Forall is_deletion dels
       /\ map ev_call dels
          = map deleteImage (nonempty_items (Body.imagesToDelete (Request.body request)))
       /\ upload_run [] (nonempty_items (Body.newImages (Request.body request)))
            (Normal uploadedNewImages) ups.

(** Every way a [PATCH] request can go. *)
Inductive PATCH_run (request : Request.t) (id : string)
  : completion Empty_set -> list event -> Prop :=
| PATCH_unconnected e :
    PATCH_run request id (Returned internal_error) [Ev connectToDatabase (Failed e)]
| PATCH_invalid_id :
    invalid_id id = true ->
    PATCH_run request id (Returned invalid_report_id) [connected]
| PATCH_unauthenticated :
    invalid_id id = false ->
    (request_userId request =? "placeholder-user-id")%string = true ->
    PATCH_run request id (Returned authentication_required) [connected]
| PATCH_lookup_failed e :
    invalid_id id = false ->
    (request_userId request =? "placeholder-user-id")%string = false ->
    PATCH_run request id (Returned internal_error)
      [connected; Ev (getReportById id None) (Failed e)]
| PATCH_not_found :
    invalid_id id = false ->
    (request_userId request =? "placeholder-user-id")%string = false ->
    PATCH_run request id (Returned report_not_found) [connected; found id None]
| PATCH_ownerless currentReport :
    invalid_id id = false ->
    (request_userId request =? "placeholder-user-id")%string = false ->
    Report.createdBy currentReport = None ->
    PATCH_run request id (Returned internal_error)
      [connected; found id (Some currentReport)]
| PATCH_forbidden currentReport u :
    invalid_id id = false ->
    (request_userId request =? "placeholder-user-id")%string = false ->
    Report.createdBy currentReport = Some u ->
    user_id u <> request_userId request ->
    PATCH_run request id (Returned (forbidden "edit"))
      [connected; found id (Some currentReport)]
| PATCH_invalid_category currentReport :
    PATCH_admitted request id currentReport ->
    truthy (Body.category (Request.body request))
      && negb (includes validCategories (Body.category (Request.body request))) = true ->
    PATCH_run request id (Returned (json (ErrorBody invalid_category) 400))
      [connected; found id (Some currentReport)]
| PATCH_unlocated currentReport e :
    PATCH_admitted request id currentReport ->
    truthy (Body.category (Request.body request))
      && negb (includes validCategories (Body.category (Request.body request))) = false ->
    truthy (Body.address (Request.body request))
      && negb (truthy (Body.location (Request.body request))) = true ->
    PATCH_run request id (Returned (geocode_failed e))
      [connected; found id (Some currentReport);
       Ev (geocodeAddress (Body.address (Request.body request))) (Failed e)]
| PATCH_upload_failed currentReport finalLocation geo dels response ups :
    PATCH_admitted request id currentReport ->
    truthy (Body.category (Request.body request))
      && negb (includes validCategories (Body.category (Request.body request))) = false ->
    located (Body.location (Request.body request))
            (Body.address (Request.body request)) (Normal finalLocation) geo ->
    Forall is_deletion dels ->
    map ev_call dels
    = map deleteImage (nonempty_items (Body.imagesToDelete (Request.body request))) ->
    upload_run [] (nonempty_items (Body.newImages (Request.body request)))
      (Returned response) ups ->
    PATCH_run request id (Returned response)
      (connected :: found id (Some currentReport) :: geo ++ dels ++ ups)%list
| PATCH_update_failed currentReport finalLocation uploadedNewImages tr e :
    PATCH_uploaded request id currentReport finalLocation uploadedNewImages tr ->
    PATCH_run request id (Returned internal_error)
      (tr ++ [Ev (updateReport id
                    (update_data (Request.body request) finalLocation uploadedNewImages))
                 (Failed e)])%list
| PATCH_update_missing currentReport finalLocation uploadedNewImages tr :
    PATCH_uploaded request id currentReport finalLocation uploadedNewImages tr ->
    PATCH_run request id (Returned (json (ErrorBody "Failed to update report") 500))
      (tr ++ [Ev (updateReport id
                    (update_data (Request.body request) finalLocation uploadedNewImages))
                 (Updated None)])%list
| PATCH_unformatted currentReport finalLocation uploadedNewImages tr updatedReport :
    PATCH_uploaded request id currentReport finalLocation uploadedNewImages tr ->
    Report.createdBy updatedReport = None ->
    PATCH_run request id (Returned internal_error)
      (tr ++ [Ev (updateReport id
                    (update_data (Request.body request) finalLocation uploadedNewImages))
                 (Updated (Some updatedReport))])%list
| PATCH_updated currentReport finalLocation uploadedNewImages tr updatedReport formatted :
    PATCH_uploaded request id currentReport finalLocation uploadedNewImages tr ->
    format_report updatedReport = Pure formatted ->
    PATCH_run request id (Returned (json (ReportBody formatted) 200))
      (tr ++ [Ev (updateReport id
                    (update_data (Request.body request) finalLocation uploadedNewImages))
                 (Updated (Some updatedReport))])%list
| PATCH_unreadable :
    invalid_id id = false ->
    unreadable request ->
    PATCH_run request id (Returned internal_error) [connected].

(* ================================================================== *)
(** ** Reading [GET], [DELETE] and the list handler *)

(** [searchParams.get('includeReviews') === 'true']. *)
Definition wants_reviews (request : Request.t) : bool :=
  match get (Request.searchParams request) "includeReviews" with
  | Some s => (s =? "true")%string
  | None => false
  end.

(** The object literal [formattedReport] for a report whose owner is [u]. *)
Definition projection (report : Report.t) (u : User) : Formatted.t :=
  {| Formatted._id := Report._id report;
     Formatted.title := Report.title report;
     Formatted.description := Report.description report;
     Formatted.category := Report.category report;
     Formatted.location := Report.location report;
     Formatted.imageUrl := Report.imageUrl report;
     Formatted.images :=
       match Report.images report with Some l => l | None => [] end;
     Formatted.resolved := Report.resolved report;
     Formatted.resolvedAt := Report.resolvedAt report;
     Formatted.resolvedBy := Report.resolvedBy report;
     Formatted.createdAt := Report.createdAt report;
     Formatted.createdBy :=
       {| user_id := user_id u; username := username u; email := email u |};
     Formatted.reviews := None |}.

Definition formatted_review (review : Review) (a : Author) : FormattedReview :=
  {| fr_id := review_id review;
     fr_comment := comment review;
     fr_upvote := upvote review;
     fr_createdAt := review_createdAt review;
     fr_author :=
       {| author_id := author_id a; author_username := author_username a |} |}.

(** What [report.reviews.map(...)] yields: one entry per review, in order,
    or nothing when a review has no author (reading its [_id] throws). *)
Fixpoint formatted_reviews (reviews : list Review) : option (list FormattedReview) :=
  match reviews with
  | [] => Some []
  | review :: rest =>
      match author review, formatted_reviews rest with
      | Some a, Some done => Some (formatted_review review a :: done)
      | _, _ => None
      end
  end.

(** The answer of [GET] for a report the lookup found. *)
Definition GET_answer (includeReviews : bool) (report : Report.t) : Response :=
  match Report.createdBy report with
  | None => internal_error
  | Some u =>
      match Report.reviews report with
      | Some reviews =>
          if includeReviews then
            match formatted_reviews reviews with
            | Some rs => json (ReportBody (with_reviews (projection report u) rs)) 200
            | None => internal_error
            end
          else json (ReportBody (projection report u)) 200
      | None => json (ReportBody (projection report u)) 200
      end
  end.

(** The identifiers [DELETE] asks the image host to remove for a report:
    the [publicId] of every image, or, for a report whose [images] array is
    empty, its [imageUrl] when it has one. *)
Definition image_deletions (report : Report.t) : list value :=
  match Report.images report with
  | Some ((_ :: _) as images) => map (fun img => VStr (publicId img)) images
  | Some [] =>
      if negb (Report.imageUrl report =? "")%string
      then [VStr (Report.imageUrl report)] else []
  | None => []
  end.

(** The answer of [DELETE] after [deleteReportIfOwner] settled. *)
Definition DELETE_answer (r : reply) : Response :=
  match r with
  | Removed true => json SuccessBody 200
  | Removed false => json (ErrorBody "Failed to delete report") 500
  | _ => internal_error
  end.

(** [DELETE] found the report and let the caller through. *)
Definition DELETE_admitted (request : Request.t) (id : string)
    (report : Report.t) : Prop :=
  id <> ""
  /\ (request_userId request =? "placeholder-user-id")%string = false
  /\ exists u, Report.createdBy report = Some u
               /\ user_id u = request_userId request.

(** Every way a [DELETE] request can go. *)
Inductive DELETE_run (request : Request.t) (id : string)
  : completion Empty_set -> list event -> Prop :=
| DELETE_unconnected e :
    DELETE_run request id (Returned internal_error) [Ev connectToDatabase (Failed e)]
| DELETE_invalid_id :
    id = "" ->
    DELETE_run request id (Returned invalid_report_id) [connected]
| DELETE_unauthenticated :
    id <> "" ->
    (request_userId request =? "placeholder-user-id")%string = true ->
    DELETE_run request id (Returned authentication_required) [connected]
| DELETE_lookup_failed e :
    id <> "" ->
    (request_userId request =? "placeholder-user-id")%string = false ->
    DELETE_run request id (Returned internal_error)
      [connected; Ev (getReportById id None) (Failed e)]
| DELETE_not_found :
    id <> "" ->
    (request_userId request =? "placeholder-user-id")%string = false ->
    DELETE_run request id (Returned report_not_found) [connected; found id None]
| DELETE_ownerless report :
    id <> "" ->
    (request_userId request =? "placeholder-user-id")%string = false ->
    Report.createdBy report = None ->
    DELETE_run request id (Returned internal_error)
      [connected; found id (Some report)]
| DELETE_forbidden report u :
    id <> "" ->
    (request_userId request =? "placeholder-user-id")%string = false ->
    Report.createdBy report = Some u ->
    user_id u <> request_userId request ->
    DELETE_run request id (Returned (forbidden "delete"))
      [connected; found id (Some report)]
| DELETE_attempted report dels r :
    DELETE_admitted request id report ->
    Forall is_deletion dels ->
    map ev_call dels = map deleteImage (image_deletions report) ->
    (exists b, r = Removed b) \/ (exists e, r = Failed e) ->
    DELETE_run request id (Returned (DELETE_answer r))
      (connected :: found id (Some report)
         :: dels ++ [Ev (deleteReportIfOwner id (request_userId request)) r])%list.

(** The calls to the geocoder in a history. *)
Definition geocodes (tr : list event) : list event :=
  filter (fun e => match ev_call e with geocodeAddress _ => true | _ => false end) tr.

(** The calls that ask the image host for a deletion. *)
Definition deletions (tr : list event) : list call :=
  filter (fun c => match c with deleteImage _ => true | _ => false end)
         (map ev_call tr).

(** The status a handler ended with; 0 stands for an exception leaving the
    handler or a handler that returned nothing. *)
Definition status_of (c : completion Empty_set) : Z :=
  match c with
  | Returned response => status response
  | _ => 0
  end.

(** An event of the image host: an upload or a deletion. *)
Definition on_image_host (e : event) : Prop :=
  match ev_call e with
  | uploadImage _ | deleteImage _ => True
  | _ => False
  end.

(** A call with an effect outside the handler: on the geocoder, on the image
    host, or a write to the stored reports. *)
Definition has_effect (c : call) : bool := is_external c || is_write c.

(* ================================================================== *)
(** ** Further sample cases *)

Module Cases.

(** The owner of a report, as the store knows it. *)
Definition owned_by (held : Report.t) (userId : string) : bool :=
  match Report.createdBy held with
  | Some u => (userId =? user_id u)%string
  | None => false
  end.

(** A deployment like [Sample.env], whose geocoder is down unless
    [geocoder], whose store refuses every write unless [writable], and whose
    store holds the one report [held]. *)
Definition env (geocoder writable : bool) (held : Report.t) : oracle :=
  fun past c =>
    match c as c0 return outcome (answer c0) with
    | connectToDatabase => Resolved tt
    | geocodeAddress _ =>
        if geocoder
        then Resolved (VObj [("lat", VNum (2861 # 100)); ("lng", VNum (7721 # 100))])
        else Rejected {| message := "Address not found" |}
    | uploadImage image => Sample.host image
    | deleteImage _ => Resolved tt
    | createReport data =>
        if writable then Resolved (Sample.save data)
        else Rejected {| message := "E11000 duplicate key" |}
    | getReportById id _ =>
        Resolved (if (id =? Report._id held)%string then Some held else None)
    | getAllReports options => Resolved (page_of [held] options)
    | updateReport id patch =>
        if writable
        then Resolved (if (id =? Report._id held)%string
                       then Some (apply_update held patch) else None)
        else Rejected {| message := "E11000 duplicate key" |}
    | deleteReportIfOwner id userId =>
        if writable
        then Resolved ((id =? Report._id held)%string && owned_by held userId)
        else Rejected {| message := "not primary" |}
    end.

(** A create body that gives an address instead of coordinates. *)
Definition by_address : Body.t :=
  {| Body.title := VStr "Overflowing bin";
     Body.description := VStr "near market";
     Body.category := VStr "garbage";
     Body.location := VUndefined;
     Body.address := VStr "Connaught Place, New Delhi";
     Body.newImages := CArr [VStr "a.jpg"];
     Body.imagesToDelete := CUndefined |}.

(** A create body whose title is a number. *)
Definition numbered : Body.t :=
  {| Body.title := VNum (5 # 1);
     Body.description := VStr "near market";
     Body.category := VStr "garbage";
     Body.location := VObj [("lat", VNum (286 # 10)); ("lng", VNum (772 # 10))];
     Body.address := VUndefined;
     Body.newImages := CArr [VStr "a.jpg"];
     Body.imagesToDelete := CUndefined |}.

(** An update that drops the stored image and adds one the host refuses. *)
Definition swap_images : Body.t :=
  {| Body.title := VUndefined;
     Body.description := VUndefined;
     Body.category := VUndefined;
     Body.location := VUndefined;
     Body.address := VUndefined;
     Body.newImages := CArr [VStr "corrupt"];
     Body.imagesToDelete := CArr [VStr "reports/bin.jpg"] |}.

(** An update that moves the report to an address. *)
Definition move : Body.t :=
  {| Body.title := VUndefined;
     Body.description := VUndefined;
     Body.category := VUndefined;
     Body.location := VUndefined;
     Body.address := VStr "Connaught Place, New Delhi";
     Body.newImages := CUndefined;
     Body.imagesToDelete := CUndefined |}.

Definition praise : Review :=
  {| review_id := "64b0000000000000000000c1";
     comment := VStr "Cleared within a day";
     upvote := VBool true;
     review_createdAt := VStr "2024-01-03T00:00:00.000Z";
     author := Some {| author_id := "64b000000000000000000099";
                       author_username := "ravi" |} |}.

Definition with_owner_and_reviews (createdBy : option User)
    (reviews : option (list Review)) : Report.t :=
  {| Report._id := Report._id Sample.stored;
     Report.title := Report.title Sample.stored;
     Report.description := Report.description Sample.stored;
     Report.category := Report.category Sample.stored;
     Report.location := Report.location Sample.stored;
     Report.imageUrl := Report.imageUrl Sample.stored;
     Report.images := Report.images Sample.stored;
     Report.resolved := Report.resolved Sample.stored;
     Report.resolvedAt := Report.resolvedAt Sample.stored;
     Report.resolvedBy := Report.resolvedBy Sample.stored;
     Report.createdAt := Report.createdAt Sample.stored;
     Report.createdBy := createdBy;
     Report.reviews := reviews |}.

(** The stored report with one review, and with its owner's account gone. *)
Definition reviewed : Report.t :=
  with_owner_and_reviews (Some Sample.owner) (Some [praise]).
Definition ownerless : Report.t := with_owner_and_reviews None None.

Definition asking_reviews : Request.t :=
  Sample.request [] [("includeReviews", "true")] Sample.no_body.
Definition resolved_garbage : Request.t :=
  Sample.request [] [("category", "garbage"); ("resolved", "yes")] Sample.no_body.

(** Requests without a [user-id] header. *)
Definition create_by_address : Request.t := Sample.request [] [] by_address.
Definition create_numbered : Request.t := Sample.request [] [] numbered.

(** What [POST] hands over for [Sample.create_two]. *)
Definition two_images : list Image :=
  [{| url := "https://img.example/a.jpg"; publicId := "reports/a.jpg" |};
   {| url := "https://img.example/b.jpg"; publicId := "reports/b.jpg" |}].
Definition two_data : ReportData.t :=
  report_data "Overflowing bin" "near market" (VStr "garbage")
    (VObj [("lat", VNum (286 # 10)); ("lng", VNum (772 # 10))])
    two_images "000000000000000000000001".

Definition refused : Error := {| message := "Invalid image file" |}.

(** The create request of [Sample.create_two], sent by the owner; the
    header name is capitalised, as clients send it. *)
Definition create_signed : Request.t :=
  Sample.request [("User-Id", user_id Sample.owner)] []
    (Sample.bin_report "Overflowing bin" (CArr [VStr "a.jpg"; VStr "b.jpg"])).
Definition signed_data : ReportData.t :=
  report_data "Overflowing bin" "near market" (VStr "garbage")
    (VObj [("lat", VNum (286 # 10)); ("lng", VNum (772 # 10))])
    two_images (user_id Sample.owner).

(** A request without headers and without a body. *)
Definition bodyless : Request.t :=
  {| Request.headers := [];
     Request.searchParams := [];
     Request.json := Unparsable {| message := "Unexpected end of JSON input" |} |}.

End Cases.

(** The geocoder in a history: not asked, asked once with an answer, or
    asked once in vain as the last call of the request. *)
Definition asked_geocoder (location address : value) (c : completion Empty_set)
    (tr : list event) : Prop :=
  geocodes tr = []
  \/ truthy address && negb (truthy location) = true
     /\ ((exists coords, geocodes tr = [Ev (geocodeAddress address) (Coords coords)])
         \/ (exists e pre,
               tr = (pre ++ [Ev (geocodeAddress address) (Failed e)])%list
               /\ Forall (fun e => has_effect (ev_call e) = false) pre
               /\ c = Returned (geocode_failed e))).

(** The calls that send an image to the image host. *)
Definition upload_calls (tr : list event) : list call :=
  filter (fun c => match c with uploadImage _ => true | _ => false end)
         (map ev_call tr).

(** Calls that [PATCH] makes only after the loop over [imagesToDelete]. *)
Definition follows_deletions (c : call) : bool :=
  match c with
  | uploadImage _ | updateReport _ _ => true
  | _ => false
  end.

(* ================================================================== *)
(** ** The data-access functions over the report model *)

Module Dal.

(** A report document as [Report.findById] yields it, not populated:
    [createdBy] is the owner's identifier, if the document has one. *)
Record Doc := { _id : string; createdBy : option string }.

(** The queries on the [Report] model. *)
Inductive query : Type :=
| save (reportData : ReportData.t)
| findById_populate (reportId : string)
| findById (reportId : string)
| findByIdAndDelete (reportId : string).

Definition result (q : query) : Type :=
  match q with
  | save _ => Report.t
  | findById_populate _ => option Report.t
  | findById _ => option Doc
  | findByIdAndDelete _ => option Doc
  end.

(** An [async] function body: it returns, throws, or awaits a query. *)
Inductive task (A : Type) : Type :=
| Return (a : A)
| Raise (e : Error)
| Query (q : query) (k : outcome (result q) -> task A).
Arguments Return {A} a.
Arguments Raise {A} e.
Arguments Query {A} q k.

Fixpoint then_ {A B : Type} (t : task A) (f : A -> task B) : task B :=
  match t with
  | Return a => f a
  | Raise e => Raise e
  | Query q k => Query q (fun out => then_ (k out) f)
  end.

Fixpoint catch {A : Type} (t : task A) (handler : Error -> task A) : task A :=
  match t with
  | Return a => Return a
  | Raise e => handler e
  | Query q k => Query q (fun out => catch (k out) handler)
  end.

Definition awaited (q : query) : task (result q) :=
  Query q (fun out =>
    match out with
    | Resolved a => Return a
    | Rejected e => Raise e
    end).

(** The database: how each query settles after the queries made so far. *)
Definition database : Type := list query -> forall q : query, outcome (result q).

(** [exec db t past] settles the promise of [t] and lists the queries it
    made, in order. *)
Fixpoint exec {A : Type} (db : database) (t : task A) (past : list query)
  : outcome A * list query :=
  match t with
  | Return a => (Resolved a, [])
  | Raise e => (Rejected e, [])
  | Query q k =>
      let r := exec db (k (db past q)) (past ++ [q])%list in
      (fst r, q :: snd r)
  end.

Definition createReport (reportData : ReportData.t) : task Report.t :=
  catch
    (then_ (awaited (save reportData)) (fun savedReport =>
     Return savedReport))
    (fun error => Raise error).

Definition getReportById (reportId : string) : task (option Report.t) :=
  catch
    (then_ (awaited (findById_populate reportId)) (fun report =>
     Return report))
    (fun error => Raise error).

(** [report.createdBy.toString()]. *)
Definition owner_string (report : Doc) : task string :=
  match createdBy report with
  | Some owner => Return owner
  | None => Raise (TypeError "Cannot read properties of undefined (reading 'toString')")
  end.

Definition deleteReportIfOwner (reportId userId : string) : task bool :=
  catch
    (then_ (awaited (findById reportId)) (fun report =>
     match report with
     | None => Return false
     | Some report =>
         then_ (owner_string report) (fun owner =>
         if negb (owner =? userId)%string then Return false
         else
           then_ (awaited (findByIdAndDelete reportId)) (fun _ =>
           Return true))
     end))
    (fun error => Raise error).

(** A database holding the documents [docs], all queries resolving. *)
Definition holding (docs : list Doc) : database :=
  fun past q =>
    match q as q0 return outcome (result q0) with
    | save reportData => Resolved (Sample.save reportData)
    | findById_populate reportId => Resolved None
    | findById reportId =>
        Resolved (find (fun d => (_id d =? reportId)%string) docs)
    | findByIdAndDelete reportId =>
        Resolved (find (fun d => (_id d =? reportId)%string) docs)
    end.

Definition bin : Doc :=
  {| _id := "64b0000000000000000000aa";
     createdBy := Some "64b000000000000000000042" |}.

End Dal.

(** A deployment like [Sample.env] over the one report [held], in which the
    handlers' [deleteReportIfOwner] is the function of the data-access layer
    run on the database [db]. *)
Definition served_by (db : Dal.database) (held : Report.t) : oracle :=
  fun past c =>
    match c as c0 return outcome (answer c0) with
    | deleteReportIfOwner id userId =>
        fst (Dal.exec db (Dal.deleteReportIfOwner id userId) [])
    | getReportById id _ =>
        Resolved (if (id =? Report._id held)%string then Some held else None)
    | c0 => Sample.env past c0
    end.

(* ================================================================== *)
(** ** The explore page *)

Module Explore.

(** The own property [key] of a parsed JSON object; [undefined] when it has
    none.  The fields of an object hold each key once. *)
Fixpoint lookup (fields : list (string * value)) (key : string) : value :=
  match fields with
  | [] => VUndefined
  | (k, v) :: rest => if (k =? key)%string then v else lookup rest key
  end.

(** [v.key] for the property names the page reads, none of which is built
    in: reading a property of [undefined] or [null] throws ([None]); other
    values than objects have no such property. *)
Definition member (v : value) (key : string) : option value :=
  match v with
  | VUndefined | VNull => None
  | VObj fields => Some (lookup fields key)
  | _ => Some VUndefined
  end.

(** The component's state: [reports], [loading] and [error]. *)
Record State := { reports : value; loading : bool; error : string }.

(** [useState([])], [useState(true)], [useState('')]. *)
Definition initial : State :=
  {| reports := VArr []; loading := true; error := "" |}.

Definition setReports (v : value) (s : State) : State :=
  {| reports := v; loading := loading s; error := error s |}.
Definition setLoading (b : bool) (s : State) : State :=
  {| reports := reports s; loading := b; error := error s |}.
Definition setError (e : string) (s : State) : State :=
  {| reports := reports s; loading := loading s; error := e |}.

(** How [await fetch(...)] followed by [await res.json()] can go: the
    request fails, the body is not JSON, or the body parses to [data]. *)
Inductive fetched : Type :=
| Offline (e : Error)
| Unreadable (e : Error)
| Parsed (data : value).

(** [fetchReports], given how the request went. *)
Definition fetchReports (response : fetched) (s : State) : State :=
  let s := setLoading true s in
  let s :=
    match response with
    | Parsed data =>
        match member data "reports" with
        | Some reports => setReports (if truthy reports then reports else VArr []) s
        | None => setError "Failed to load reports" s
        end
    | Offline _ | Unreadable _ => setError "Failed to load reports" s
    end in
  setLoading false s.

(** What a card of the list shows. *)
Record Card := {
  key : value;
  src : value;
  alt : value;
  title : value;
  green : bool;
  status : value;
  description : value
}.

(** The [Link] built for one element of [reports]; reading a property of an
    element that is [null] throws. *)
Definition card (report : value) : option Card :=
  match report with
  | VUndefined | VNull => None
  | _ =>
      let prop key := match member report key with Some v => v | None => VUndefined end in
      Some {| key := prop "_id";
              src := prop "thumbnail";
              alt := prop "title";
              title := prop "title";
              green := match prop "status" with
                       | VStr s => (s =? "resolved")%string
                       | _ => false
                       end;
              status := prop "status";
              description :=
                if truthy (prop "description") then prop "description"
                else VStr "No description." |}
  end.

(** [reports.map(...)] over the elements. *)
Fixpoint cards (items : list value) : option (list Card) :=
  match items with
  | [] => Some []
  | report :: rest =>
      match card report, cards rest with
      | Some c, Some cs => Some (c :: cs)
      | _, _ => None
      end
  end.

(** What the page shows below the map; [Broken] is a render that throws. *)
Inductive screen : Type :=
| Loading
| Message (error : string)
| Cards (cards : list Card)
| Broken.

(** [loading ? ... : error ? ... : reports.map(...)]. *)
Definition render (s : State) : screen :=
  if loading s then Loading
  else if negb (error s =? "")%string then Message (error s)
  else
    match reports s with
    | VArr items =>
        match cards items with
        | Some cs => Cards cs
        | None => Broken
        end
    | _ => Broken
    end.

(** The JSON object of a summary, after the object literal of the list
    handler. *)
Definition summary_json (s : Summary.t) : value :=
  VObj [("_id", VStr (Summary._id s));
        ("title", Summary.title s);
        ("category", Summary.category s);
        ("location", Summary.location s);
        ("thumbnail", VStr (Summary.thumbnail s));
        ("status", VStr (Summary.status s));
        ("createdAt", Summary.createdAt s);
        ("createdBy", VStr (Summary.createdBy s))].

(** The bodies the list handler answers with, parsed: [{ success, reports,
    pagination }] and [{ error }]; [encode] is the JSON form of the
    pagination, which is the data-access layer's. *)
Definition body_json (encode : Pagination -> value) (b : payload) : option value :=
  match b with
  | ListBody summaries pages =>
      Some (VObj [("success", VBool true);
                  ("reports", VArr (map summary_json summaries));
                  ("pagination", encode pages)])
  | ErrorBody e => Some (VObj [("error", VStr e)])
  | _ => None
  end.

(** The page's request, [/api/report?limit=100], answered by the list
    handler running against [env]. *)
Definition list_request : Request.t :=
  {| Request.headers := [];
     Request.searchParams := [("limit", "100")];
     Request.json := Unparsable {| message := "Unexpected end of JSON input" |} |}.

Definition fetch (env : oracle) (encode : Pagination -> value) : fetched :=
  match fst (handle env (GET_list list_request)) with
  | Returned response =>
      match body_json encode (content response) with
      | Some data => Parsed data
      | None => Unreadable {| message := "Unexpected end of JSON input" |}
      end
  | _ => Unreadable {| message := "Unexpected token" |}
  end.

(** The page once [fetchReports] has run. *)
Definition loaded (env : oracle) (encode : Pagination -> value) : State :=
  fetchReports (fetch env encode) initial.

End Explore.

(** The requests after which [fetchReports] reports a failure: the request
    failed, the body was not JSON, or it parsed to [null]. *)
Definition fetch_failed (response : Explore.fetched) : bool :=
  match response with
  | Explore.Parsed data =>
      match Explore.member data "reports" with
      | Some _ => false
      | None => true
      end
  | _ => true
  end.

(* ================================================================== *)
(** ** The navigation bar *)

Module Navbar.

(** [isActive(path)], for the current [pathname]. *)
Definition isActive (pathname path : string) : bool := (pathname =? path)%string.

(** The links of the bar: [href] and label. *)
Definition links : list (string * string) :=
  [("/", "Home"); ("/report", "Report an Issue"); ("/explore", "Explore Reports")].

(** The labels drawn in the active style. *)
Definition highlighted (pathname : string) : list string :=
  map snd (filter (fun link => isActive pathname (fst link)) links).

End Navbar.

(** What the image host returned for the uploads that resolved, in order. *)
Fixpoint uploaded (tr : list event) : list UploadResult :=
  match tr with
  | [] => []
  | Ev (uploadImage _) (Uploaded u) :: rest => u :: uploaded rest
  | _ :: rest => uploaded rest
  end.

(* ================================================================== *)
(** * Properties *)

(* ================================================================== *)
(** ** [trim] *)

Lemma trimStart_spec (s : string) :
  exists l, s = l ++ trimStart s
            /\ all_whitespace l = true
            /\ starts_with_whitespace (trimStart s) = false.
Proof.
  induction s as [| c s (l & Hs & Hl & Ht)]; simpl.
  - now exists "".
  - destruct (is_whitespace c) eqn:Hc.
    + exists (String c l). simpl. rewrite Hc, Hl. now rewrite <- Hs.
    + exists "". simpl. now rewrite Hc.
Qed.

Lemma trimEnd_spec (s : string) :
  exists r, s = trimEnd s ++ r
            /\ all_whitespace r = true
            /\ ends_with_whitespace (trimEnd s) = false.
Proof.
  induction s as [| c s (r & Hs & Hr & Ht)]; simpl.
  - now exists "".
  - destruct (trimEnd s) as [| c' t] eqn:Hend.
    + simpl in Hs. subst r.
      destruct (is_whitespace c) eqn:Hc.
      * exists (String c s). simpl. now rewrite Hc, Hr.
      * exists s. simpl. now rewrite Hc.
    + exists r. simpl. rewrite Hs at 1. simpl. auto.
Qed.

Lemma trimEnd_start (s : string) :
  starts_with_whitespace s = false -> starts_with_whitespace (trimEnd s) = false.
Proof.
  destruct s as [| c s]; simpl; [reflexivity |].
  intros Hc. destruct (trimEnd s); simpl; [now rewrite Hc | exact Hc].
Qed.

(** [trim] removes exactly the leading and trailing white space. *)
Lemma trim_trimmed (s : string) : trimmed s (trim s).
Proof.
  unfold trim.
  destruct (trimStart_spec s) as (l & Hs & Hl & Hstart).
  destruct (trimEnd_spec (trimStart s)) as (r & Hm & Hr & Hend).
  exists l, r. repeat split; auto.
  - now rewrite <- Hm.
  - now apply trimEnd_start.
Qed.

Lemma trimStart_whitespace (s : string) : all_whitespace s = true -> trimStart s = "".
Proof.
  induction s as [| c s IH]; simpl; [reflexivity |].
  intros H. apply andb_true_iff in H. destruct H as [Hc Hs].
  rewrite Hc. now apply IH.
Qed.

(** A string of white space trims to the empty string. *)
Lemma trim_whitespace (s : string) : all_whitespace s = true -> trim s = "".
Proof. intros H. unfold trim. now rewrite trimStart_whitespace. Qed.

Lemma nonempty_truthy (s : string) : s <> "" -> truthy (VStr s) = true.
Proof.
  intros H. simpl. apply negb_true_iff. now apply String.eqb_neq.
Qed.

Lemma or_default_empty (s : string) : or_default (Some s) "" = s.
Proof.
  unfold or_default. destruct (String.eqb_spec s ""); congruence.
Qed.

(* ================================================================== *)
(** ** Running composed programs *)

Section Running.

Variable env : oracle.

Lemma run_bind (A B : Type) (p : prog A) (f : A -> prog B) (past : list event) :
  run env (bind p f) past =
  match run env p past with
  | (Normal a, tr) =>
      let r := run env (f a) (past ++ tr) in (fst r, (tr ++ snd r)%list)
  | (Returned r, tr) => (Returned r, tr)
  | (Thrown e, tr) => (Thrown e, tr)
  end.
Proof.
  revert past; induction p as [a | r | e | c k IH]; intros past; simpl.
  - rewrite app_nil_r. now destruct (run env (f a) past).
  - reflexivity.
  - reflexivity.
  - rewrite IH.
    destruct (run env (k (env past c)) _) as [[a | r | e] tr]; simpl;
      try reflexivity.
    now rewrite <- app_assoc.
Qed.

Lemma run_try_catch (A : Type) (p : prog A) (handler : Error -> prog A)
    (past : list event) :
  run env (try_catch p handler) past =
  match run env p past with
  | (Thrown e, tr) =>
      let r := run env (handler e) (past ++ tr) in (fst r, (tr ++ snd r)%list)
  | done => done
  end.
Proof.
  revert past; induction p as [a | r | e | c k IH]; intros past; simpl.
  - reflexivity.
  - reflexivity.
  - rewrite app_nil_r. now destruct (run env (handler e) past).
  - rewrite IH.
    destruct (run env (k (env past c)) _) as [[a | r | e] tr]; simpl;
      try reflexivity.
    now rewrite <- app_assoc.
Qed.

Lemma run_await (c : call) (past : list event) :
  run env (await c) past =
  (match env past c with
   | Resolved a => Normal a
   | Rejected e => Thrown e
   end, [Ev c (reply_of c (env past c))]).
Proof. unfold await; simpl. now destruct (env past c). Qed.

(** The same facts, read from a run that is known. *)
Lemma run_bind_inv (A B : Type) (p : prog A) (f : A -> prog B)
    (past : list event) (c : completion B) (tr : list event) :
  run env (bind p f) past = (c, tr) ->
  match run env p past with
  | (Normal a, tr1) =>
      exists tr2, run env (f a) (past ++ tr1) = (c, tr2) /\ tr = (tr1 ++ tr2)%list
  | (Returned r, tr1) => c = Returned r /\ tr = tr1
  | (Thrown e, tr1) => c = Thrown e /\ tr = tr1
  end.
Proof.
  rewrite run_bind.
  destruct (run env p past) as [[a | r | e] tr1]; simpl.
  - destruct (run env (f a) (past ++ tr1)) as [c2 tr2]; simpl.
    intros H; injection H as <- <-. now exists tr2.
  - intros H; injection H as <- <-. now split.
  - intros H; injection H as <- <-. now split.
Qed.

Lemma run_await_inv (B : Type) (c : call) (f : answer c -> prog B)
    (past : list event) (c' : completion B) (tr : list event) :
  run env (bind (await c) f) past = (c', tr) ->
  match env past c with
  | Resolved a =>
      exists tr2,
        run env (f a) (past ++ [Ev c (reply_of c (Resolved a))]) = (c', tr2)
        /\ tr = Ev c (reply_of c (Resolved a)) :: tr2
  | Rejected e => c' = Thrown e /\ tr = [Ev c (reply_of c (Rejected e))]
  end.
Proof.
  intros H. apply run_bind_inv in H. rewrite run_await in H.
  destruct (env past c) as [a | e]; exact H.
Qed.

(** The outermost [try]/[catch] of a handler turns whatever is thrown
    into the fixed answer of its [catch] block. *)
Lemma run_guarded_inv (A : Type) (p : prog A) (r0 : Response)
    (past : list event) (c : completion A) (tr : list event) :
  run env (try_catch p (fun _ => Respond r0)) past = (c, tr) ->
  exists c0,
    run env p past = (c0, tr)
    /\ c = match c0 with Thrown _ => Returned r0 | _ => c0 end.
Proof.
  rewrite run_try_catch.
  destruct (run env p past) as [[a | r | e] tr1]; simpl;
    rewrite ?app_nil_r;
    intros H; injection H as <- <-; eexists; split; reflexivity.
Qed.

End Running.

(* ================================================================== *)
(** ** Histories *)

Lemma uploaded_external (tr : list event) :
  Forall is_uploaded tr -> Forall external tr.
Proof.
  apply Forall_impl. intros [[] []]; simpl; intros H; try contradiction; reflexivity.
Qed.

Lemma deletion_external (tr : list event) :
  Forall is_deletion tr -> Forall external tr.
Proof.
  apply Forall_impl. intros [[] []]; simpl; intros H; try contradiction; reflexivity.
Qed.

Lemma external_no_write (tr : list event) : Forall external tr -> no_write tr.
Proof.
  apply Forall_impl. intros [[] r]; unfold external; simpl; congruence.
Qed.

Lemma uploaded_resolved (tr : list event) :
  Forall is_uploaded tr -> all_resolved tr.
Proof.
  apply Forall_impl. intros [[] []]; simpl; intros H; try contradiction; reflexivity.
Qed.

Lemma uploaded_no_failure (tr : list event) (image : value) (e : Error) :
  Forall is_uploaded tr -> ~ In (Ev (uploadImage image) (Failed e)) tr.
Proof.
  intros H Hin. rewrite Forall_forall in H. exact (H _ Hin).
Qed.

Lemma deletion_no_failure (tr : list event) (image : value) (e : Error) :
  Forall is_deletion tr -> ~ In (Ev (uploadImage image) (Failed e)) tr.
Proof.
  intros H Hin. rewrite Forall_forall in H. exact (H _ Hin).
Qed.

Lemma uploads_length (tr : list event) :
  Forall is_uploaded tr -> List.length (uploads tr) = List.length tr.
Proof.
  induction 1 as [| [[] []] tr H _ IH]; simpl in *; try contradiction; auto.
Qed.

Lemma uploads_app (tr1 tr2 : list event) :
  uploads (tr1 ++ tr2) = (uploads tr1 ++ uploads tr2)%list.
Proof.
  induction tr1 as [| [c r] tr1 IH]; simpl; [reflexivity |].
  destruct c; try exact IH. destruct r; try exact IH.
  simpl. now rewrite IH.
Qed.

Lemma uploads_deletions (tr : list event) : Forall is_deletion tr -> uploads tr = [].
Proof.
  induction 1 as [| [c r] tr H _ IH]; simpl; [reflexivity |].
  destruct c; try exact IH. destruct r; simpl in H; try contradiction.
Qed.

Lemma located_external (location address : value) (c : completion value)
    (geo : list event) :
  located location address c geo -> Forall external geo.
Proof. intros []; repeat constructor. Qed.

Lemma located_uploads (location address : value) (c : completion value)
    (geo : list event) :
  located location address c geo -> uploads geo = [].
Proof. now intros []. Qed.

Lemma located_no_failure (location address : value) (c : completion value)
    (geo : list event) (image : value) (e : Error) :
  located location address c geo -> ~ In (Ev (uploadImage image) (Failed e)) geo.
Proof. intros [] Hin; simpl in Hin; intuition discriminate. Qed.

Lemma located_resolved (location address finalLocation : value) (geo : list event) :
  located location address (Normal finalLocation) geo -> all_resolved geo.
Proof. intros H. inversion H; repeat constructor. Qed.

Lemma upload_run_external (acc : list Image) (items : list value)
    (c : completion (list Image)) (tr : list event) :
  upload_run acc items c tr -> Forall external tr.
Proof.
  intros [tr' Hups _ | sent image rest ups e dels _ Hups _ Hdels _].
  - now apply uploaded_external.
  - apply Forall_app. split; [now apply uploaded_external |].
    constructor; [reflexivity | now apply deletion_external].
Qed.

(** When the loop completes, every upload resolved and the array holds
    what was there plus one image per item. *)
Lemma upload_run_normal (acc : list Image) (items : list value)
    (uploadedImages : list Image) (tr : list event) :
  upload_run acc items (Normal uploadedImages) tr ->
  Forall is_uploaded tr
  /\ uploadedImages = (acc ++ uploads tr)%list
  /\ List.length tr = List.length items.
Proof.
  intros H. inversion H as [tr' Hups Hcalls |]; subst.
  repeat split; auto.
  rewrite <- (length_map ev_call), Hcalls. apply length_map.
Qed.

(** When the loop leaves the handler, it is through a failed upload; the
    uploads before it resolved and one deletion per pushed image follows. *)
Lemma upload_run_returned (acc : list Image) (items : list value)
    (r : Response) (tr : list event) :
  upload_run acc items (Returned r) tr ->
  exists sent image rest ups e dels,
    items = (sent ++ image :: rest)%list
    /\ tr = (ups ++ Ev (uploadImage image) (Failed e) :: dels)%list
    /\ r = upload_failed e
    /\ Forall is_uploaded ups
    /\ List.length ups = List.length sent
    /\ Forall is_deletion dels
    /\ map ev_call dels = map delete_call (acc ++ uploads ups)%list.
Proof.
  intros H.
  inversion H as [| sent image rest ups e dels Hitems Hups Hcalls Hdels Hdcalls];
    subst.
  exists sent, image, rest, ups, e, dels. repeat split; auto.
  rewrite <- (length_map ev_call), Hcalls. apply length_map.
Qed.

(* ================================================================== *)
(** ** The loops *)

Section Loops.

Variable env : oracle.

(** A loop of quiet deletions issues one [deleteImage] per item, whatever
    the image host answers, and completes normally. *)
Lemma delete_loop_run (A : Type) (f : A -> value) (items : list A) :
  forall past,
  exists dels,
    run env (for_of items (fun x _ => delete_quietly (f x)) tt) past = (Normal tt, dels)
    /\ Forall is_deletion dels
    /\ map ev_call dels = map (fun x => deleteImage (f x)) items.
Proof.
  induction items as [| x rest IH]; intros past.
  - exists []. simpl. auto.
  - cbn [for_of]. rewrite run_bind. unfold delete_quietly at 1.
    rewrite run_try_catch, run_await.
    destruct (IH (past ++ [Ev (deleteImage (f x)) (reply_of (deleteImage (f x)) (env past (deleteImage (f x))))])%list)
      as (dels & Hrun & Hdel & Hcalls).
    destruct (env past (deleteImage (f x))) as [[] | e]; simpl in *;
      rewrite Hrun; simpl;
      eexists; (split; [reflexivity |]); split;
      try (constructor; [exact I | exact Hdel]);
      simpl; now rewrite Hcalls.
Qed.

Lemma upload_run_nil (acc : list Image) : upload_run acc [] (Normal acc) [].
Proof.
  pose proof (@upload_run_done acc [] [] (Forall_nil _) eq_refl) as H.
  simpl in H. now rewrite app_nil_r in H.
Qed.

(** One more resolved upload in front of a run of the loop. *)
Lemma upload_run_cons (acc : list Image) (x : value) (u : UploadResult)
    (rest : list value) (c : completion (list Image)) (tr : list event) :
  upload_run (acc ++ [stored_image u]) rest c tr ->
  upload_run acc (x :: rest) c (Ev (uploadImage x) (Uploaded u) :: tr).
Proof.
  intros H. destruct H as [tr Hups Hcalls | sent image rest' ups e dels Hitems Hups Hcalls Hdels Hdcalls].
  - rewrite <- app_assoc.
    change ([stored_image u] ++ uploads tr)%list
      with (uploads (Ev (uploadImage x) (Uploaded u) :: tr)).
    apply upload_run_done.
    + constructor; [exact I | exact Hups].
    + simpl. now rewrite Hcalls.
  - subst rest.
    change (Ev (uploadImage x) (Uploaded u) :: ups ++ Ev (uploadImage image) (Failed e) :: dels)%list
      with ((Ev (uploadImage x) (Uploaded u) :: ups) ++ Ev (uploadImage image) (Failed e) :: dels)%list.
    apply upload_run_failed with (sent := x :: sent) (rest := rest').
    + reflexivity.
    + constructor; [exact I | exact Hups].
    + simpl. now rewrite Hcalls.
    + exact Hdels.
    + rewrite Hdcalls. simpl. now rewrite <- app_assoc.
Qed.

(** One turn of the upload loop. *)
Lemma upload_step_run (x : value) (acc : list Image) (past : list event) :
  exists dels,
    Forall is_deletion dels
    /\ map ev_call dels = map delete_call acc
    /\ run env (upload_step x acc) past =
       match env past (uploadImage x) with
       | Resolved u =>
           (Normal (acc ++ [stored_image u])%list, [Ev (uploadImage x) (Uploaded u)])
       | Rejected e =>
           (Returned (upload_failed e), Ev (uploadImage x) (Failed e) :: dels)
       end.
Proof.
  destruct (delete_loop_run (fun i => VStr (publicId i)) acc
              (past ++ [Ev (uploadImage x)
                          (reply_of (uploadImage x) (env past (uploadImage x)))])%list)
    as (dels & Hrun & Hdel & Hcalls).
  exists dels. split; [exact Hdel |]. split; [exact Hcalls |].
  unfold upload_step. rewrite run_try_catch, run_bind, run_await.
  destruct (env past (uploadImage x)) as [u | e]; simpl; [reflexivity |].
  rewrite run_bind. unfold cleanup. simpl in Hrun. rewrite Hrun. simpl.
  now rewrite app_nil_r.
Qed.

(** The upload loop takes one of the two shapes of [upload_run]. *)
Lemma upload_loop_run (items : list value) :
  forall acc past,
    upload_run acc items
      (fst (run env (for_of items upload_step acc) past))
      (snd (run env (for_of items upload_step acc) past)).
Proof.
  induction items as [| x rest IH]; intros acc past.
  - simpl. apply upload_run_nil.
  - cbn [for_of]. rewrite run_bind.
    destruct (upload_step_run x acc past) as (dels & Hdel & Hcalls & ->).
    destruct (env past (uploadImage x)) as [u | e]; simpl.
    + apply upload_run_cons. apply IH.
    + apply upload_run_failed with (sent := []) (rest := rest) (ups := []);
        auto.
      simpl. now rewrite app_nil_r.
Qed.

(** [resolve_location] takes one of the three shapes of [located]. *)
Lemma resolve_location_run (location address : value) (past : list event) :
  located location address
    (fst (run env (resolve_location location address) past))
    (snd (run env (resolve_location location address) past)).
Proof.
  unfold resolve_location.
  destruct (truthy address && negb (truthy location)) eqn:Hgeo.
  - rewrite run_try_catch, run_bind, run_await.
    destruct (env past (geocodeAddress address)) as [coords | e]; simpl.
    + now apply located_geocoded.
    + now apply located_failed.
  - simpl. now apply located_given.
Qed.

End Loops.

(* ================================================================== *)
(** ** The runs of [POST] *)

Lemma required_present (body : Body.t) :
  required_missing body = false ->
  truthy (Body.title body) = true
  /\ truthy (Body.description body) = true
  /\ truthy (Body.category body) = true
  /\ (exists items, Body.newImages body = CArr items)
  /\ (truthy (Body.location body) = true \/ truthy (Body.address body) = true).
Proof.
  unfold required_missing. intros H.
  repeat (apply orb_false_iff in H; destruct H as [H ?]).
  repeat match goal with
         | Hn : negb _ = false |- _ => apply negb_false_iff in Hn
         end.
  repeat split; try assumption.
  - destruct (Body.newImages body); try discriminate. now eexists.
  - destruct (truthy (Body.location body)); [now left | right].
    now destruct (truthy (Body.address body)).
Qed.

(** Reading the body: it completes with the properties destructured, or
    throws for a body that cannot be read. *)
Lemma read_json_cases (request : Request.t) :
  read_json request = Pure (Request.body request)
  \/ (unreadable request /\ exists e, read_json request = Throw e).
Proof.
  unfold read_json, Request.body, unreadable.
  destruct (Request.json request) as [e | | body].
  - right. split; [discriminate | now eexists].
  - right. split; [discriminate | now eexists].
  - now left.
Qed.

Section Handlers.

Variable env : oracle.

(** [POST] always answers, in one of the ways listed by [POST_run]. *)
Lemma POST_runs (request : Request.t) (c : completion Empty_set) (tr : list event) :
  handle env (POST request) = (c, tr) -> POST_run request c tr.
Proof.
  unfold handle, POST. intros H.
  apply run_guarded_inv in H. destruct H as (c0 & H & ->).
  apply run_await_inv in H.
  destruct (env [] connectToDatabase) as [[] | e]; simpl in H;
    [| destruct H as [-> ->]; apply POST_unconnected].
  destruct H as (tr2 & H & ->). fold connected in *.
  destruct (read_json_cases request) as [Hread | (Hunread & e & Hread)];
    rewrite Hread in H; cbn [bind] in H;
    [| simpl in H; injection H as <- <-; now apply POST_unreadable].
  destruct (required_missing (Request.body request)) eqn:Hmissing;
    [simpl in H; injection H as <- <-; now apply POST_missing_fields |].
  destruct (includes validCategories (Body.category (Request.body request)))
    eqn:Hcategory; simpl in H;
    [| injection H as <- <-; now apply POST_invalid_category].
  assert (Hvalid : POST_valid request) by (split; assumption).
  destruct (required_present _ Hmissing) as (_ & _ & _ & (items & Hitems) & _).
  apply run_bind_inv in H.
  pose proof (resolve_location_run env (Body.location (Request.body request))
                (Body.address (Request.body request)) [connected]) as Hloc.
  destruct (run env (resolve_location _ _) [connected]) as [cl geo].
  cbn [fst snd] in Hloc.
  destruct cl as [finalLocation | r | e0];
    [| destruct H as [-> ->]; inversion Hloc; subst; now apply POST_unlocated
     | inversion Hloc].
  destruct H as (tr3 & H & ->).
  rewrite Hitems in H. cbn [iterate bind] in H.
  apply run_bind_inv in H. unfold upload_all in H.
  pose proof (upload_loop_run env items [] ([connected] ++ geo)) as Hup.
  destruct (run env (for_of items upload_step []) ([connected] ++ geo))
    as [cu ups].
  cbn [fst snd] in Hup.
  destruct cu as [uploadedImages | r | e0];
    [| destruct H as [-> ->]; now apply POST_upload_failed with finalLocation items
     | inversion Hup].
  destruct H as (tr4 & H & ->).
  assert (Hdone : POST_uploaded request finalLocation uploadedImages
                    (connected :: geo ++ ups)).
  { split; [exact Hvalid |]. now exists geo, items, ups. }
  destruct (Body.title (Request.body request)) as [| | | | t | |] eqn:Htitle;
    try (cbn [call_trim bind run] in H; injection H as <- <-;
         rewrite app_nil_r;
         apply POST_trim_failed with finalLocation uploadedImages;
         [exact Hdone | intros t d [Ht _]; congruence]).
  destruct (Body.description (Request.body request)) as [| | | | d | |]
    eqn:Hdescription;
    try (cbn [call_trim bind run] in H; injection H as <- <-;
         rewrite app_nil_r;
         apply POST_trim_failed with finalLocation uploadedImages;
         [exact Hdone | intros t' d' [_ Hd]; congruence]).
  cbn [call_trim bind] in H.
  apply run_await_inv in H.
  rewrite (app_assoc geo ups), app_comm_cons.
  destruct (env _ (createReport _)) as [savedReport | e].
  - destruct H as (tr5 & H & ->). cbn [bind run] in H.
    injection H as <- <-.
    now apply POST_created.
  - destruct H as [-> ->].
    now apply POST_unsaved.
Qed.

(** [PATCH] always answers, in one of the ways listed by [PATCH_run]. *)
Lemma PATCH_runs (request : Request.t) (id : string)
    (c : completion Empty_set) (tr : list event) :
  handle env (PATCH request id) = (c, tr) -> PATCH_run request id c tr.
Proof.
  unfold handle, PATCH. intros H.
  apply run_guarded_inv in H. destruct H as (c0 & H & ->).
  apply run_await_inv in H.
  destruct (env [] connectToDatabase) as [[] | e]; simpl in H;
    [| destruct H as [-> ->]; apply PATCH_unconnected].
  destruct H as (tr2 & H & ->). fold connected in *.
  destruct (invalid_id id) eqn:Hid;
    [simpl in H; injection H as <- <-; now apply PATCH_invalid_id |].
  destruct (read_json_cases request) as [Hread | (Hunread & e & Hread)];
    rewrite Hread in H; cbn [bind] in H;
    [| simpl in H; injection H as <- <-; now apply PATCH_unreadable].
  destruct (request_userId request =? "placeholder-user-id")%string eqn:Hauth;
    [simpl in H; injection H as <- <-; now apply PATCH_unauthenticated |].
  apply run_await_inv in H.
  destruct (env [connected] (getReportById id None)) as [[currentReport |] | e];
    cbn [reply_of] in H; fold (found id) in H.
  3: { destruct H as [-> ->]. now apply PATCH_lookup_failed. }
  2: { destruct H as (tr3 & H & ->). simpl in H. injection H as <- <-.
       now apply PATCH_not_found. }
  destruct H as (tr3 & H & ->).
  unfold owner_id in H.
  destruct (Report.createdBy currentReport) as [u |] eqn:Howner;
    cbn [bind run] in H;
    [| injection H as <- <-; now apply PATCH_ownerless].
  destruct (user_id u =? request_userId request)%string eqn:Hown;
    cbn [negb] in H.
  2: { simpl in H. injection H as <- <-.
       apply PATCH_forbidden with u; auto. now apply String.eqb_neq. }
  apply String.eqb_eq in Hown.
  assert (Hadmitted : PATCH_admitted request id currentReport).
  { split; [exact Hid |]. split; [exact Hauth |]. now exists u. }
  destruct (truthy (Body.category (Request.body request))
            && negb (includes validCategories (Body.category (Request.body request))))
    eqn:Hcategory;
    [simpl in H; injection H as <- <-; now apply PATCH_invalid_category |].
  fold (found id (Some currentReport)) in *.
  set (past := ([connected] ++ [found id (Some currentReport)])%list) in *.
  apply run_bind_inv in H.
  pose proof (resolve_location_run env (Body.location (Request.body request))
                (Body.address (Request.body request)) past) as Hloc.
  destruct (run env (resolve_location _ _) past) as [cl geo].
  cbn [fst snd] in Hloc.
  destruct cl as [finalLocation | r | e0];
    [| destruct H as [-> ->]; inversion Hloc; subst; now apply PATCH_unlocated
     | inversion Hloc].
  destruct H as (tr4 & H & ->).
  apply run_bind_inv in H. unfold delete_listed in H.
  destruct (delete_loop_run env (fun x : value => x)
              (nonempty_items (Body.imagesToDelete (Request.body request)))
              (past ++ geo)%list) as (dels & Hrun & Hdel & Hcalls).
  cbv beta in Hrun. rewrite Hrun in H. clear Hrun.
  destruct H as (tr5 & H & ->).
  apply run_bind_inv in H. unfold upload_all in H.
  pose proof (upload_loop_run env
                (nonempty_items (Body.newImages (Request.body request))) []
                ((past ++ geo) ++ dels)) as Hup.
  destruct (run env (for_of _ upload_step []) ((past ++ geo) ++ dels))
    as [cu ups].
  cbn [fst snd] in Hup.
  destruct cu as [uploadedNewImages | r | e0];
    [| destruct H as [-> ->];
       now apply PATCH_upload_failed with finalLocation
     | inversion Hup].
  destruct H as (tr6 & H & ->).
  assert (Hdone : PATCH_uploaded request id currentReport finalLocation
                    uploadedNewImages
                    (connected :: found id (Some currentReport)
                       :: geo ++ dels ++ ups)).
  { split; [exact Hadmitted |]. split; [exact Hcategory |].
    now exists geo, dels, ups. }
  apply run_await_inv in H.
  replace (connected :: found id (Some currentReport) :: geo ++ dels ++ ups ++ tr6)%list
    with ((connected :: found id (Some currentReport) :: geo ++ dels ++ ups) ++ tr6)%list
    by (simpl; now rewrite <- !app_assoc).
  destruct (env _ (updateReport id _)) as [[updatedReport |] | e];
    cbn [reply_of] in H.
  - destruct H as (tr7 & H & ->).
    unfold format_report in H |- *.
    destruct (Report.createdBy updatedReport) as [v |] eqn:Hv;
      cbn [bind run] in H; injection H as <- <-.
    + eapply PATCH_updated; [exact Hdone |].
      unfold format_report. now rewrite Hv.
    + now apply PATCH_unformatted with currentReport.
  - destruct H as (tr7 & H & ->). cbn [bind run] in H. injection H as <- <-.
    now apply PATCH_update_missing with currentReport.
  - destruct H as [-> ->].
    now apply PATCH_update_failed with currentReport.
Qed.

End Handlers.

(* ================================================================== *)
(** ** What stays on the image host *)

Lemma hosted_app (tr1 tr2 : list event) :
  forall held, hosted (tr1 ++ tr2) held = hosted tr2 (hosted tr1 held).
Proof.
  induction tr1 as [| [c r] tr1 IH]; intros held; simpl; [reflexivity |].
  destruct c; try apply IH.
  - destruct r; apply IH.
  - destruct id; try apply IH. destruct r; apply IH.
Qed.

Lemma hosted_uploaded (tr : list event) :
  Forall is_uploaded tr ->
  forall held, hosted tr held = (held ++ map publicId (uploads tr))%list.
Proof.
  induction 1 as [| [c r] tr H _ IH]; intros held; simpl.
  - now rewrite app_nil_r.
  - destruct c; simpl in H; try contradiction.
    destruct r; try contradiction.
    rewrite IH. simpl. now rewrite <- app_assoc.
Qed.

(** Deletions and calls that are not of the image host leave an empty host
    empty. *)
Lemma hosted_nothing (tr : list event) :
  uploads tr = [] -> hosted tr [] = [].
Proof.
  induction tr as [| [c r] tr IH]; simpl; [reflexivity |].
  destruct c; try exact IH.
  - destruct r; try exact IH. discriminate.
  - destruct id; try exact IH. destruct r; exact IH.
Qed.

(** Deletions that all resolve, one for each image of [imgs], remove
    whatever is held among them. *)
Lemma hosted_deleted (imgs : list Image) :
  forall dels held,
    map ev_call dels = map delete_call imgs ->
    Forall is_deletion dels ->
    all_resolved dels ->
    incl held (map publicId imgs) ->
    hosted dels held = [].
Proof.
  induction imgs as [| img imgs IH]; intros dels held Hcalls Hdels Hres Hincl.
  - destruct dels; [| discriminate]. simpl.
    destruct held as [| q held]; [reflexivity |].
    destruct (Hincl q (or_introl eq_refl)).
  - destruct dels as [| [c r] dels]; [discriminate |].
    simpl in Hcalls. injection Hcalls as -> Hcalls.
    inversion Hdels as [| ? ? Hdel Hdels']; subst.
    inversion Hres as [| ? ? Hr Hres']; subst.
    unfold delete_call. destruct r; simpl in Hdel, Hr; try contradiction;
      try discriminate.
    simpl. apply IH; auto.
    intros q Hq. apply filter_In in Hq. destruct Hq as [Hq Hneq].
    apply negb_true_iff, String.eqb_neq in Hneq.
    destruct (Hincl q Hq) as [Heq | Hin]; [congruence | exact Hin].
Qed.

(* ================================================================== *)
(** ** What the histories of [POST] and [PATCH] contain *)

Lemma external_not_found (tr : list event) (id : string) (r : option Report.t) :
  Forall external tr -> ~ In (found id r) tr.
Proof.
  intros H Hin. rewrite Forall_forall in H. specialize (H _ Hin). discriminate.
Qed.

Lemma external_not_created (tr : list event) (data : ReportData.t) (r : reply) :
  Forall external tr -> ~ In (Ev (createReport data) r) tr.
Proof.
  intros H Hin. rewrite Forall_forall in H. specialize (H _ Hin). discriminate.
Qed.

Lemma external_not_updated (tr : list event) (id : string) (patch : UpdateData.t)
    (r : reply) :
  Forall external tr -> ~ In (Ev (updateReport id patch) r) tr.
Proof.
  intros H Hin. rewrite Forall_forall in H. specialize (H _ Hin). discriminate.
Qed.

Lemma POST_uploaded_facts (request : Request.t) (finalLocation : value)
    (uploadedImages : list Image) (tr : list event) :
  POST_uploaded request finalLocation uploadedImages tr ->
  (exists rest, tr = connected :: rest /\ Forall external rest)
  /\ (forall image e, ~ In (Ev (uploadImage image) (Failed e)) tr)
  /\ all_resolved tr
  /\ uploads tr = uploadedImages
  /\ List.length uploadedImages
     = List.length (nonempty_items (Body.newImages (Request.body request))).
Proof.
  intros (_ & geo & items & ups & -> & Hloc & Hitems & Hup).
  apply upload_run_normal in Hup. destruct Hup as (Hups & -> & Hlen).
  rewrite Hitems. simpl.
  split; [| split; [| split; [| split]]].
  - eexists; split; [reflexivity |]. apply Forall_app. split.
    + eapply located_external; eassumption.
    + now apply uploaded_external.
  - intros image e [Hin | Hin]; [discriminate |].
    apply in_app_or in Hin. destruct Hin as [Hin | Hin].
    + eapply located_no_failure; eassumption.
    + eapply uploaded_no_failure; eassumption.
  - constructor; [reflexivity |]. apply Forall_app. split.
    + eapply located_resolved; eassumption.
    + now apply uploaded_resolved.
  - rewrite uploads_app. now rewrite (located_uploads Hloc).
  - now rewrite uploads_length.
Qed.

Lemma PATCH_uploaded_facts (request : Request.t) (id : string)
    (currentReport : Report.t) (finalLocation : value)
    (uploadedNewImages : list Image) (tr : list event) :
  PATCH_uploaded request id currentReport finalLocation uploadedNewImages tr ->
  (exists rest, tr = connected :: found id (Some currentReport) :: rest
                /\ Forall external rest)
  /\ (forall image e, ~ In (Ev (uploadImage image) (Failed e)) tr)
  /\ uploads tr = uploadedNewImages
  /\ List.length uploadedNewImages
     = List.length (nonempty_items (Body.newImages (Request.body request))).
Proof.
  intros (_ & _ & geo & dels & ups & -> & Hloc & Hdels & _ & Hup).
  apply upload_run_normal in Hup. destruct Hup as (Hups & -> & Hlen).
  simpl.
  split; [| split; [| split]].
  - eexists; split; [reflexivity |]. apply Forall_app. split.
    + eapply located_external; eassumption.
    + apply Forall_app. split;
        [now apply deletion_external | now apply uploaded_external].
  - intros image e [Hin | [Hin | Hin]]; try discriminate.
    apply in_app_or in Hin. destruct Hin as [Hin | Hin].
    + eapply located_no_failure; eassumption.
    + apply in_app_or in Hin. destruct Hin as [Hin | Hin].
      * eapply deletion_no_failure; eassumption.
      * eapply uploaded_no_failure; eassumption.
  - rewrite !uploads_app. rewrite (located_uploads Hloc).
    now rewrite (uploads_deletions Hdels).
  - now rewrite uploads_length.
Qed.

(** A failed upload inside the loop, seen from the whole history: [pre] is
    what happened before the loop. *)
Lemma upload_failure_shape (pre ups : list event) (items : list value)
    (r : Response) (image : value) (e : Error) :
  upload_run [] items (Returned r) ups ->
  (forall image e, ~ In (Ev (uploadImage image) (Failed e)) pre) ->
  uploads pre = [] ->
  In (Ev (uploadImage image) (Failed e)) (pre ++ ups) ->
  exists before after sent rest,
    (pre ++ ups)%list = (before ++ Ev (uploadImage image) (Failed e) :: after)%list
    /\ items = (sent ++ image :: rest)%list
    /\ List.length (uploads before) = List.length sent
    /\ map ev_call after = map delete_call (uploads before)
    /\ r = upload_failed e
    /\ (all_resolved after -> hosted (pre ++ ups) [] = []).
Proof.
  intros Hup Hpre Hnone Hin.
  apply upload_run_returned in Hup.
  destruct Hup as (sent & image' & rest & ups' & e' & dels
                   & -> & -> & -> & Hups & Hlen & Hdels & Hcalls).
  assert (Heq : Ev (uploadImage image) (Failed e) = Ev (uploadImage image') (Failed e')).
  { apply in_app_or in Hin. destruct Hin as [Hin | Hin];
      [now apply Hpre in Hin |].
    apply in_app_or in Hin. destruct Hin as [Hin | [Hin | Hin]].
    - now apply uploaded_no_failure in Hin.
    - now symmetry.
    - now apply deletion_no_failure in Hin. }
  injection Heq as <- <-.
  exists (pre ++ ups')%list, dels, sent, rest.
  rewrite uploads_app, Hnone. simpl in *.
  repeat split; auto.
  - now rewrite <- app_assoc.
  - now rewrite uploads_length.
  - intros Hres. rewrite !hosted_app, (hosted_nothing _ Hnone). simpl.
    rewrite (hosted_uploaded Hups). simpl.
    eapply hosted_deleted; eauto. apply incl_refl.
Qed.

(** After the lookup of [PATCH] no other lookup is made. *)
Lemma found_once (id : string) (currentReport report : Report.t) (rest : list event) :
  ~ In (found id (Some report)) rest ->
  In (found id (Some report)) (connected :: found id (Some currentReport) :: rest) ->
  report = currentReport.
Proof.
  intros Hrest [Hin | [Hin | Hin]].
  - discriminate.
  - unfold found in Hin. congruence.
  - contradiction.
Qed.

Lemma admitted_owner (request : Request.t) (id : string) (currentReport : Report.t)
    (u : User) :
  PATCH_admitted request id currentReport ->
  Report.createdBy currentReport = Some u ->
  user_id u = request_userId request.
Proof. intros (_ & _ & u' & Hu' & Hid) Hu. congruence. Qed.

(** ** The field merge of the data-access layer *)

Lemma defined_undefined (v : value) : defined v = None <-> v = VUndefined.
Proof. destruct v; simpl; split; congruence. Qed.

(** A key the patch does not carry leaves the stored field as it is. *)
Lemma apply_update_frame (stored : Report.t) (patch : UpdateData.t) :
  (UpdateData.title patch = None ->
   Report.title (apply_update stored patch) = Report.title stored)
  /\ (UpdateData.description patch = None ->
      Report.description (apply_update stored patch) = Report.description stored)
  /\ (UpdateData.category patch = None ->
      Report.category (apply_update stored patch) = Report.category stored)
  /\ (UpdateData.location patch = None ->
      Report.location (apply_update stored patch) = Report.location stored)
  /\ (UpdateData.imagesToDelete patch = None ->
      UpdateData.newImages patch = None ->
      Report.images (apply_update stored patch) = Report.images stored).
Proof.
  repeat split; simpl; try (intros ->; reflexivity).
  intros -> ->. reflexivity.
Qed.


(** ** What the image host returned *)

Lemma uploaded_app (tr1 tr2 : list event) :
  uploaded (tr1 ++ tr2) = (uploaded tr1 ++ uploaded tr2)%list.
Proof.
  induction tr1 as [| [c r] tr1 IH]; simpl; [reflexivity |].
  destruct c; try exact IH. destruct r; try exact IH.
  simpl. now rewrite IH.
Qed.

(** The entries pushed by the handler carry what the image host returned. *)
Lemma uploads_uploaded (tr : list event) :
  uploads tr = map stored_image (uploaded tr).
Proof.
  induction tr as [| [c r] tr IH]; simpl; [reflexivity |].
  destruct c; try exact IH. destruct r; try exact IH.
  simpl. now rewrite IH.
Qed.

(** A header that was not sent, in any letter case, reads as [null]. *)
Lemma header_absent (entries : list (string * string)) (name : string) :
  (forall n v, In (n, v) entries -> lowercase n <> lowercase name) ->
  header entries name = None.
Proof.
  intros Hnone. unfold header.
  replace (filter (fun entry => (lowercase (fst entry) =? lowercase name)%string) entries)
    with (@nil (string * string)); [reflexivity |].
  symmetry. induction entries as [| [n v] rest IH]; [reflexivity |].
  cbn [filter fst].
  destruct (String.eqb_spec (lowercase n) (lowercase name)) as [Heq | _].
  - exfalso. apply (Hnone n v); [now left | exact Heq].
  - apply IH. intros n' v' Hin. apply (Hnone n' v'). now right.
Qed.

(** A request that passes validation has a body that can be read. *)
Lemma valid_readable (request : Request.t) :
  POST_valid request -> ~ unreadable request.
Proof.
  intros [Hm _] Hunread. unfold Request.body in Hm.
  destruct (Request.json request) as [e | | body] eqn:Hjson; try discriminate Hm.
  now apply (Hunread body).
Qed.

(* ================================================================== *)
(** * The claims *)

Section Claims.

Variable env : oracle.

(** C2.  When an upload of the image batch fails during a [POST] or a
    [PATCH], the history splits at the failed upload: the images uploaded
    before it are those of the batch positions before the failing one, the
    calls after it are exactly one [deleteImage] for each of them, in
    upload order (a deletion that fails is logged and passed over), so that
    when these deletions resolve none of the images uploaded by the request
    stays on the image host; the handler answers 500, and no call of the
    request writes to the stored reports (nothing is created or updated). *)
Theorem upload_failure_is_rolled_back (request : Request.t) (id : string)
    (c : completion Empty_set) (tr : list event) (image : value) (e : Error) :
  handle env (POST request) = (c, tr) \/ handle env (PATCH request id) = (c, tr) ->
  In (Ev (uploadImage image) (Failed e)) tr ->
  exists before after sent rest,
    tr = (before ++ Ev (uploadImage image) (Failed e) :: after)%list
    /\ nonempty_items (Body.newImages (Request.body request))
       = (sent ++ image :: rest)%list
    /\ List.length (uploads before) = List.length sent
    /\ map ev_call after = map delete_call (uploads before)
    /\ (all_resolved after -> hosted tr [] = [])
    /\ (exists response, c = Returned response /\ status response = 500)
    /\ no_write tr.
Proof.
  intros [H | H] Hin.
  - apply POST_runs in H.
    destruct H as [e0 | Hm | Hm Hc | e0 Hv Hg
                   | finalLocation geo items response ups Hv Hloc Hitems Hup
                   | finalLocation uploadedImages tr Hdone Hstr
                   | finalLocation uploadedImages tr t d e0 Hdone Ht Hd
                   | finalLocation uploadedImages tr t d saved Hdone Ht Hd
                 | Hunread];
      try (simpl in Hin; intuition discriminate).
    + rewrite Hitems. simpl nonempty_items.
      destruct (@upload_failure_shape (connected :: geo) ups items response image e)
        as (before & after & sent & rest & Htr & Hsplit & Hlen & Hcalls & ->
            & Hhost);
        auto.
      * intros image' e' [Hin' | Hin']; [discriminate |].
        eapply located_no_failure; eassumption.
      * simpl. eapply located_uploads; eassumption.
      * exists before, after, sent, rest. repeat split; auto.
        -- now eexists.
        -- constructor; [reflexivity |]. apply external_no_write.
           apply Forall_app. split.
           ++ eapply located_external; eassumption.
           ++ eapply upload_run_external; eassumption.
    + apply POST_uploaded_facts in Hdone.
      destruct Hdone as (_ & Hnone & _). now apply Hnone in Hin.
    + apply POST_uploaded_facts in Hdone.
      destruct Hdone as (_ & Hnone & _).
      apply in_app_or in Hin. destruct Hin as [Hin | [Hin | []]];
        [now apply Hnone in Hin | discriminate].
    + apply POST_uploaded_facts in Hdone.
      destruct Hdone as (_ & Hnone & _).
      apply in_app_or in Hin. destruct Hin as [Hin | [Hin | []]];
        [now apply Hnone in Hin | discriminate].
  - apply PATCH_runs in H.
    destruct H as [e0 | Hid | Hid Hauth | e0 Hid Hauth | Hid Hauth
                   | currentReport Hid Hauth Hnone
                   | currentReport u Hid Hauth Hu Hneq
                   | currentReport Hadm Hcat
                   | currentReport e0 Hadm Hcat Hg
                   | currentReport finalLocation geo dels response ups
                       Hadm Hcat Hloc Hdels Hdcalls Hup
                   | currentReport finalLocation uploadedNewImages tr e0 Hdone
                   | currentReport finalLocation uploadedNewImages tr Hdone
                   | currentReport finalLocation uploadedNewImages tr updatedReport
                       Hdone Hnone
                   | currentReport finalLocation uploadedNewImages tr updatedReport
                       formatted Hdone Hfmt
                 | Hvalid_id Hunread];
      try (simpl in Hin; intuition discriminate).
    + destruct (@upload_failure_shape
                  (connected :: found id (Some currentReport) :: geo ++ dels)
                  ups _ response image e Hup)
        as (before & after & sent & rest & Htr & Hsplit & Hlen & Hcalls & ->
            & Hhost);
        auto.
      * intros image' e' [Hin' | [Hin' | Hin']]; try discriminate.
        apply in_app_or in Hin'. destruct Hin' as [Hin' | Hin'].
        -- eapply located_no_failure; eassumption.
        -- eapply deletion_no_failure; eassumption.
      * simpl. rewrite uploads_app, (located_uploads Hloc).
        now rewrite (uploads_deletions Hdels).
      * simpl. now rewrite <- app_assoc.
      * exists before, after, sent, rest. repeat split; auto.
        -- rewrite <- Htr. simpl. now rewrite <- app_assoc.
        -- intros Hres. specialize (Hhost Hres). simpl in Hhost |- *.
           now rewrite <- !app_assoc in Hhost.
        -- now eexists.
        -- constructor; [reflexivity |]. constructor; [reflexivity |].
           apply external_no_write.
           apply Forall_app. split; [eapply located_external; eassumption |].
           apply Forall_app. split; [now apply deletion_external |].
           eapply upload_run_external; eassumption.
    + apply PATCH_uploaded_facts in Hdone. destruct Hdone as (_ & Hnone & _).
      apply in_app_or in Hin. destruct Hin as [Hin | [Hin | []]];
        [now apply Hnone in Hin | discriminate].
    + apply PATCH_uploaded_facts in Hdone. destruct Hdone as (_ & Hnone & _).
      apply in_app_or in Hin. destruct Hin as [Hin | [Hin | []]];
        [now apply Hnone in Hin | discriminate].
    + apply PATCH_uploaded_facts in Hdone. destruct Hdone as (_ & Hnone' & _).
      apply in_app_or in Hin. destruct Hin as [Hin | [Hin | []]];
        [now apply Hnone' in Hin | discriminate].
    + apply PATCH_uploaded_facts in Hdone. destruct Hdone as (_ & Hnone & _).
      apply in_app_or in Hin. destruct Hin as [Hin | [Hin | []]];
        [now apply Hnone in Hin | discriminate].
Qed.

(** X21.  When the lookup of a [PATCH] request finds a report whose owner
    is known and the caller is not that owner, the handler answers 403 and
    the request made two calls only, the connection and that lookup:
    nothing is written to the stored reports and neither the geocoder nor
    the image host is called. *)
Theorem PATCH_by_non_owner_is_refused (request : Request.t) (id : string)
    (c : completion Empty_set) (tr : list event)
    (currentReport : Report.t) (u : User) :
  handle env (PATCH request id) = (c, tr) ->
  In (found id (Some currentReport)) tr ->
  Report.createdBy currentReport = Some u ->
  user_id u <> request_userId request ->
  (exists response, c = Returned response /\ status response = 403)
  /\ tr = [connected; found id (Some currentReport)]
  /\ no_write tr
  /\ Forall (fun e => is_external (ev_call e) = false) tr.
Proof.
  intros H Hin Hu Hneq.
  assert (Hshape : forall report rest,
             PATCH_admitted request id report ->
             ~ In (found id (Some currentReport)) rest ->
             tr = connected :: found id (Some report) :: rest -> False).
  { intros report rest Hadm Hrest ->.
    apply found_once in Hin; [subst report | exact Hrest].
    apply Hneq. eapply admitted_owner; eassumption. }
  assert (Hlast : forall report finalLocation uploadedNewImages tr0 patch r,
             PATCH_uploaded request id report finalLocation uploadedNewImages tr0 ->
             tr = (tr0 ++ [Ev (updateReport id patch) r])%list -> False).
  { intros report finalLocation uploadedNewImages tr0 patch r Hdone Htr.
    pose proof Hdone as (Hadm & _).
    apply PATCH_uploaded_facts in Hdone.
    destruct Hdone as ((rest & -> & Hrest) & _).
    eapply (Hshape report (rest ++ [Ev (updateReport id patch) r])%list);
      [exact Hadm | | exact Htr].
    intros Hin'. apply in_app_or in Hin'. destruct Hin' as [Hin' | [Hin' | []]];
      [now apply external_not_found in Hin' | discriminate]. }
  apply PATCH_runs in H.
  destruct H as [e0 | Hid | Hid Hauth | e0 Hid Hauth | Hid Hauth
                 | report Hid Hauth Hnone
                 | report u' Hid Hauth Hu' Hneq'
                 | report Hadm Hcat
                 | report e0 Hadm Hcat Hg
                 | report finalLocation geo dels response ups
                     Hadm Hcat Hloc Hdels Hdcalls Hup
                 | report finalLocation uploadedNewImages tr e0 Hdone
                 | report finalLocation uploadedNewImages tr Hdone
                 | report finalLocation uploadedNewImages tr updatedReport
                     Hdone Hnone
                 | report finalLocation uploadedNewImages tr updatedReport
                     formatted Hdone Hfmt
                 | Hvalid_id Hunread];
    try (unfold found, connected in Hin; simpl in Hin; intuition discriminate);
    try (exfalso; eapply Hlast; [exact Hdone | reflexivity]).
  - apply found_once in Hin; [| now intros []]. congruence.
  - apply found_once in Hin; [subst report | now intros []].
    split; [now eexists |]. repeat split; repeat constructor.
  - exfalso. eapply Hshape; [exact Hadm | | reflexivity]. now intros [].
  - exfalso. eapply Hshape; [exact Hadm | | reflexivity].
    intros [Hin' | []]. discriminate.
  - exfalso. eapply Hshape; [exact Hadm | | reflexivity].
    apply external_not_found.
    apply Forall_app. split; [eapply located_external; eassumption |].
    apply Forall_app. split; [now apply deletion_external |].
    eapply upload_run_external; eassumption.
Qed.

(** C5, as amended.  A [POST] request that passes validation, whose title
    and description are strings and whose batch holds at least one image,
    in a run where every call resolves and the data-access layer returns
    the saved entity of what it was given, is answered with 201 and a report
    whose [imageUrl] is the [secure_url] that the image host returned for
    the first image of the batch, which is the first upload of the
    request. *)
Theorem POST_answers_first_image_url (request : Request.t)
    (c : completion Empty_set) (tr : list event) (t d : string)
    (image : value) (images : list value) :
  handle env (POST request) = (c, tr) ->
  POST_valid request ->
  Body.title (Request.body request) = VStr t ->
  Body.description (Request.body request) = VStr d ->
  Body.newImages (Request.body request) = CArr (image :: images) ->
  all_resolved tr ->
  (forall data saved,
      In (Ev (createReport data) (Saved saved)) tr -> saved_entity data saved) ->
  exists report first others pre post,
    c = Returned (json (CreatedBody report) 201)
    /\ tr = (pre ++ Ev (uploadImage image) (Uploaded first) :: post)%list
    /\ Forall (fun e => forall x, ev_call e <> uploadImage x) pre
    /\ uploaded tr = first :: others
    /\ List.length (uploaded tr) = List.length (image :: images)
    /\ Created.imageUrl report = secure_url first.
Proof.
  intros H Hvalid Ht Hd Himages Hres Hdal.
  apply POST_runs in H.
  destruct H as [e0 | Hm' | Hm' Hc' | e0 Hv Hg
                 | finalLocation geo items response ups Hv Hloc Hitems Hup
                 | finalLocation uploadedImages tr Hdone Hstr
                 | finalLocation uploadedImages tr t' d' e0 Hdone Ht' Hd'
                 | finalLocation uploadedImages tr t' d' saved Hdone Ht' Hd'
                 | Hunread];
    try (destruct Hvalid; congruence).
  - inversion Hres as [| ? ? Hr _]. discriminate Hr.
  - inversion Hres as [| ? ? _ Hres']. inversion Hres' as [| ? ? Hr _].
    discriminate Hr.
  - exfalso. apply upload_run_returned in Hup.
    destruct Hup as (sent & image' & rest & ups' & e' & dels & _ & -> & _).
    inversion Hres as [| ? ? _ Hres']. apply Forall_app in Hres'.
    destruct Hres' as [_ Hres']. apply Forall_app in Hres'.
    destruct Hres' as [_ Hres']. inversion Hres' as [| ? ? Hr _].
    discriminate Hr.
  - exfalso. now apply (Hstr t d).
  - exfalso. apply Forall_app in Hres. destruct Hres as [_ Hres].
    inversion Hres as [| ? ? Hr _]. discriminate Hr.
  - assert (Hsaved : saved_entity
                       (report_data (trim t') (trim d')
                          (Body.category (Request.body request)) finalLocation
                          uploadedImages (POST_userId request)) saved).
    { apply Hdal. apply in_or_app. right. now left. }
    destruct Hsaved as (_ & _ & _ & _ & Hurl & _).
    destruct Hdone as (_ & geo & items & ups & -> & Hloc & Hitems & Hup).
    rewrite Himages in Hitems. injection Hitems as <-.
    inversion Hup as [ups0 Hups Hcalls Himgs Hups0 |]; subst ups0.
    destruct ups as [| [call reply] ups']; [discriminate Hcalls |].
    simpl in Hcalls. injection Hcalls as -> Hcalls.
    inversion Hups as [| ? ? Hfirst Hups']; subst.
    destruct reply as [| | first | | | | | | |]; try contradiction.
    exists (created saved), first, (uploaded ups'), (connected :: geo),
      (ups' ++ [Ev (createReport
                      (report_data (trim t') (trim d')
                         (Body.category (Request.body request)) finalLocation
                         (stored_image first :: uploads ups')
                         (POST_userId request))) (Saved saved)])%list.
    assert (Hgeo : uploaded geo = []) by (inversion Hloc; reflexivity).
    assert (Hlen : List.length (uploaded ups') = List.length images).
    { rewrite <- (length_map uploadImage images), <- Hcalls, length_map.
      clear - Hups'. induction Hups' as [| [[] []] l Hx _ IH]; simpl in *;
        try contradiction; auto. }
    split; [reflexivity |].
    split; [simpl; now rewrite <- !app_assoc |].
    split.
    { constructor; [discriminate |].
      inversion Hloc; repeat constructor; discriminate. }
    split; [| split].
    + simpl. rewrite !uploaded_app, Hgeo. simpl. now rewrite app_nil_r.
    + simpl. rewrite !uploaded_app, Hgeo. simpl.
      now rewrite app_nil_r, Hlen.
    + simpl. rewrite Hurl. simpl. apply or_default_empty.
  - exfalso. now apply (valid_readable Hvalid).
Qed.

(** C10.  A [POST] request answered with 201 had a string title and a
    string description, and its last call, the only write of the request,
    hands [createReport] the title and the description with their leading
    and trailing white space removed.  In particular a title made of white
    space only passed the required-field test (it is a non-empty string)
    and is handed over as the empty string. *)
Theorem POST_persists_trimmed_text (request : Request.t)
    (c : completion Empty_set) (tr : list event) (response : Response) :
  handle env (POST request) = (c, tr) ->
  c = Returned response ->
  status response = 201 ->
  exists t d data saved tr0,
    Body.title (Request.body request) = VStr t
    /\ Body.description (Request.body request) = VStr d
    /\ tr = (tr0 ++ [Ev (createReport data) (Saved saved)])%list
    /\ no_write tr0
    /\ ReportData.title data = trim t
    /\ ReportData.description data = trim d
    /\ trimmed t (trim t)
    /\ trimmed d (trim d)
    /\ truthy (VStr t) = true
    /\ (all_whitespace t = true -> ReportData.title data = "").
Proof.
  intros H -> Hstatus.
  apply POST_runs in H.
  inversion H as [e0 | Hm | Hm Hc | e0 Hv Hg
                 | finalLocation geo items response' ups Hv Hloc Hitems Hup
                 | finalLocation uploadedImages tr' Hdone Hstr
                 | finalLocation uploadedImages tr' t d e0 Hdone Ht Hd
                 | finalLocation uploadedImages tr' t d saved Hdone Ht Hd
                 | Hunread];
    subst; try discriminate Hstatus.
  - apply upload_run_returned in Hup.
    destruct Hup as (? & ? & ? & ? & e' & ? & _ & _ & -> & _).
    discriminate Hstatus.
  - pose proof Hdone as ((Hm & _) & _).
    apply required_present in Hm. destruct Hm as (Htruthy & _).
    rewrite Ht in Htruthy.
    apply POST_uploaded_facts in Hdone.
    destruct Hdone as ((rest & -> & Hrest) & _).
    eexists t, d, _, saved, _.
    repeat split; try reflexivity; auto using trim_trimmed.
    + constructor; [reflexivity | now apply external_no_write].
    + simpl. apply trim_whitespace.
Qed.

(** C8, as amended.  For a request without a [user-id] header, in whatever
    letter case: once the database connection is established, [PATCH]
    answers 401 when the identifier passes its check and the body parses to
    a JSON value other than [null], and [DELETE] answers 401 when the
    identifier is not empty, both without any further call; [POST] never
    answers 401, and whenever it calls [createReport] the creator it
    records is the fixed stand-in identity. *)
Theorem missing_user_id_header (request : Request.t) (id : string) :
  (forall name value,
      In (name, value) (Request.headers request) -> lowercase name <> "user-id") ->
  (env [] connectToDatabase = Resolved tt ->
   invalid_id id = false ->
   (exists body, Request.json request = Json body) ->
   handle env (PATCH request id) = (Returned authentication_required, [connected]))
  /\ (env [] connectToDatabase = Resolved tt ->
      id <> "" ->
      handle env (DELETE request id) = (Returned authentication_required, [connected]))
  /\ status authentication_required = 401
  /\ (forall c tr,
        handle env (POST request) = (c, tr) ->
        (exists response, c = Returned response /\ status response <> 401)
        /\ (forall data r,
              In (Ev (createReport data) r) tr ->
              ReportData.createdBy data = "000000000000000000000001")).
Proof.
  intros Hnone.
  assert (Hheader : header (Request.headers request) "user-id" = None).
  { apply header_absent. exact Hnone. }
  assert (Huser : request_userId request = "placeholder-user-id").
  { unfold request_userId. now rewrite Hheader. }
  assert (Hstandin : POST_userId request = "000000000000000000000001").
  { unfold POST_userId. now rewrite Hheader. }
  split; [| split; [| split]].
  - intros Hconn Hid [body Hbody]. unfold handle, PATCH.
    rewrite run_try_catch, run_bind, run_await, Hconn. simpl.
    unfold read_json. rewrite Hid, Hbody. simpl. now rewrite Huser.
  - intros Hconn Hid. unfold handle, DELETE.
    rewrite run_try_catch, run_bind, run_await, Hconn. simpl.
    apply String.eqb_neq in Hid. now rewrite Hid, Huser.
  - reflexivity.
  - intros c tr H. apply POST_runs in H.
    inversion H as [e0 | Hm | Hm Hc | e0 Hv Hg
                   | finalLocation geo items response' ups Hv Hloc Hitems Hup
                   | finalLocation uploadedImages tr' Hdone Hstr
                   | finalLocation uploadedImages tr' t d e0 Hdone Ht Hd
                   | finalLocation uploadedImages tr' t d saved Hdone Ht Hd
                 | Hunread];
      subst;
      (split; [eexists; split; [reflexivity | try discriminate] |]);
      try (intros data r Hin; simpl in Hin; intuition discriminate).
    + apply upload_run_returned in Hup.
      destruct Hup as (? & ? & ? & ? & e' & ? & _ & _ & -> & _).
      discriminate.
    + intros data r [Hin | Hin]; [discriminate |].
      exfalso. revert Hin. apply external_not_created.
      apply Forall_app. split; [eapply located_external; eassumption |].
      eapply upload_run_external; eassumption.
    + apply POST_uploaded_facts in Hdone.
      destruct Hdone as ((rest & -> & Hrest) & _).
      intros data r [Hin | Hin]; [discriminate |].
      exfalso. revert Hin. now apply external_not_created.
    + apply POST_uploaded_facts in Hdone.
      destruct Hdone as ((rest & -> & Hrest) & _).
      intros data r Hin. apply in_app_or in Hin.
      destruct Hin as [[Hin | Hin] | [Hin | []]]; try discriminate.
      * exfalso. revert Hin. now apply external_not_created.
      * injection Hin as <- _. exact Hstandin.
    + apply POST_uploaded_facts in Hdone.
      destruct Hdone as ((rest & -> & Hrest) & _).
      intros data r Hin. apply in_app_or in Hin.
      destruct Hin as [[Hin | Hin] | [Hin | []]]; try discriminate.
      * exfalso. revert Hin. now apply external_not_created.
      * injection Hin as <- _. exact Hstandin.
Qed.

(** C9.  For a [PATCH] request whose body carries the category [""]:
    the empty string is not one of the three categories, the handler never
    answers with the invalid-category error, every [updateReport] call of
    the request carries the key [category] with the empty string, which
    the field merge then stores, and when the caller owns the report found
    and every call resolves, that call is made. *)
Theorem PATCH_merges_empty_category (request : Request.t) (id : string)
    (c : completion Empty_set) (tr : list event) :
  Body.category (Request.body request) = VStr "" ->
  handle env (PATCH request id) = (c, tr) ->
  includes validCategories (VStr "") = false
  /\ c <> Returned (json (ErrorBody invalid_category) 400)
  /\ (forall id' patch r,
        In (Ev (updateReport id' patch) r) tr ->
        UpdateData.category patch = Some (VStr "")
        /\ forall stored, Report.category (apply_update stored patch) = VStr "")
  /\ (forall currentReport u,
        In (found id (Some currentReport)) tr ->
        Report.createdBy currentReport = Some u ->
        user_id u = request_userId request ->
        all_resolved tr ->
        exists tr0 patch r, tr = (tr0 ++ [Ev (updateReport id patch) r])%list).
Proof.
  intros Hcategory H.
  split; [reflexivity |].
  assert (Hpatch : forall finalLocation uploadedNewImages,
             UpdateData.category
               (update_data (Request.body request) finalLocation uploadedNewImages)
             = Some (VStr "")).
  { intros. simpl. now rewrite Hcategory. }
  assert (Hlast : forall report finalLocation uploadedNewImages tr0 r0,
             PATCH_uploaded request id report finalLocation uploadedNewImages tr0 ->
             forall id' patch r,
               In (Ev (updateReport id' patch) r)
                  (tr0 ++ [Ev (updateReport id
                                 (update_data (Request.body request) finalLocation
                                    uploadedNewImages)) r0]) ->
               UpdateData.category patch = Some (VStr "")
               /\ forall stored, Report.category (apply_update stored patch) = VStr "").
  { intros report finalLocation uploadedNewImages tr0 r0 Hdone id' patch r Hin.
    apply PATCH_uploaded_facts in Hdone.
    destruct Hdone as ((rest & -> & Hrest) & _).
    apply in_app_or in Hin.
    destruct Hin as [[Hin | [Hin | Hin]] | [Hin | []]]; try discriminate.
    - exfalso. revert Hin. now apply external_not_updated.
    - injection Hin as _ <- _. split; [apply Hpatch |].
      intros stored. simpl. now rewrite Hcategory. }
  apply PATCH_runs in H.
  inversion H as [e0 | Hid | Hid Hauth | e0 Hid Hauth | Hid Hauth
                 | report Hid Hauth Hnone
                 | report u' Hid Hauth Hu' Hneq'
                 | report Hadm Hcat
                 | report e0 Hadm Hcat Hg
                 | report finalLocation geo dels response ups
                     Hadm Hcat Hloc Hdels Hdcalls Hup
                 | report finalLocation uploadedNewImages tr' e0 Hdone
                 | report finalLocation uploadedNewImages tr' Hdone
                 | report finalLocation uploadedNewImages tr' updatedReport
                     Hdone Hnone
                 | report finalLocation uploadedNewImages tr' updatedReport
                     formatted Hdone Hfmt
                 | Hvalid_id Hunread];
    subst; try (rewrite Hcategory in Hcat; discriminate Hcat).
  all: split; [try discriminate |].
  all: try (split; [intros id' patch r Hin; simpl in Hin; intuition discriminate |]).
  all: try (split; [now apply (Hlast _ _ _ _ _ Hdone) |]).
  all: try (intros currentReport u Hin Hu Hown Hres; now eexists _, _, _).
  all: try (intros currentReport u Hin Hu Hown Hres; exfalso;
            unfold found, connected in Hin; simpl in Hin; intuition discriminate).
  - intros currentReport u Hin Hu Hown Hres. exfalso.
    apply found_once in Hin; [| now intros []]. congruence.
  - intros currentReport u Hin Hu Hown Hres. exfalso.
    apply found_once in Hin; [| now intros []]. congruence.
  - intros currentReport u Hin Hu Hown Hres. exfalso.
    inversion Hres as [| ? ? _ Hres1]. inversion Hres1 as [| ? ? _ Hres2].
    inversion Hres2 as [| ? ? Hr _]. discriminate Hr.
  - apply upload_run_returned in Hup.
    destruct Hup as (? & ? & ? & ? & e' & ? & _ & _ & -> & _).
    discriminate.
  - split.
    + intros id' patch r [Hin | [Hin | Hin]]; try discriminate.
      exfalso. revert Hin. apply external_not_updated.
      apply Forall_app. split; [eapply located_external; eassumption |].
      apply Forall_app. split; [now apply deletion_external |].
      eapply upload_run_external; eassumption.
    + intros currentReport u Hin Hu Hown Hres. exfalso.
      apply upload_run_returned in Hup.
      destruct Hup as (? & ? & ? & ? & e' & ? & _ & -> & _).
      inversion Hres as [| ? ? _ Hres1]. inversion Hres1 as [| ? ? _ Hres2].
      apply Forall_app in Hres2. destruct Hres2 as [_ Hres2].
      apply Forall_app in Hres2. destruct Hres2 as [_ Hres2].
      apply Forall_app in Hres2. destruct Hres2 as [_ Hres2].
      inversion Hres2 as [| ? ? Hr _]. discriminate Hr.
Qed.

(** C6.  A [PATCH] request answered with 200 made exactly one write, its
    last call [updateReport]; the patch it hands over carries [title],
    [description], [category] and [imagesToDelete] exactly when the body
    has them, [location] only when the body has a location or an address,
    and [newImages] only when the body has a non-empty batch.  The field
    merge of the data-access layer therefore keeps every stored field whose
    key the body does not have; a body with a description only leaves the
    stored title, category and images as they are. *)
Theorem PATCH_merges_present_fields (request : Request.t) (id : string)
    (c : completion Empty_set) (tr : list event) (response : Response) :
  handle env (PATCH request id) = (c, tr) ->
  c = Returned response ->
  status response = 200 ->
  let body := Request.body request in
  exists tr0 patch updatedReport,
    tr = (tr0 ++ [Ev (updateReport id patch) (Updated (Some updatedReport))])%list
    /\ no_write tr0
    /\ UpdateData.title patch = defined (Body.title body)
    /\ UpdateData.description patch = defined (Body.description body)
    /\ UpdateData.category patch = defined (Body.category body)
    /\ UpdateData.imagesToDelete patch = defined_coll (Body.imagesToDelete body)
    /\ (UpdateData.location patch <> None ->
        Body.location body <> VUndefined \/ truthy (Body.address body) = true)
    /\ (UpdateData.newImages patch <> None ->
        nonempty_items (Body.newImages body) <> [])
    /\ (forall stored,
          (Body.title body = VUndefined ->
           Report.title (apply_update stored patch) = Report.title stored)
          /\ (Body.description body = VUndefined ->
              Report.description (apply_update stored patch)
              = Report.description stored)
          /\ (Body.category body = VUndefined ->
              Report.category (apply_update stored patch) = Report.category stored)
          /\ (Body.location body = VUndefined ->
              truthy (Body.address body) = false ->
              Report.location (apply_update stored patch) = Report.location stored)
          /\ (Body.imagesToDelete body = CUndefined ->
              nonempty_items (Body.newImages body) = [] ->
              Report.images (apply_update stored patch) = Report.images stored)).
Proof.
  intros H -> Hstatus body.
  apply PATCH_runs in H.
  inversion H as [e0 | Hid | Hid Hauth | e0 Hid Hauth | Hid Hauth
                 | report Hid Hauth Hnone
                 | report u' Hid Hauth Hu' Hneq'
                 | report Hadm Hcat
                 | report e0 Hadm Hcat Hg
                 | report finalLocation geo dels response' ups
                     Hadm Hcat Hloc Hdels Hdcalls Hup
                 | report finalLocation uploadedNewImages tr' e0 Hdone
                 | report finalLocation uploadedNewImages tr' Hdone
                 | report finalLocation uploadedNewImages tr' updatedReport
                     Hdone Hnone
                 | report finalLocation uploadedNewImages tr' updatedReport
                     formatted Hdone Hfmt
                 | Hvalid_id Hunread];
    subst; try discriminate Hstatus.
  - apply upload_run_returned in Hup.
    destruct Hup as (? & ? & ? & ? & e' & ? & _ & _ & -> & _).
    discriminate Hstatus.
  - pose proof Hdone as (_ & _ & geo & dels & ups & _ & Hloc & _ & _ & Hup).
    apply upload_run_normal in Hup. destruct Hup as (Hups & Huploaded & Hlen).
    apply PATCH_uploaded_facts in Hdone.
    destruct Hdone as ((rest & -> & Hrest) & _ & _ & Hcount).
    fold body in Hloc, Hlen, Hcount |- *.
    assert (Hlocation : defined finalLocation <> None ->
                        Body.location body <> VUndefined
                        \/ truthy (Body.address body) = true).
    { intros Hdef. inversion Hloc as [Hgiven | coords Hgeo |]; subst.
      - left. intros Hundef. apply Hdef. now apply defined_undefined.
      - right. apply andb_true_iff in Hgeo. tauto. }
    assert (Hkept : Body.location body = VUndefined ->
                    truthy (Body.address body) = false ->
                    defined finalLocation = None).
    { intros Hundef Haddress. inversion Hloc as [Hgiven | coords Hgeo |]; subst.
      - now apply defined_undefined.
      - rewrite Haddress in Hgeo. discriminate Hgeo. }
    assert (Hnone : nonempty_items (Body.newImages body) = [] ->
                    uploadedNewImages = []).
    { intros Hempty. rewrite Hempty in Hcount.
      now destruct uploadedNewImages. }
    exists (connected :: found id (Some report) :: rest),
      (update_data body finalLocation uploadedNewImages), updatedReport.
    split; [reflexivity |].
    split; [constructor; [reflexivity |]; constructor; [reflexivity |];
            now apply external_no_write |].
    do 4 (split; [reflexivity |]).
    split; [exact Hlocation |].
    split.
    { simpl. intros Hnew Hempty. rewrite (Hnone Hempty) in Hnew.
      now apply Hnew. }
    intros stored.
    destruct (apply_update_frame stored
                (update_data body finalLocation uploadedNewImages))
      as (Ftitle & Fdescription & Fcategory & Flocation & Fimages).
    repeat split.
    + intros Hundef. apply Ftitle. simpl. now rewrite Hundef.
    + intros Hundef. apply Fdescription. simpl. now rewrite Hundef.
    + intros Hundef. apply Fcategory. simpl. now rewrite Hundef.
    + intros Hundef Haddress. apply Flocation. simpl. now apply Hkept.
    + intros Hundef Hempty. apply Fimages; simpl.
      * now rewrite Hundef.
      * now rewrite (Hnone Hempty).
Qed.



(** [GET] and [PATCH] turn away the identifiers [""], ["undefined"] and
    ["null"] before any call on the stored reports; [DELETE] does so for
    the empty identifier. *)
Lemma invalid_id_is_rejected (request : Request.t) (id : string) :
  env [] connectToDatabase = Resolved tt ->
  (invalid_id id = true ->
   handle env (GET request id) = (Returned invalid_report_id, [connected])
   /\ handle env (PATCH request id) = (Returned invalid_report_id, [connected]))
  /\ (id = "" ->
      handle env (DELETE request id) = (Returned invalid_report_id, [connected])).
Proof.
  intros Hconn. split.
  - intros Hid. split; unfold handle, GET, PATCH;
      rewrite run_try_catch, run_bind, run_await, Hconn; simpl;
      now rewrite Hid.
  - intros ->. unfold handle, DELETE.
    now rewrite run_try_catch, run_bind, run_await, Hconn.
Qed.

(** A create request whose body lacks a required field (a falsy title,
    description or category, an absent or [null] batch, or neither location
    nor address) is answered 400 before any other call. *)
Lemma POST_missing_field_is_rejected (request : Request.t) (body : Body.t) :
  env [] connectToDatabase = Resolved tt ->
  Request.json request = Json body ->
  required_missing body = true ->
  handle env (POST request)
  = (Returned (json (ErrorBody missing_fields) 400), [connected]).
Proof.
  intros Hconn Hbody Hmissing. unfold handle, POST.
  rewrite run_try_catch, run_bind, run_await, Hconn. simpl.
  unfold read_json. rewrite Hbody. simpl. now rewrite Hmissing.
Qed.

End Claims.

(* ================================================================== *)
(** * Runs on the sample deployment *)

(** C1.  A create request with an empty [newImages] array passes the
    required-field test, since an empty array is truthy: the handler uploads
    nothing, hands [createReport] a report with no image and an empty
    [imageUrl], and answers 201. *)
Theorem POST_accepts_empty_image_batch :
  Body.newImages (Request.body Sample.create_none) = CArr []
  /\ required_missing (Request.body Sample.create_none) = false
  /\ exists data saved,
       handle Sample.env (POST Sample.create_none)
       = (Returned (json (CreatedBody (created saved)) 201),
          [connected; Ev (createReport data) (Saved saved)])
       /\ ReportData.images data = []
       /\ ReportData.imageUrl data = ""
       /\ Report.images saved = Some [].
Proof.
  split; [reflexivity |]. split; [reflexivity |].
  eexists _, _. split; [reflexivity |]. repeat split.
Qed.

(** C3.  [DELETE] checks the identifier for emptiness only.  With the
    identifier ["undefined"] and an identified caller it goes on to look the
    report up; with ["null"] and no [user-id] header it answers 401.  Neither
    request is answered 400. *)
Theorem DELETE_takes_undefined_and_null :
  invalid_id "undefined" = true
  /\ invalid_id "null" = true
  /\ handle Sample.env (DELETE (Sample.by_owner Sample.no_body) "undefined")
     = (Returned report_not_found, [connected; found "undefined" None])
  /\ touches_reports (getReportById "undefined" None) = true
  /\ handle Sample.env (DELETE Sample.anonymous "null")
     = (Returned authentication_required, [connected])
  /\ status report_not_found = 404
  /\ status authentication_required = 401.
Proof. repeat split. Qed.


(** C8, counterexample.  A [PATCH] without a [user-id] header on the
    identifier ["undefined"] is answered 400, not 401; and one without a
    body is answered 500, not 401, whatever the identifier. *)
Lemma PATCH_without_header_on_undefined :
  Request.headers Sample.anonymous = []
  /\ handle Sample.env (PATCH Sample.anonymous "undefined")
     = (Returned invalid_report_id, [connected])
  /\ status invalid_report_id = 400
  /\ Request.headers Cases.bodyless = []
  /\ handle Sample.env (PATCH Cases.bodyless (Report._id Sample.stored))
     = (Returned internal_error, [connected])
  /\ status internal_error = 500.
Proof. repeat split. Qed.

(** C5, counterexample.  A create request with a number as title passes
    validation and holds one image, and every call of its run resolves, the
    upload included; yet it is answered 500, not 201: [title.trim] is not a
    function. *)
Lemma POST_with_numeric_title_is_answered_500 :
  POST_valid Cases.create_numbered
  /\ Body.newImages (Request.body Cases.create_numbered) = CArr [VStr "a.jpg"]
  /\ all_resolved (snd (handle Sample.env (POST Cases.create_numbered)))
  /\ uploaded (snd (handle Sample.env (POST Cases.create_numbered)))
     = [{| secure_url := "https://img.example/a.jpg"; public_id := "reports/a.jpg" |}]
  /\ fst (handle Sample.env (POST Cases.create_numbered)) = Returned internal_error
  /\ status internal_error = 500.
Proof.
  split; [split; reflexivity |]. split; [reflexivity |].
  split; [vm_compute; repeat constructor |]. repeat split.
Qed.

(** C4.  An identified caller sends a [PATCH] for a stored report whose
    owner did not populate; the caller is not its owner, yet the answer
    is 500, not 403: reading [createdBy._id] throws.  Nothing is changed and
    no external call is made. *)
Theorem PATCH_by_non_owner_of_ownerless_report :
  Report.createdBy Cases.ownerless = None
  /\ request_userId (Sample.by_stranger Sample.describe) = "64b000000000000000000099"
  /\ handle (Cases.env true true Cases.ownerless)
       (PATCH (Sample.by_stranger Sample.describe) (Report._id Cases.ownerless))
     = (Returned internal_error,
        [connected; found (Report._id Cases.ownerless) (Some Cases.ownerless)])
  /\ status internal_error = 500
  /\ status (forbidden "edit") = 403.
Proof. repeat split. Qed.

(** *** The theorems at work *)

Lemma upload_failure_is_rolled_back_witness :
  In (Ev (uploadImage (VStr "corrupt")) (Failed {| message := "Invalid image file" |}))
     (snd (handle Sample.env (POST Sample.create_corrupt)))
  /\ exists before after sent rest,
       snd (handle Sample.env (POST Sample.create_corrupt))
       = (before
          ++ Ev (uploadImage (VStr "corrupt")) (Failed {| message := "Invalid image file" |})
          :: after)%list
       /\ nonempty_items (Body.newImages (Request.body Sample.create_corrupt))
          = (sent ++ VStr "corrupt" :: rest)%list
       /\ List.length (uploads before) = List.length sent
       /\ map ev_call after = map delete_call (uploads before)
       /\ (all_resolved after
           -> hosted (snd (handle Sample.env (POST Sample.create_corrupt))) [] = [])
       /\ (exists response,
             fst (handle Sample.env (POST Sample.create_corrupt)) = Returned response
             /\ status response = 500)
       /\ no_write (snd (handle Sample.env (POST Sample.create_corrupt))).
Proof.
  assert (Hin : In (Ev (uploadImage (VStr "corrupt"))
                      (Failed {| message := "Invalid image file" |}))
                   (snd (handle Sample.env (POST Sample.create_corrupt)))).
  { vm_compute. tauto. }
  split; [exact Hin |].
  apply (@upload_failure_is_rolled_back Sample.env Sample.create_corrupt ""
           (fst (handle Sample.env (POST Sample.create_corrupt)))
           (snd (handle Sample.env (POST Sample.create_corrupt)))
           (VStr "corrupt") {| message := "Invalid image file" |}).
  - left. apply surjective_pairing.
  - exact Hin.
Defined.

Lemma PATCH_by_non_owner_is_refused_witness :
  In (found (Report._id Sample.stored) (Some Sample.stored))
     (snd (handle Sample.env
             (PATCH (Sample.by_stranger Sample.describe) (Report._id Sample.stored))))
  /\ Report.createdBy Sample.stored = Some Sample.owner
  /\ user_id Sample.owner <> request_userId (Sample.by_stranger Sample.describe)
  /\ (exists response,
        fst (handle Sample.env
               (PATCH (Sample.by_stranger Sample.describe) (Report._id Sample.stored)))
        = Returned response
        /\ status response = 403)
  /\ snd (handle Sample.env
            (PATCH (Sample.by_stranger Sample.describe) (Report._id Sample.stored)))
     = [connected; found (Report._id Sample.stored) (Some Sample.stored)].
Proof.
  assert (Hin : In (found (Report._id Sample.stored) (Some Sample.stored))
                   (snd (handle Sample.env
                           (PATCH (Sample.by_stranger Sample.describe)
                              (Report._id Sample.stored))))).
  { vm_compute. tauto. }
  assert (Hneq : user_id Sample.owner
                 <> request_userId (Sample.by_stranger Sample.describe)).
  { vm_compute. discriminate. }
  split; [exact Hin |]. split; [reflexivity |]. split; [exact Hneq |].
  destruct (@PATCH_by_non_owner_is_refused Sample.env
              (Sample.by_stranger Sample.describe) (Report._id Sample.stored)
              _ _ Sample.stored Sample.owner
              (surjective_pairing _) Hin eq_refl Hneq)
    as (Hresponse & Htr & _).
  split; assumption.
Defined.

Lemma POST_answers_first_image_url_witness :
  POST_valid Sample.create_two
  /\ all_resolved (snd (handle Sample.env (POST Sample.create_two)))
  /\ exists report first others pre post,
       fst (handle Sample.env (POST Sample.create_two))
       = Returned (json (CreatedBody report) 201)
       /\ snd (handle Sample.env (POST Sample.create_two))
          = (pre ++ Ev (uploadImage (VStr "a.jpg")) (Uploaded first) :: post)%list
       /\ Forall (fun e => forall x, ev_call e <> uploadImage x) pre
       /\ uploaded (snd (handle Sample.env (POST Sample.create_two))) = first :: others
       /\ List.length (uploaded (snd (handle Sample.env (POST Sample.create_two))))
          = List.length [VStr "a.jpg"; VStr "b.jpg"]
       /\ Created.imageUrl report = secure_url first.
Proof.
  assert (Hvalid : POST_valid Sample.create_two) by (split; reflexivity).
  assert (Hres : all_resolved (snd (handle Sample.env (POST Sample.create_two)))).
  { vm_compute. repeat constructor. }
  split; [exact Hvalid |]. split; [exact Hres |].
  apply (@POST_answers_first_image_url Sample.env Sample.create_two
           (fst (handle Sample.env (POST Sample.create_two)))
           (snd (handle Sample.env (POST Sample.create_two)))
           "Overflowing bin" "near market" (VStr "a.jpg") [VStr "b.jpg"]
           (surjective_pairing _) Hvalid eq_refl eq_refl eq_refl Hres).
  intros data saved Hin. vm_compute in Hin.
  destruct Hin as [Hin | [Hin | [Hin | [Hin | []]]]]; try discriminate Hin.
  injection Hin as <- <-. repeat split.
Defined.

Lemma PATCH_merges_present_fields_witness :
  exists response,
    fst (handle Sample.env
           (PATCH (Sample.by_owner Sample.describe) (Report._id Sample.stored)))
    = Returned response
    /\ status response = 200
    /\ exists tr0 patch updatedReport,
         snd (handle Sample.env
                (PATCH (Sample.by_owner Sample.describe) (Report._id Sample.stored)))
         = (tr0 ++ [Ev (updateReport (Report._id Sample.stored) patch)
                       (Updated (Some updatedReport))])%list
         /\ UpdateData.title patch = None
         /\ UpdateData.category patch = None
         /\ Report.title (apply_update Sample.stored patch) = Report.title Sample.stored
         /\ Report.category (apply_update Sample.stored patch)
            = Report.category Sample.stored
         /\ Report.images (apply_update Sample.stored patch)
            = Report.images Sample.stored.
Proof.
  eexists. split; [reflexivity |]. split; [reflexivity |].
  destruct (@PATCH_merges_present_fields Sample.env
              (Sample.by_owner Sample.describe) (Report._id Sample.stored)
              _ _ _ (surjective_pairing _) eq_refl eq_refl)
    as (tr0 & patch & updatedReport & Htr & _ & Htitle & _ & Hcategory & _ & _ & _
        & Hframe).
  destruct (Hframe Sample.stored) as (Ftitle & _ & Fcategory & _ & Fimages).
  exists tr0, patch, updatedReport.
  split; [exact Htr |].
  split; [exact Htitle |]. split; [exact Hcategory |].
  split; [now apply Ftitle |]. split; [now apply Fcategory |].
  now apply Fimages.
Defined.


Lemma missing_user_id_header_witness :
  Request.headers Sample.anonymous = []
  /\ handle Sample.env (PATCH Sample.anonymous (Report._id Sample.stored))
     = (Returned authentication_required, [connected])
  /\ handle Sample.env (DELETE Sample.anonymous (Report._id Sample.stored))
     = (Returned authentication_required, [connected])
  /\ status authentication_required = 401.
Proof.
  split; [reflexivity |].
  destruct (@missing_user_id_header Sample.env Sample.anonymous
              (Report._id Sample.stored) (fun name value (Hin : In _ []) => match Hin with end))
    as (Hpatch & Hdelete & Hstatus & _).
  split; [apply Hpatch; [reflexivity | reflexivity | now eexists] |].
  split; [| exact Hstatus].
  apply Hdelete; [reflexivity | discriminate].
Defined.

Lemma PATCH_merges_empty_category_witness :
  Body.category (Request.body (Sample.by_owner Sample.uncategorise)) = VStr ""
  /\ includes validCategories (VStr "") = false
  /\ fst (handle Sample.env
            (PATCH (Sample.by_owner Sample.uncategorise) (Report._id Sample.stored)))
     <> Returned (json (ErrorBody invalid_category) 400)
  /\ exists tr0 patch r,
       snd (handle Sample.env
              (PATCH (Sample.by_owner Sample.uncategorise) (Report._id Sample.stored)))
       = (tr0 ++ [Ev (updateReport (Report._id Sample.stored) patch) r])%list.
Proof.
  split; [reflexivity |].
  destruct (@PATCH_merges_empty_category Sample.env
              (Sample.by_owner Sample.uncategorise) (Report._id Sample.stored)
              _ _ eq_refl (surjective_pairing _))
    as (Hincludes & Hresponse & _ & Hreached).
  split; [exact Hincludes |]. split; [exact Hresponse |].
  apply (Hreached Sample.stored Sample.owner).
  - vm_compute. tauto.
  - reflexivity.
  - reflexivity.
  - vm_compute. repeat constructor.
Defined.

Lemma POST_persists_trimmed_text_witness :
  Body.title (Request.body Sample.create_blank) = VStr "   "
  /\ all_whitespace "   " = true
  /\ exists response data saved tr0,
       fst (handle Sample.env (POST Sample.create_blank)) = Returned response
       /\ status response = 201
       /\ snd (handle Sample.env (POST Sample.create_blank))
          = (tr0 ++ [Ev (createReport data) (Saved saved)])%list
       /\ ReportData.title data = ""
       /\ ReportData.description data = "near market".
Proof.
  split; [reflexivity |]. split; [reflexivity |].
  destruct (@POST_persists_trimmed_text Sample.env Sample.create_blank
              _ _ _ (surjective_pairing _) eq_refl eq_refl)
    as (t & d & data & saved & tr0 & Ht & Hd & Htr & _ & Htitle & Hdescription
        & _ & _ & _ & Hblank).
  injection Ht as <-. injection Hd as <-.
  eexists _, data, saved, tr0.
  split; [reflexivity |]. split; [reflexivity |]. split; [exact Htr |].
  split; [now apply Hblank | exact Hdescription].
Defined.

(* ================================================================== *)
(** * Further properties of the handlers *)

Section Deleting.

Variable env : oracle.

(** The image deletions of [DELETE]: one quiet deletion per identifier of
    [image_deletions], whatever the image host answers. *)
Lemma delete_images_run (report : Report.t) (past : list event) :
  exists dels,
    run env
      (match Report.images report with
       | Some ((_ :: _) as images) =>
           for_of images (fun img _ => delete_quietly (VStr (publicId img))) tt
       | Some [] =>
           if negb (Report.imageUrl report =? "")%string
           then delete_quietly (VStr (Report.imageUrl report))
           else Pure tt
       | None => Pure tt
       end) past = (Normal tt, dels)
    /\ Forall is_deletion dels
    /\ map ev_call dels = map deleteImage (image_deletions report).
Proof.
  unfold image_deletions.
  destruct (Report.images report) as [[| img images] |].
  - destruct (negb (Report.imageUrl report =? "")%string).
    + unfold delete_quietly. rewrite run_try_catch, run_await.
      destruct (env past (deleteImage (VStr (Report.imageUrl report)))) as [[] | e];
        simpl; eexists; (split; [reflexivity |]); split; auto;
        repeat constructor.
    + exists []. simpl. auto.
  - destruct (delete_loop_run env (fun i => VStr (publicId i)) (img :: images) past)
      as (dels & Hrun & Hdel & Hcalls).
    exists dels. rewrite Hrun, Hcalls, map_map. auto.
  - exists []. simpl. auto.
Qed.

(** [DELETE] always answers, in one of the ways listed by [DELETE_run]. *)
Lemma DELETE_runs (request : Request.t) (id : string)
    (c : completion Empty_set) (tr : list event) :
  handle env (DELETE request id) = (c, tr) -> DELETE_run request id c tr.
Proof.
  unfold handle, DELETE. intros H.
  apply run_guarded_inv in H. destruct H as (c0 & H & ->).
  apply run_await_inv in H.
  destruct (env [] connectToDatabase) as [[] | e]; simpl in H;
    [| destruct H as [-> ->]; apply DELETE_unconnected].
  destruct H as (tr2 & H & ->). fold connected in *.
  destruct (String.eqb_spec id "") as [Hid | Hid];
    [simpl in H; injection H as <- <-; now apply DELETE_invalid_id |].
  destruct (request_userId request =? "placeholder-user-id")%string eqn:Hauth;
    [simpl in H; injection H as <- <-; now apply DELETE_unauthenticated |].
  apply run_await_inv in H.
  destruct (env [connected] (getReportById id None)) as [[report |] | e];
    cbn [reply_of] in H; fold (found id) in H.
  3: { destruct H as [-> ->]. now apply DELETE_lookup_failed. }
  2: { destruct H as (tr3 & H & ->). simpl in H. injection H as <- <-.
       now apply DELETE_not_found. }
  destruct H as (tr3 & H & ->).
  unfold owner_id in H.
  destruct (Report.createdBy report) as [u |] eqn:Howner;
    cbn [bind run] in H;
    [| injection H as <- <-; now apply DELETE_ownerless].
  destruct (user_id u =? request_userId request)%string eqn:Hown;
    cbn [negb] in H.
  2: { simpl in H. injection H as <- <-.
       apply DELETE_forbidden with u; auto. now apply String.eqb_neq. }
  apply String.eqb_eq in Hown.
  assert (Hadmitted : DELETE_admitted request id report).
  { split; [exact Hid |]. split; [exact Hauth |]. now exists u. }
  fold (found id (Some report)) in *.
  apply run_bind_inv in H.
  destruct (delete_images_run report ([connected] ++ [found id (Some report)]))
    as (dels & Hrun & Hdel & Hcalls).
  rewrite Hrun in H. clear Hrun.
  destruct H as (tr4 & H & ->).
  apply run_await_inv in H.
  destruct (env _ (deleteReportIfOwner id (request_userId request))) as [deleted | e];
    cbn [reply_of] in H.
  - destruct H as (tr5 & H & ->).
    destruct deleted; simpl in H; injection H as <- <-.
    + apply (@DELETE_attempted request id report dels (Removed true)); eauto.
    + apply (@DELETE_attempted request id report dels (Removed false)); eauto.
  - destruct H as [-> ->].
    apply (@DELETE_attempted request id report dels (Failed e)); eauto.
Qed.

End Deleting.

Section Reading.

Variable env : oracle.

(** Mapping the reviews makes no call; it throws when an author is
    missing. *)
Lemma format_reviews_run (reviews : list Review) :
  forall done past,
    run env (for_of reviews format_review done) past =
    (match formatted_reviews reviews with
     | Some rs => Normal (done ++ rs)%list
     | None => Thrown (TypeError "Cannot read properties of null (reading '_id')")
     end, []).
Proof.
  induction reviews as [| review rest IH]; intros done past.
  - simpl. now rewrite app_nil_r.
  - cbn [for_of formatted_reviews]. unfold format_review at 1.
    destruct (author review) as [a |]; cbn [bind]; [| reflexivity].
    rewrite IH. fold (formatted_review review a).
    destruct (formatted_reviews rest); [| reflexivity].
    now rewrite <- app_assoc.
Qed.

(** [GET] step by step: the connection, the identifier check, one lookup,
    and the answer computed from what was found. *)
Lemma GET_run (request : Request.t) (id : string) :
  handle env (GET request id) =
  match env [] connectToDatabase with
  | Rejected e => (Returned internal_error, [Ev connectToDatabase (Failed e)])
  | Resolved _ =>
      if invalid_id id then (Returned invalid_report_id, [connected])
      else
        match env [connected] (getReportById id (Some (wants_reviews request))) with
        | Rejected e =>
            (Returned internal_error,
             [connected;
              Ev (getReportById id (Some (wants_reviews request))) (Failed e)])
        | Resolved None =>
            (Returned report_not_found,
             [connected;
              Ev (getReportById id (Some (wants_reviews request))) (Found None)])
        | Resolved (Some report) =>
            (Returned (GET_answer (wants_reviews request) report),
             [connected;
              Ev (getReportById id (Some (wants_reviews request)))
                 (Found (Some report))])
        end
  end.
Proof.
  unfold handle, GET. fold (wants_reviews request).
  rewrite run_try_catch, run_bind, run_await.
  destruct (env [] connectToDatabase) as [[] | e]; simpl; [| reflexivity].
  destruct (invalid_id id); [reflexivity |].
  simpl. fold connected.
  destruct (env [connected] (getReportById id (Some (wants_reviews request))))
    as [[report |] | e]; simpl; try reflexivity.
  unfold GET_answer, format_report.
  destruct (Report.createdBy report) as [u |]; simpl; [| reflexivity].
  fold (projection report u).
  destruct (Report.reviews report) as [reviews |]; simpl; [| reflexivity].
  destruct (wants_reviews request); simpl; [| reflexivity].
  rewrite !run_bind, format_reviews_run.
  destruct (formatted_reviews reviews); reflexivity.
Qed.

End Reading.

Section Answers.

Variable env : oracle.

(** The list handler step by step, whatever the connection does. *)
Lemma GET_list_steps (request : Request.t) :
  let searchParams := Request.searchParams request in
  let page := parseInt_or (get searchParams "page") 1 in
  let limit := parseInt_or (get searchParams "limit") 20 in
  let options :=
    list_options page limit (get searchParams "category") (get searchParams "resolved") in
  handle env (GET_list request) =
  match env [] connectToDatabase with
  | Rejected e => (Returned internal_error, [Ev connectToDatabase (Failed e)])
  | Resolved _ =>
      if (page <? 1) || (limit <? 1) || (limit >? 100)
      then (Returned invalid_pagination, [connected])
      else
        match env [connected] (getAllReports options) with
        | Resolved result =>
            (Returned (json (ListBody (map format_summary (reports result))
                               (pagination result)) 200),
             [connected; Ev (getAllReports options) (Listed result)])
        | Rejected e =>
            (Returned internal_error,
             [connected; Ev (getAllReports options) (Failed e)])
        end
  end.
Proof.
  intros searchParams page limit options.
  unfold handle, GET_list.
  rewrite run_try_catch, run_bind, run_await.
  destruct (env [] connectToDatabase) as [[] | e]; simpl; [| reflexivity].
  fold searchParams. fold page. fold limit.
  destruct ((page <? 1) || (limit <? 1) || (limit >? 100)); [reflexivity |].
  simpl. fold options. fold connected.
  now destruct (env [connected] (getAllReports options)).
Qed.

Lemma GET_answer_status (includeReviews : bool) (report : Report.t) :
  status (GET_answer includeReviews report) = 200
  \/ status (GET_answer includeReviews report) = 500.
Proof.
  unfold GET_answer.
  destruct (Report.createdBy report); [| now right].
  destruct (Report.reviews report) as [reviews |]; [| now left].
  destruct includeReviews; [| now left].
  destruct (formatted_reviews reviews); [now left | now right].
Qed.

(** X1.  No handler lets an exception out or ends without a response, and
    each answers with one of a few statuses: [POST] 201, 400 or 500; the
    list 200, 400 or 500; [GET] 200, 400, 404 or 500; [PATCH] and [DELETE]
    200, 400, 401, 403, 404 or 500. *)
Theorem every_handler_answers (request : Request.t) (id : string) :
  In (status_of (fst (handle env (POST request)))) [201; 400; 500]
  /\ In (status_of (fst (handle env (GET_list request)))) [200; 400; 500]
  /\ In (status_of (fst (handle env (GET request id)))) [200; 400; 404; 500]
  /\ In (status_of (fst (handle env (PATCH request id)))) [200; 400; 401; 403; 404; 500]
  /\ In (status_of (fst (handle env (DELETE request id)))) [200; 400; 401; 403; 404; 500].
Proof.
  split; [| split; [| split; [| split]]].
  - destruct (handle env (POST request)) as [c tr0] eqn:H.
    apply POST_runs in H. cbn [fst].
    inversion H as [e0 | Hm | Hm Hc | e0 Hv Hg
                   | finalLocation geo items response ups Hv Hloc Hitems Hup
                   | finalLocation uploadedImages tr Hdone Hstr
                   | finalLocation uploadedImages tr t d e0 Hdone Ht Hd
                   | finalLocation uploadedImages tr t d saved Hdone Ht Hd
                 | Hunread];
      subst; simpl; auto.
    apply upload_run_returned in Hup.
    destruct Hup as (? & ? & ? & ? & e' & ? & _ & _ & -> & _). simpl. auto.
  - pose proof (GET_list_steps request) as H. cbv zeta in H. rewrite H.
    destruct (env [] connectToDatabase); simpl; auto.
    destruct (_ || _); simpl; auto.
    destruct (env [connected] _); simpl; auto.
  - rewrite GET_run.
    destruct (env [] connectToDatabase); simpl; auto.
    destruct (invalid_id id); simpl; auto.
    destruct (env [connected] _) as [[report |] | e]; simpl; auto.
    destruct (GET_answer_status (wants_reviews request) report) as [-> | ->]; auto.
  - destruct (handle env (PATCH request id)) as [c tr0] eqn:H.
    apply PATCH_runs in H. cbn [fst].
    inversion H as [e0 | Hid | Hid Hauth | e0 Hid Hauth | Hid Hauth
                   | report Hid Hauth Hnone
                   | report u' Hid Hauth Hu' Hneq'
                   | report Hadm Hcat
                   | report e0 Hadm Hcat Hg
                   | report finalLocation geo dels response ups
                       Hadm Hcat Hloc Hdels Hdcalls Hup
                   | report finalLocation uploadedNewImages tr e0 Hdone
                   | report finalLocation uploadedNewImages tr Hdone
                   | report finalLocation uploadedNewImages tr updatedReport
                       Hdone Hnone
                   | report finalLocation uploadedNewImages tr updatedReport
                       formatted Hdone Hfmt
                 | Hvalid_id Hunread];
      subst; simpl; auto 10.
    apply upload_run_returned in Hup.
    destruct Hup as (? & ? & ? & ? & e' & ? & _ & _ & -> & _). simpl. auto 10.
  - destruct (handle env (DELETE request id)) as [c tr0] eqn:H.
    apply DELETE_runs in H. cbn [fst].
    inversion H as [e0 | Hid | Hid Hauth | e0 Hid Hauth | Hid Hauth
                   | report Hid Hauth Hnone | report u Hid Hauth Hu Hneq
                   | report dels r Hadm Hdels Hcalls Hr];
      subst; simpl; auto 10.
    destruct Hr as [[[] ->] | [e ->]]; simpl; auto 10.
Qed.

End Answers.

(* ================================================================== *)
(** ** Checks come before effects *)

Lemma external_effect (tr : list event) (e : event) :
  Forall external tr -> In e tr -> is_external (ev_call e) = true.
Proof. intros H Hin. rewrite Forall_forall in H. exact (H _ Hin). Qed.

Section Guards.

Variable env : oracle.

(** X2.  [POST] validates before it does anything else.  When the body
    lacks a required field, or its category is not one of the three, the
    request makes no call but the database connection and is answered 400
    with the message of the test that failed, the required-field test
    coming first.  A request whose body cannot be read is answered 500,
    again after the connection alone.  Otherwise such a request is answered
    500 only when the connection itself fails. *)
Theorem POST_checks_before_calling (request : Request.t)
    (c : completion Empty_set) (tr : list event) :
  handle env (POST request) = (c, tr) ->
  (exists e,
      env [] connectToDatabase = Rejected e
      /\ tr = [Ev connectToDatabase (Failed e)]
      /\ c = Returned internal_error)
  \/ (env [] connectToDatabase = Resolved tt
      /\ (forall body,
            Request.json request = Json body ->
            (required_missing body = true ->
             tr = [connected]
             /\ c = Returned (json (ErrorBody missing_fields) 400))
            /\ (required_missing body = false ->
                includes validCategories (Body.category body) = false ->
                tr = [connected]
                /\ c = Returned (json (ErrorBody invalid_category) 400)))
      /\ (unreadable request ->
          tr = [connected] /\ c = Returned internal_error)).
Proof.
  unfold handle, POST.
  rewrite run_try_catch, run_bind, run_await.
  destruct (env [] connectToDatabase) as [[] | e]; simpl.
  2: { intros H. injection H as <- <-. left. now exists e. }
  intros H. right. split; [reflexivity |]. split.
  - intros body Hbody. unfold read_json in H. rewrite Hbody in H. simpl in H.
    split.
    + intros Hmissing. rewrite Hmissing in H. simpl in H.
      injection H as <- <-. auto.
    + intros Hmissing Hcategory. rewrite Hmissing, Hcategory in H. simpl in H.
      injection H as <- <-. auto.
  - intros Hunread. unfold read_json in H.
    destruct (Request.json request) as [e | | body] eqn:Hjson;
      [| | exfalso; now apply (Hunread body)];
      simpl in H; injection H as <- <-; auto.
Qed.

(** X3.  [PATCH] checks before it has any effect: a call to the geocoder or
    the image host, or a write to the stored reports, is made only in a
    request whose identifier is well formed, whose caller is identified and
    owns the report that the lookup found, and whose category, when truthy,
    is one of the three. *)
Theorem PATCH_checks_before_effects (request : Request.t) (id : string)
    (c : completion Empty_set) (tr : list event) (e : event) :
  handle env (PATCH request id) = (c, tr) ->
  In e tr ->
  has_effect (ev_call e) = true ->
  exists currentReport,
    In (found id (Some currentReport)) tr
    /\ PATCH_admitted request id currentReport
    /\ truthy (Body.category (Request.body request))
       && negb (includes validCategories (Body.category (Request.body request)))
       = false.
Proof.
  intros H Hin Heffect. apply PATCH_runs in H.
  inversion H as [e0 | Hid | Hid Hauth | e0 Hid Hauth | Hid Hauth
                 | report Hid Hauth Hnone
                 | report u' Hid Hauth Hu' Hneq'
                 | report Hadm Hcat
                 | report e0 Hadm Hcat Hg
                 | report finalLocation geo dels response ups
                     Hadm Hcat Hloc Hdels Hdcalls Hup
                 | report finalLocation uploadedNewImages tr' e0 Hdone
                 | report finalLocation uploadedNewImages tr' Hdone
                 | report finalLocation uploadedNewImages tr' updatedReport
                     Hdone Hnone
                 | report finalLocation uploadedNewImages tr' updatedReport
                     formatted Hdone Hfmt
                 | Hvalid_id Hunread];
    subst;
    try (exfalso; simpl in Hin;
         repeat (destruct Hin as [Hin | Hin]; [subst e; discriminate Heffect |]);
         contradiction).
  - exists report. split; [simpl; auto | split; assumption].
  - exists report. split; [simpl; auto | split; assumption].
  - pose proof Hdone as (Hadm & Hcat & geo & dels & ups & -> & _).
    exists report. split; [| split; assumption].
    apply in_or_app. left. simpl. auto.
  - pose proof Hdone as (Hadm & Hcat & geo & dels & ups & -> & _).
    exists report. split; [| split; assumption].
    apply in_or_app. left. simpl. auto.
  - pose proof Hdone as (Hadm & Hcat & geo & dels & ups & -> & _).
    exists report. split; [| split; assumption].
    apply in_or_app. left. simpl. auto.
  - pose proof Hdone as (Hadm & Hcat & geo & dels & ups & -> & _).
    exists report. split; [| split; assumption].
    apply in_or_app. left. simpl. auto.
Qed.

(** X4.  [DELETE] checks before it has any effect: an image is deleted or
    [deleteReportIfOwner] is called only in a request whose identifier is
    not empty and whose caller is identified and owns the report that the
    lookup found; a request answered 400, 401, 403 or 404 deleted nothing. *)
Theorem DELETE_checks_before_effects (request : Request.t) (id : string)
    (c : completion Empty_set) (tr : list event) :
  handle env (DELETE request id) = (c, tr) ->
  (forall e,
      In e tr -> has_effect (ev_call e) = true ->
      exists report,
        In (found id (Some report)) tr /\ DELETE_admitted request id report)
  /\ (In (status_of c) [400; 401; 403; 404] ->
      Forall (fun e => has_effect (ev_call e) = false) tr).
Proof.
  intros H. apply DELETE_runs in H.
  inversion H as [e0 | Hid | Hid Hauth | e0 Hid Hauth | Hid Hauth
                 | report Hid Hauth Hnone | report u Hid Hauth Hu Hneq
                 | report dels r Hadm Hdels Hcalls Hr];
    subst; split;
    try (intros e Hin Heffect; exfalso; simpl in Hin;
         repeat (destruct Hin as [Hin | Hin]; [subst e; discriminate Heffect |]);
         contradiction);
    try (intros _; solve [repeat constructor]).
  - intros e _ _. exists report. split; [simpl; auto | exact Hadm].
  - intros Hstatus. exfalso.
    destruct Hr as [[[] ->] | [e ->]]; simpl in Hstatus;
      intuition discriminate.
Qed.

End Guards.

(* ================================================================== *)
(** ** The geocoder *)

Lemma geocodes_app (tr1 tr2 : list event) :
  geocodes (tr1 ++ tr2) = (geocodes tr1 ++ geocodes tr2)%list.
Proof. apply filter_app. Qed.

Lemma geocodes_image_host (tr : list event) :
  Forall on_image_host tr -> geocodes tr = [].
Proof.
  induction 1 as [| [c r] tr H _ IH]; [reflexivity |].
  unfold geocodes in *. simpl. destruct c; simpl in H; try contradiction; exact IH.
Qed.

Lemma geocodes_quiet (tr : list event) :
  Forall (fun e => has_effect (ev_call e) = false) tr -> geocodes tr = [].
Proof.
  induction 1 as [| [c r] tr H _ IH]; [reflexivity |].
  unfold geocodes in *. simpl. destruct c; simpl in H; try discriminate; exact IH.
Qed.

Lemma uploaded_on_host (tr : list event) :
  Forall is_uploaded tr -> Forall on_image_host tr.
Proof.
  apply Forall_impl. intros [[] []]; simpl; intros H; try contradiction; exact I.
Qed.

Lemma deletion_on_host (tr : list event) :
  Forall is_deletion tr -> Forall on_image_host tr.
Proof.
  apply Forall_impl. intros [[] []]; simpl; intros H; try contradiction; exact I.
Qed.

Lemma upload_run_on_host (acc : list Image) (items : list value)
    (c : completion (list Image)) (tr : list event) :
  upload_run acc items c tr -> Forall on_image_host tr.
Proof.
  intros [tr' Hups _ | sent image rest ups e dels _ Hups _ Hdels _].
  - now apply uploaded_on_host.
  - apply Forall_app. split; [now apply uploaded_on_host |].
    constructor; [exact I | now apply deletion_on_host].
Qed.

Lemma in_geocodes (tr : list event) (e : event) :
  In e (geocodes tr) <->
  In e tr /\ exists address, ev_call e = geocodeAddress address.
Proof.
  unfold geocodes. rewrite filter_In. split; intros [Hin H]; split; auto.
  - destruct (ev_call e); try discriminate. now eexists.
  - destruct H as [address ->]. reflexivity.
Qed.

(** A history made of calls that ask no geocoder, then a run of
    [resolve_location] that went on, then more calls that ask none. *)
Lemma geocodes_around (location address finalLocation : value)
    (c : completion Empty_set) (pre geo rest : list event) :
  geocodes pre = [] ->
  located location address (Normal finalLocation) geo ->
  geocodes rest = [] ->
  asked_geocoder location address c (pre ++ geo ++ rest).
Proof.
  intros Hpre Hloc Hrest. unfold asked_geocoder.
  rewrite !geocodes_app, Hpre, Hrest, app_nil_r. simpl.
  inversion Hloc; subst; [now left |].
  right. split; [assumption |]. left. now eexists.
Qed.

Section Geocoding.

Variable env : oracle.

Lemma POST_asked_geocoder (request : Request.t) (c : completion Empty_set)
    (tr : list event) :
  POST_run request c tr ->
  asked_geocoder (Body.location (Request.body request))
    (Body.address (Request.body request)) c tr.
Proof.
  intros H.
  destruct H as [e0 | Hm | Hm Hc | e0 Hv Hg
                | finalLocation geo items response ups Hv Hloc Hitems Hup
                | finalLocation uploadedImages tr Hdone Hstr
                | finalLocation uploadedImages tr t d e0 Hdone Ht Hd
                | finalLocation uploadedImages tr t d saved Hdone Ht Hd
                 | Hunread];
    try (now left).
  - right. split; [exact Hg |]. right. exists e0, [connected].
    repeat split. repeat constructor.
  - apply (@geocodes_around _ _ finalLocation _ [connected] geo ups);
      [reflexivity | exact Hloc
      | apply geocodes_image_host; eapply upload_run_on_host; eassumption].
  - destruct Hdone as (_ & geo & items & ups & -> & Hloc & _ & Hup).
    apply (@geocodes_around _ _ finalLocation _ [connected] geo ups);
      [reflexivity | exact Hloc
      | apply geocodes_image_host; eapply upload_run_on_host; eassumption].
  - destruct Hdone as (_ & geo & items & ups & -> & Hloc & _ & Hup).
    change ((connected :: geo ++ ups) ++ ?l)%list
      with ([connected] ++ (geo ++ ups) ++ l)%list.
    rewrite <- app_assoc.
    apply (@geocodes_around _ _ finalLocation _ [connected] geo);
      [reflexivity | exact Hloc |].
    rewrite geocodes_app.
    now rewrite (geocodes_image_host (upload_run_on_host Hup)).
  - destruct Hdone as (_ & geo & items & ups & -> & Hloc & _ & Hup).
    change ((connected :: geo ++ ups) ++ ?l)%list
      with ([connected] ++ (geo ++ ups) ++ l)%list.
    rewrite <- app_assoc.
    apply (@geocodes_around _ _ finalLocation _ [connected] geo);
      [reflexivity | exact Hloc |].
    rewrite geocodes_app.
    now rewrite (geocodes_image_host (upload_run_on_host Hup)).
Qed.

Lemma PATCH_asked_geocoder (request : Request.t) (id : string)
    (c : completion Empty_set) (tr : list event) :
  PATCH_run request id c tr ->
  asked_geocoder (Body.location (Request.body request))
    (Body.address (Request.body request)) c tr.
Proof.
  assert (Hrest : forall dels ups c0 items,
             Forall is_deletion dels -> upload_run [] items c0 ups ->
             forall l, geocodes l = [] -> geocodes (dels ++ ups ++ l) = []).
  { intros dels ups c0 items Hdels Hup l Hl. rewrite !geocodes_app, Hl.
    rewrite (geocodes_image_host (deletion_on_host Hdels)).
    now rewrite (geocodes_image_host (upload_run_on_host Hup)). }
  assert (Hdone : forall currentReport finalLocation uploadedNewImages tr0 l,
             PATCH_uploaded request id currentReport finalLocation
               uploadedNewImages tr0 ->
             geocodes l = [] ->
             asked_geocoder (Body.location (Request.body request))
               (Body.address (Request.body request)) c (tr0 ++ l)).
  { intros currentReport finalLocation uploadedNewImages tr0 l
      (_ & _ & geo & dels & ups & -> & Hloc & Hdels & _ & Hup) Hl.
    change ((connected :: found id (Some currentReport) :: geo ++ dels ++ ups) ++ l)%list
      with ([connected; found id (Some currentReport)] ++ (geo ++ dels ++ ups) ++ l)%list.
    rewrite <- !app_assoc.
    apply (@geocodes_around _ _ finalLocation _ _ geo);
      [reflexivity | exact Hloc |].
    eapply Hrest; eauto. }
  intros H.
  destruct H as [e0 | Hid | Hid Hauth | e0 Hid Hauth | Hid Hauth
                | report Hid Hauth Hnone
                | report u' Hid Hauth Hu' Hneq'
                | report Hadm Hcat
                | report e0 Hadm Hcat Hg
                | report finalLocation geo dels response ups
                    Hadm Hcat Hloc Hdels Hdcalls Hup
                | report finalLocation uploadedNewImages tr e0 Hdone'
                | report finalLocation uploadedNewImages tr Hdone'
                | report finalLocation uploadedNewImages tr updatedReport
                    Hdone' Hnone
                | report finalLocation uploadedNewImages tr updatedReport
                    formatted Hdone' Hfmt
                 | Hvalid_id Hunread];
    try (now left); try (eapply Hdone; eauto).
  - right. split; [exact Hg |]. right.
    exists e0, [connected; found id (Some report)].
    repeat split. repeat constructor.
  - change (connected :: found id (Some report) :: geo ++ dels ++ ups)%list
      with ([connected; found id (Some report)] ++ geo ++ dels ++ ups)%list.
    apply (@geocodes_around _ _ finalLocation _ _ geo);
      [reflexivity | exact Hloc |].
    specialize (Hrest dels ups _ _ Hdels Hup [] eq_refl).
    now rewrite !app_nil_r in Hrest.
Qed.

(** X5.  [POST] and [PATCH] ask the geocoder at most once per request, only
    for the address of the body, and only when the body has a truthy address
    and no truthy location.  When the geocoder fails the request ends there:
    it is answered 400 with the geocoder's message, nothing was sent to the
    image host and nothing was written. *)
Theorem geocoder_asked_once_for_the_address (request : Request.t) (id : string)
    (c : completion Empty_set) (tr : list event) :
  handle env (POST request) = (c, tr) \/ handle env (PATCH request id) = (c, tr) ->
  (List.length (geocodes tr) <= 1)%nat
  /\ (forall e,
        In e (geocodes tr) ->
        ev_call e = geocodeAddress (Body.address (Request.body request))
        /\ truthy (Body.address (Request.body request)) = true
        /\ truthy (Body.location (Request.body request)) = false)
  /\ (forall address error,
        In (Ev (geocodeAddress address) (Failed error)) tr ->
        c = Returned (geocode_failed error)
        /\ status (geocode_failed error) = 400
        /\ Forall (fun e => is_write (ev_call e) = false /\ ~ on_image_host e) tr).
Proof.
  intros H.
  assert (Hasked : asked_geocoder (Body.location (Request.body request))
                     (Body.address (Request.body request)) c tr).
  { destruct H as [H | H].
    - apply POST_asked_geocoder. now apply POST_runs with env.
    - apply PATCH_asked_geocoder with id. now apply PATCH_runs with env. }
  clear H.
  assert (Hcond : truthy (Body.address (Request.body request))
                  && negb (truthy (Body.location (Request.body request))) = true ->
                  truthy (Body.address (Request.body request)) = true
                  /\ truthy (Body.location (Request.body request)) = false).
  { intros Hc. apply andb_true_iff in Hc. destruct Hc as [Ha Hl].
    now apply negb_true_iff in Hl. }
  destruct Hasked as [Hnone | [Hc [[coords Hone] | (e & pre & -> & Hpre & ->)]]].
  - rewrite Hnone. split; [simpl; lia |]. split; [intros e [] |].
    intros address error Hin.
    assert (Hg : In (Ev (geocodeAddress address) (Failed error)) (geocodes tr)).
    { apply in_geocodes. split; [exact Hin | now eexists]. }
    rewrite Hnone in Hg. destruct Hg.
  - rewrite Hone. split; [simpl; lia |]. split.
    + intros e [<- | []]. split; [reflexivity | now apply Hcond].
    + intros address error Hin.
      assert (Hg : In (Ev (geocodeAddress address) (Failed error)) (geocodes tr)).
      { apply in_geocodes. split; [exact Hin | now eexists]. }
      rewrite Hone in Hg. destruct Hg as [Hg | []]. discriminate Hg.
  - rewrite geocodes_app, (geocodes_quiet Hpre). simpl.
    split; [lia |]. split.
    + intros e0 [<- | []]. split; [reflexivity | now apply Hcond].
    + intros address error Hin.
      assert (Hg : In (Ev (geocodeAddress address) (Failed error))
                      (geocodes (pre ++ [Ev (geocodeAddress (Body.address (Request.body request))) (Failed e)]))).
      { apply in_geocodes. split; [exact Hin | now eexists]. }
      rewrite geocodes_app, (geocodes_quiet Hpre) in Hg.
      destruct Hg as [Hg | []]. injection Hg as _ <-.
      split; [reflexivity |]. split; [reflexivity |].
      apply Forall_app. split.
      * revert Hpre. apply Forall_impl. intros [[] r]; simpl; intros Hq;
          try discriminate; auto.
      * constructor; [| constructor]. simpl. auto.
Qed.

End Geocoding.

(* ================================================================== *)
(** ** What [POST] hands over, and what it leaves behind *)

Lemma deletions_app (tr1 tr2 : list event) :
  deletions (tr1 ++ tr2) = (deletions tr1 ++ deletions tr2)%list.
Proof. unfold deletions. now rewrite map_app, filter_app. Qed.

Lemma upload_calls_app (tr1 tr2 : list event) :
  upload_calls (tr1 ++ tr2) = (upload_calls tr1 ++ upload_calls tr2)%list.
Proof. unfold upload_calls. now rewrite map_app, filter_app. Qed.

Lemma located_no_host (location address : value) (c : completion value)
    (geo : list event) :
  located location address c geo -> deletions geo = [] /\ upload_calls geo = [].
Proof. intros []; split; reflexivity. Qed.

Lemma uploaded_calls (tr : list event) :
  Forall is_uploaded tr -> deletions tr = [] /\ upload_calls tr = map ev_call tr.
Proof.
  unfold deletions, upload_calls.
  induction 1 as [| [c r] tr H _ [IHd IHu]]; [split; reflexivity |].
  destruct c; simpl in H; try contradiction. simpl. now rewrite IHd, IHu.
Qed.

Lemma deletion_calls (tr : list event) :
  Forall is_deletion tr -> deletions tr = map ev_call tr /\ upload_calls tr = [].
Proof.
  unfold deletions, upload_calls.
  induction 1 as [| [c r] tr H _ [IHd IHu]]; [split; reflexivity |].
  destruct c; simpl in H; try (destruct r; contradiction).
  simpl. now rewrite IHd, IHu.
Qed.

(** The identity [POST] records is never the stand-in of a missing header. *)
Lemma POST_userId_real (request : Request.t) :
  POST_userId request <> "placeholder-user-id".
Proof.
  unfold POST_userId.
  destruct (String.eqb_spec
              (or_default (header (Request.headers request) "user-id")
                 "placeholder-user-id")
              "placeholder-user-id"); [discriminate | assumption].
Qed.

(** What the history holds once [POST] got through the upload loop. *)
Lemma POST_uploaded_history (request : Request.t) (finalLocation : value)
    (uploadedImages : list Image) (tr : list event) :
  POST_uploaded request finalLocation uploadedImages tr ->
  exists items,
    Body.newImages (Request.body request) = CArr items
    /\ upload_calls tr = map uploadImage items
    /\ deletions tr = []
    /\ uploads tr = uploadedImages
    /\ hosted tr [] = map publicId uploadedImages
    /\ no_write tr
    /\ (truthy (Body.location (Request.body request)) = true ->
        finalLocation = Body.location (Request.body request))
    /\ (truthy (Body.location (Request.body request)) = false ->
        In (Ev (geocodeAddress (Body.address (Request.body request)))
               (Coords finalLocation)) tr).
Proof.
  intros Hdone.
  destruct (POST_uploaded_facts Hdone) as ((rest & _ & Hext) & _ & _ & Huploads & _).
  destruct Hdone as ((Hm & _) & geo & items & ups & -> & Hloc & Hitems & Hup).
  inversion Hup as [tr' Hups Hcalls |]; subst.
  destruct (located_no_host Hloc) as [Hgd Hgu].
  destruct (uploaded_calls Hups) as [Hud Huu].
  exists items. split; [exact Hitems |].
  change (connected :: geo ++ ups)%list with ([connected] ++ geo ++ ups)%list.
  rewrite !upload_calls_app, !deletions_app, Hgd, Hgu, Hud, Huu, Hcalls.
  split; [reflexivity |]. split; [reflexivity |].
  split; [now rewrite !uploads_app, (located_uploads Hloc) |].
  split; [| split; [| split]].
  - rewrite !hosted_app. simpl.
    rewrite (hosted_nothing _ (located_uploads Hloc)).
    now rewrite (hosted_uploaded Hups).
  - constructor; [reflexivity |]. apply external_no_write.
    apply Forall_app. split;
      [eapply located_external; eassumption | now apply uploaded_external].
  - intros Htruthy. inversion Hloc as [Hgiven | coords Hgeo |]; subst;
      [reflexivity |].
    rewrite Htruthy, andb_false_r in Hgeo. discriminate.
  - intros Hfalsy. inversion Hloc as [Hgiven | coords Hgeo |]; subst.
    + exfalso. unfold required_missing in Hm.
      rewrite Hfalsy in Hm, Hgiven. simpl in Hm, Hgiven.
      rewrite andb_true_r in Hgiven. rewrite Hgiven in Hm. simpl in Hm.
      now rewrite !orb_true_r in Hm.
    + right. now left.
Qed.

Section Creating.

Variable env : oracle.

(** X6.  What [POST] hands to [createReport], the last call of the request
    and its only write: the category of the body, which is one of the three;
    one image per element of the batch, carrying the [secure_url] and the
    [public_id] that the image host returned for it, in upload order; as
    [imageUrl] the [secure_url] of the first upload, or the empty string for
    an empty batch; as creator the value of the [user-id] header, or the
    fixed stand-in identity when the header is missing, empty or the
    placeholder string; and as location the body's location when it is
    truthy, otherwise what the geocoder answered for the body's address. *)
Theorem POST_hands_over_what_it_gathered (request : Request.t)
    (c : completion Empty_set) (tr : list event) (data : ReportData.t) (r : reply) :
  handle env (POST request) = (c, tr) ->
  In (Ev (createReport data) r) tr ->
  exists items tr0,
    tr = (tr0 ++ [Ev (createReport data) r])%list
    /\ no_write tr0
    /\ Body.newImages (Request.body request) = CArr items
    /\ ReportData.category data = Body.category (Request.body request)
    /\ includes validCategories (ReportData.category data) = true
    /\ upload_calls tr = map uploadImage items
    /\ ReportData.images data
       = map (fun u => {| url := secure_url u; publicId := public_id u |}) (uploaded tr)
    /\ List.length (ReportData.images data) = List.length items
    /\ ReportData.imageUrl data
       = match uploaded tr with
         | first :: _ => secure_url first
         | [] => ""
         end
    /\ (forall userId,
          header (Request.headers request) "user-id" = Some userId ->
          userId <> "" -> userId <> "placeholder-user-id" ->
          ReportData.createdBy data = userId)
    /\ (header (Request.headers request) "user-id" = None
        \/ header (Request.headers request) "user-id" = Some ""
        \/ header (Request.headers request) "user-id" = Some "placeholder-user-id" ->
        ReportData.createdBy data = "000000000000000000000001")
    /\ (truthy (Body.location (Request.body request)) = true ->
        ReportData.location data = Body.location (Request.body request))
    /\ (truthy (Body.location (Request.body request)) = false ->
        In (Ev (geocodeAddress (Body.address (Request.body request)))
               (Coords (ReportData.location data))) tr).
Proof.
  intros H Hin. apply POST_runs in H.
  assert (Hlast : forall finalLocation uploadedImages tr' t d r',
             POST_uploaded request finalLocation uploadedImages tr' ->
             tr = (tr' ++ [Ev (createReport
                                 (report_data (trim t) (trim d)
                                    (Body.category (Request.body request))
                                    finalLocation uploadedImages
                                    (POST_userId request))) r'])%list ->
             exists items tr0,
               tr = (tr0 ++ [Ev (createReport data) r])%list
               /\ no_write tr0
               /\ Body.newImages (Request.body request) = CArr items
               /\ ReportData.category data = Body.category (Request.body request)
               /\ includes validCategories (ReportData.category data) = true
               /\ upload_calls tr = map uploadImage items
               /\ ReportData.images data
                  = map (fun u => {| url := secure_url u; publicId := public_id u |}) (uploaded tr)
               /\ List.length (ReportData.images data) = List.length items
               /\ ReportData.imageUrl data
                  = match uploaded tr with
                    | first :: _ => secure_url first
                    | [] => ""
                    end
               /\ (forall userId,
                     header (Request.headers request) "user-id" = Some userId ->
                     userId <> "" -> userId <> "placeholder-user-id" ->
                     ReportData.createdBy data = userId)
               /\ (header (Request.headers request) "user-id" = None
                   \/ header (Request.headers request) "user-id" = Some ""
                   \/ header (Request.headers request) "user-id" = Some "placeholder-user-id" ->
                   ReportData.createdBy data = "000000000000000000000001")
               /\ (truthy (Body.location (Request.body request)) = true ->
                   ReportData.location data = Body.location (Request.body request))
               /\ (truthy (Body.location (Request.body request)) = false ->
                   In (Ev (geocodeAddress (Body.address (Request.body request)))
                          (Coords (ReportData.location data))) tr)).
  { intros finalLocation uploadedImages tr' t d r' Hdone Htr.
    destruct (POST_uploaded_facts Hdone) as ((rest & Hrest & Hext) & _).
    destruct (POST_uploaded_history Hdone)
      as (items & Hitems & Hcalls & Hdels & Huploads & _ & Hnw & Hgiven & Hgeo).
    pose proof Hdone as ((_ & Hcat) & _).
    assert (Hev : Ev (createReport data) r
                  = Ev (createReport
                          (report_data (trim t) (trim d)
                             (Body.category (Request.body request))
                             finalLocation uploadedImages (POST_userId request))) r').
    { rewrite Htr in Hin. apply in_app_or in Hin.
      destruct Hin as [Hin | [Hin | []]]; [| now symmetry].
      exfalso. rewrite Hrest in Hin. destruct Hin as [Hin | Hin];
        [discriminate |].
      eapply external_not_created; eassumption. }
    injection Hev as -> ->.
    assert (Himages : uploadedImages
                      = map (fun u => {| url := secure_url u; publicId := public_id u |})
                            (uploaded tr')).
    { rewrite <- Huploads. apply uploads_uploaded. }
    exists items, tr'. rewrite Htr.
    rewrite upload_calls_app, uploaded_app, Hcalls. simpl.
    rewrite !app_nil_r.
    split; [reflexivity |]. split; [exact Hnw |]. split; [exact Hitems |].
    split; [reflexivity |]. split; [exact Hcat |]. split; [reflexivity |].
    split; [exact Himages |].
    split.
    { destruct (POST_uploaded_facts Hdone) as (_ & _ & _ & _ & Hlen).
      rewrite Hlen, Hitems. reflexivity. }
    split.
    { rewrite Himages. destruct (uploaded tr') as [| first others];
        [reflexivity | apply or_default_empty]. }
    split.
    { intros userId Hheader Hempty Hplace. unfold POST_userId.
      rewrite Hheader. simpl.
      destruct (String.eqb_spec userId "") as [| _]; [contradiction |].
      destruct (String.eqb_spec userId "placeholder-user-id"); [contradiction |].
      reflexivity. }
    split.
    { unfold POST_userId. intros [-> | [-> | ->]]; reflexivity. }
    split; [exact Hgiven |].
    intros Hfalsy. apply in_or_app. left. now apply Hgeo. }
  inversion H as [e0 | Hm | Hm Hc | e0 Hv Hg
                 | finalLocation geo items response ups Hv Hloc Hitems Hup
                 | finalLocation uploadedImages tr' Hdone Hstr
                 | finalLocation uploadedImages tr' t d e0 Hdone Ht Hd
                 | finalLocation uploadedImages tr' t d saved Hdone Ht Hd
                 | Hunread];
    subst; try (simpl in Hin; intuition discriminate);
    try (eapply Hlast; eauto; fail).
  - exfalso. destruct Hin as [Hin | Hin]; [discriminate |].
    revert Hin. apply external_not_created. apply Forall_app. split;
      [eapply located_external; eassumption
      | eapply upload_run_external; eassumption].
  - exfalso. destruct (POST_uploaded_facts Hdone) as ((rest & -> & Hext) & _).
    destruct Hin as [Hin | Hin]; [discriminate |].
    eapply external_not_created; eassumption.
Qed.

(** X7.  [POST] deletes images only to clean up after a failed upload.  In
    a request where no upload failed no [deleteImage] call is made, so that
    every image the request uploaded stays on the image host; this holds
    also when the request is then answered 500 because the title or the
    description is not a string or because the report could not be saved,
    and then no report was created for them. *)
Theorem POST_cleans_up_only_after_failed_upload (request : Request.t)
    (c : completion Empty_set) (tr : list event) :
  handle env (POST request) = (c, tr) ->
  (forall image e, ~ In (Ev (uploadImage image) (Failed e)) tr) ->
  deletions tr = []
  /\ hosted tr [] = map publicId (uploads tr)
  /\ (status_of c <> 201 ->
      forall data saved, ~ In (Ev (createReport data) (Saved saved)) tr)
  /\ (POST_valid request ->
      (forall t d, ~ (Body.title (Request.body request) = VStr t
                      /\ Body.description (Request.body request) = VStr d)) ->
      all_resolved tr ->
      c = Returned internal_error
      /\ upload_calls tr
         = map uploadImage (nonempty_items (Body.newImages (Request.body request)))
      /\ List.length (uploads tr)
         = List.length (nonempty_items (Body.newImages (Request.body request)))).
Proof.
  intros H Hnofail. apply POST_runs in H.
  assert (Hdone' : forall finalLocation uploadedImages tr' l,
             POST_uploaded request finalLocation uploadedImages tr' ->
             (exists data r, l = [Ev (createReport data) r]) \/ l = [] ->
             deletions (tr' ++ l) = []
             /\ hosted (tr' ++ l) [] = map publicId (uploads (tr' ++ l))).
  { intros finalLocation uploadedImages tr' l Hdone Hl.
    destruct (POST_uploaded_history Hdone)
      as (items & _ & _ & Hdels & Huploads & Hhosted & _).
    rewrite deletions_app, hosted_app, uploads_app, Hdels, Hhosted, Huploads.
    destruct Hl as [(data & r & ->) | ->]; simpl; rewrite ?app_nil_r; auto. }
  inversion H as [e0 | Hm | Hm Hc | e0 Hv Hg
                 | finalLocation geo items response ups Hv Hloc Hitems Hup
                 | finalLocation uploadedImages tr' Hdone Hstr
                 | finalLocation uploadedImages tr' t d e0 Hdone Ht Hd
                 | finalLocation uploadedImages tr' t d saved Hdone Ht Hd
                 | Hunread];
    subst.
  - split; [reflexivity |]. split; [reflexivity |].
    split; [intros _ data saved Hin; simpl in Hin; intuition discriminate |].
    intros _ _ Hres. inversion Hres as [| ? ? Hr _]. discriminate Hr.
  - split; [reflexivity |]. split; [reflexivity |].
    split; [intros _ data saved Hin; simpl in Hin; intuition discriminate |].
    intros [Hv _]. congruence.
  - split; [reflexivity |]. split; [reflexivity |].
    split; [intros _ data saved Hin; simpl in Hin; intuition discriminate |].
    intros [_ Hv]. congruence.
  - split; [reflexivity |]. split; [reflexivity |].
    split; [intros _ data saved Hin; simpl in Hin; intuition discriminate |].
    intros _ _ Hres. inversion Hres as [| ? ? _ Hres'].
    inversion Hres' as [| ? ? Hr _]. discriminate Hr.
  - exfalso. apply upload_run_returned in Hup.
    destruct Hup as (sent & image & rest & ups' & e & dels & _ & -> & _).
    apply (Hnofail image e). right. apply in_or_app. right.
    apply in_or_app. right. now left.
  - destruct (Hdone' _ _ tr [] Hdone (or_intror eq_refl)) as [Hd Hh].
    rewrite app_nil_r in Hd, Hh.
    destruct (POST_uploaded_facts Hdone) as ((rest & Hrest & Hext) & _ & _ & Hup & Hlen).
    destruct (POST_uploaded_history Hdone) as (items & Hitems & Hcalls & _).
    split; [exact Hd |]. split; [exact Hh |]. split.
    + intros _ data saved Hin. rewrite Hrest in Hin.
      destruct Hin as [Hin | Hin]; [discriminate |].
      eapply external_not_created; eassumption.
    + intros _ _ _. split; [reflexivity |]. rewrite Hitems. simpl.
      split; [exact Hcalls |].
      rewrite Hup, Hlen, Hitems. reflexivity.
  - destruct (Hdone' _ _ tr'
                [Ev (createReport
                       (report_data (trim t) (trim d)
                          (Body.category (Request.body request)) finalLocation
                          uploadedImages (POST_userId request))) (Failed e0)]
                Hdone) as [Hdl Hh]; [left; now eexists _, _ |].
    split; [exact Hdl |]. split; [exact Hh |]. split.
    + intros _ data saved Hin.
      destruct (POST_uploaded_facts Hdone) as ((rest & Hrest & Hext) & _).
      apply in_app_or in Hin. destruct Hin as [Hin | [Hin | []]];
        [| discriminate].
      rewrite Hrest in Hin. destruct Hin as [Hin | Hin]; [discriminate |].
      eapply external_not_created; eassumption.
    + intros _ Hstr. exfalso. apply (Hstr t d). now split.
  - destruct (Hdone' _ _ tr'
                [Ev (createReport
                       (report_data (trim t) (trim d)
                          (Body.category (Request.body request)) finalLocation
                          uploadedImages (POST_userId request))) (Saved saved)]
                Hdone) as [Hdl Hh]; [left; now eexists _, _ |].
    split; [exact Hdl |]. split; [exact Hh |]. split.
    + intros Hstatus. now contradiction Hstatus.
    + intros _ Hstr. exfalso. apply (Hstr t d). now split.
  - split; [reflexivity |]. split; [reflexivity |].
    split; [intros _ data saved Hin; simpl in Hin; intuition discriminate |].
    intros Hv. exfalso. now apply (valid_readable Hv).
Qed.

End Creating.

(* ================================================================== *)
(** ** The order of deletions in [PATCH] and [DELETE] *)

Section Ordering.

Variable env : oracle.

Lemma on_host_follows (tr : list event) (e : event) :
  Forall is_deletion tr -> In e tr -> follows_deletions (ev_call e) = false.
Proof.
  intros H Hin. rewrite Forall_forall in H. specialize (H _ Hin).
  destruct e as [[] r]; simpl in *; try contradiction; reflexivity.
Qed.

Lemma located_follows (location address : value) (c : completion value)
    (geo : list event) (e : event) :
  located location address c geo -> In e geo -> follows_deletions (ev_call e) = false.
Proof.
  intros [] Hin; simpl in Hin; try contradiction;
    destruct Hin as [<- | []]; reflexivity.
Qed.

Lemma located_off_host (location address : value) (c : completion value)
    (geo : list event) :
  located location address c geo -> Forall (fun e => ~ on_image_host e) geo.
Proof. intros []; repeat constructor; simpl; auto. Qed.

(** X8.  [PATCH] asks the image host to delete every entry of
    [imagesToDelete], in order and whatever the stored report holds, before
    it uploads anything and before it updates the report: a request that
    reaches an upload or the update has made these deletion calls already,
    and before them no call to the image host.  So when an upload then fails
    and nothing is written, the listed images were already removed from the
    host. *)
Theorem PATCH_deletes_listed_images_first (request : Request.t) (id : string)
    (c : completion Empty_set) (tr : list event) (e : event) :
  handle env (PATCH request id) = (c, tr) ->
  In e tr ->
  follows_deletions (ev_call e) = true ->
  exists pre dels rest,
    tr = (pre ++ dels ++ rest)%list
    /\ In e rest
    /\ Forall (fun e => ~ on_image_host e) pre
    /\ Forall is_deletion dels
    /\ map ev_call dels
       = map deleteImage (nonempty_items (Body.imagesToDelete (Request.body request))).
Proof.
  intros H Hin Hfollows. apply PATCH_runs in H.
  assert (Hsplit : forall currentReport finalLocation geo dels rest,
             located (Body.location (Request.body request))
               (Body.address (Request.body request)) (Normal finalLocation) geo ->
             Forall is_deletion dels ->
             map ev_call dels
             = map deleteImage
                 (nonempty_items (Body.imagesToDelete (Request.body request))) ->
             tr = (connected :: found id (Some currentReport) :: geo ++ dels ++ rest)%list ->
             exists pre dels rest,
               tr = (pre ++ dels ++ rest)%list
               /\ In e rest
               /\ Forall (fun e => ~ on_image_host e) pre
               /\ Forall is_deletion dels
               /\ map ev_call dels
                  = map deleteImage
                      (nonempty_items (Body.imagesToDelete (Request.body request)))).
  { intros currentReport finalLocation geo dels rest Hloc Hdels Hcalls Htr.
    exists (connected :: found id (Some currentReport) :: geo), dels, rest.
    split; [now rewrite Htr |]. split; [| split; [| split; assumption]].
    - rewrite Htr in Hin.
      destruct Hin as [<- | [<- | Hin]]; try discriminate Hfollows.
      apply in_app_or in Hin. destruct Hin as [Hin | Hin].
      + rewrite (@located_follows _ _ _ _ e Hloc Hin) in Hfollows. discriminate.
      + apply in_app_or in Hin. destruct Hin as [Hin | Hin]; [| exact Hin].
        rewrite (@on_host_follows _ e Hdels Hin) in Hfollows. discriminate.
    - constructor; [simpl; auto |]. constructor; [simpl; auto |].
      eapply located_off_host; eassumption. }
  inversion H as [e0 | Hid | Hid Hauth | e0 Hid Hauth | Hid Hauth
                 | report Hid Hauth Hnone
                 | report u' Hid Hauth Hu' Hneq'
                 | report Hadm Hcat
                 | report e0 Hadm Hcat Hg
                 | report finalLocation geo dels response ups
                     Hadm Hcat Hloc Hdels Hdcalls Hup
                 | report finalLocation uploadedNewImages tr' e0 Hdone
                 | report finalLocation uploadedNewImages tr' Hdone
                 | report finalLocation uploadedNewImages tr' updatedReport
                     Hdone Hnone
                 | report finalLocation uploadedNewImages tr' updatedReport
                     formatted Hdone Hfmt
                 | Hvalid_id Hunread];
    subst;
    try (exfalso; simpl in Hin;
         repeat (destruct Hin as [Hin | Hin]; [subst e; discriminate Hfollows |]);
         contradiction);
    try (destruct Hdone as (_ & _ & geo & dels & ups & -> & Hloc & Hdels & Hdcalls & _);
         eapply Hsplit; eauto;
         simpl; now rewrite <- !app_assoc).
  eapply Hsplit; eauto.
Qed.

(** X9.  [DELETE] removes the images before the report.  A request that
    calls [deleteReportIfOwner] does so once, as its last call, for the
    identifier of the route and the caller's identity, after the lookup found
    a report that the caller owns and after one deletion call for each
    image of that report (for a report with an empty [images] array, for
    its [imageUrl] if it has one).  The answer is 200 exactly when the call
    resolved with [true]; after a [false] or a failure the answer is 500
    although the deletions on the image host were made. *)
Theorem DELETE_removes_images_before_report (request : Request.t) (id : string)
    (c : completion Empty_set) (tr : list event) (id' userId : string) (r : reply) :
  handle env (DELETE request id) = (c, tr) ->
  In (Ev (deleteReportIfOwner id' userId) r) tr ->
  id' = id /\ userId = request_userId request
  /\ exists report dels,
       tr = (connected :: found id (Some report)
               :: dels ++ [Ev (deleteReportIfOwner id userId) r])%list
       /\ DELETE_admitted request id report
       /\ Forall is_deletion dels
       /\ map ev_call dels = map deleteImage (image_deletions report)
       /\ (forall img images,
             Report.images report = Some (img :: images) ->
             image_deletions report = map (fun i => VStr (publicId i)) (img :: images))
       /\ c = Returned (DELETE_answer r)
       /\ (status_of c = 200 <-> r = Removed true)
       /\ (r <> Removed true -> status_of c = 500).
Proof.
  intros H Hin. apply DELETE_runs in H.
  inversion H as [e0 | Hid | Hid Hauth | e0 Hid Hauth | Hid Hauth
                 | report Hid Hauth Hnone | report u Hid Hauth Hu Hneq
                 | report dels r0 Hadm Hdels Hcalls Hr];
    subst; try (simpl in Hin; intuition discriminate).
  destruct Hin as [Hin | [Hin | Hin]]; try discriminate.
  apply in_app_or in Hin. destruct Hin as [Hin | [Hin | []]].
  - exfalso. rewrite Forall_forall in Hdels. exact (Hdels _ Hin).
  - injection Hin as <- <- <-.
    split; [reflexivity |]. split; [reflexivity |].
    exists report, dels.
    split; [reflexivity |]. split; [exact Hadm |]. split; [exact Hdels |].
    split; [exact Hcalls |]. split; [| split; [reflexivity |]].
    + intros img images Himages. unfold image_deletions. now rewrite Himages.
    + destruct Hr as [[[] ->] | [e ->]]; simpl; repeat split; intros;
        congruence.
Qed.

End Ordering.

(* ================================================================== *)
(** ** Reading reports *)

Lemma wants_reviews_true (request : Request.t) :
  wants_reviews request = true
  <-> get (Request.searchParams request) "includeReviews" = Some "true".
Proof.
  unfold wants_reviews.
  destruct (get (Request.searchParams request) "includeReviews") as [s |].
  - rewrite String.eqb_eq. split; congruence.
  - split; discriminate.
Qed.

(** The reviews are mapped one to one, in order; the mapping fails exactly
    on a review without author. *)
Lemma formatted_reviews_some (reviews : list Review) (rs : list FormattedReview) :
  formatted_reviews reviews = Some rs ->
  map fr_id rs = map review_id reviews
  /\ map fr_comment rs = map comment reviews
  /\ map fr_upvote rs = map upvote reviews
  /\ map fr_createdAt rs = map review_createdAt reviews
  /\ map (fun r => Some (fr_author r)) rs = map author reviews.
Proof.
  revert rs. induction reviews as [| review rest IH]; intros rs H; simpl in H.
  - injection H as <-. repeat split.
  - destruct (author review) as [a |] eqn:Ha; [| discriminate].
    destruct (formatted_reviews rest) as [done |]; [| discriminate].
    injection H as <-. destruct (IH done eq_refl) as (H1 & H2 & H3 & H4 & H5).
    simpl. rewrite H1, H2, H3, H4, H5, Ha. destruct a. repeat split.
Qed.

Lemma formatted_reviews_none (reviews : list Review) :
  formatted_reviews reviews = None
  <-> exists review, In review reviews /\ author review = None.
Proof.
  induction reviews as [| review rest IH]; simpl.
  - split; [discriminate | intros (? & [] & _)].
  - destruct (author review) as [a |] eqn:Ha.
    + destruct (formatted_reviews rest) as [done |].
      * split; [discriminate |].
        intros (review' & [<- | Hin] & Hnone); [congruence |].
        destruct IH as [_ IH]. discriminate IH. now exists review'.
      * split; [| reflexivity]. intros _.
        destruct IH as [IH _]. destruct (IH eq_refl) as (review' & Hin & Hnone).
        exists review'. auto.
    + split; [| reflexivity]. intros _. exists review. auto.
Qed.

Section Reads.

Variable env : oracle.

Lemma GET_list_quiet (request : Request.t) :
  Forall (fun e => has_effect (ev_call e) = false)
    (snd (handle env (GET_list request)))
  /\ (List.length (snd (handle env (GET_list request))) <= 2)%nat.
Proof.
  pose proof (GET_list_steps env request) as Hlist. cbv zeta in Hlist.
  rewrite Hlist.
  destruct (env [] connectToDatabase) as [[] | e0];
    [| split; repeat constructor].
  destruct (_ || _); [split; repeat constructor |].
  destruct (env [connected] _); split; repeat constructor.
Qed.

(** X10.  The two [GET] handlers only read: neither makes a call to the
    geocoder or the image host or a call that writes to the stored reports,
    and each makes two calls at most, the connection and one query.  The
    lookup of a single report is made only for an identifier that is not
    empty, ["undefined"] or ["null"], for the identifier of the route, and
    it is told whether reviews are wanted. *)
Theorem GET_handlers_only_read (request : Request.t) (id : string) :
  Forall (fun e => has_effect (ev_call e) = false) (snd (handle env (GET request id)))
  /\ Forall (fun e => has_effect (ev_call e) = false)
       (snd (handle env (GET_list request)))
  /\ (List.length (snd (handle env (GET request id))) <= 2)%nat
  /\ (List.length (snd (handle env (GET_list request))) <= 2)%nat
  /\ (forall id' flag r,
        In (Ev (getReportById id' flag) r) (snd (handle env (GET request id))) ->
        id' = id /\ invalid_id id = false /\ flag = Some (wants_reviews request)).
Proof.
  destruct (GET_list_quiet request) as [Hquiet Hlen].
  split; [| split; [exact Hquiet | split; [| split; [exact Hlen |]]]];
    rewrite GET_run;
    destruct (env [] connectToDatabase) as [[] | e0]; simpl;
    try (repeat constructor; fail);
    try (intros id' flag r [Hin | []]; discriminate);
    destruct (invalid_id id) eqn:Hid; simpl;
    try (repeat constructor; fail);
    try (intros id' flag r [Hin | []]; discriminate);
    destruct (env [connected] (getReportById id (Some (wants_reviews request))))
      as [[report |] | e]; simpl;
    try (repeat constructor; fail);
    intros id' flag r [Hin | [Hin | []]]; try discriminate;
    injection Hin as <- <- _; auto.
Qed.

End Reads.

(** The answer of [GET] for a found report: 200 with the projection of the
    report, or 500 when the owner or the author of a wanted review is
    missing. *)
Lemma GET_answer_cases (includeReviews : bool) (report : Report.t) :
  (status (GET_answer includeReviews report) = 500
   <-> Report.createdBy report = None
       \/ (includeReviews = true
           /\ exists reviews review,
                Report.reviews report = Some reviews
                /\ In review reviews /\ author review = None))
  /\ (forall f,
        GET_answer includeReviews report = json (ReportBody f) 200 ->
        Formatted._id f = Report._id report
        /\ Report.createdBy report = Some (Formatted.createdBy f)
        /\ Formatted.images f
           = match Report.images report with Some l => l | None => [] end
        /\ match Formatted.reviews f with
           | None => includeReviews = false \/ Report.reviews report = None
           | Some rs =>
               includeReviews = true
               /\ exists reviews,
                    Report.reviews report = Some reviews
                    /\ map fr_id rs = map review_id reviews
                    /\ map fr_comment rs = map comment reviews
                    /\ map (fun r => Some (fr_author r)) rs = map author reviews
           end).
Proof.
  unfold GET_answer.
  destruct (Report.createdBy report) as [u |] eqn:Hu.
  2: { split; [split; auto | discriminate]. }
  assert (Hplain : forall f,
             json (ReportBody (projection report u)) 200 = json (ReportBody f) 200 ->
             Formatted._id f = Report._id report
             /\ Some u = Some (Formatted.createdBy f)
             /\ Formatted.images f
                = match Report.images report with Some l => l | None => [] end
             /\ Formatted.reviews f = None).
  { intros f Hf. injection Hf as <-. simpl. destruct u. repeat split. }
  destruct (Report.reviews report) as [reviews |] eqn:Hreviews.
  2: { split.
       - split; [discriminate |].
         intros [Hnone | (_ & reviews & review & Hsome & _)]; discriminate.
       - intros f Hf. destruct (Hplain f Hf) as (H1 & H2 & H3 & ->). auto. }
  destruct includeReviews.
  2: { split.
       - split; [discriminate |].
         intros [Hnone | (Hinc & _)]; discriminate.
       - intros f Hf. destruct (Hplain f Hf) as (H1 & H2 & H3 & ->). auto. }
  destruct (formatted_reviews reviews) as [rs |] eqn:Hrs.
  - split.
    + split; [discriminate |].
      intros [Hnone | (_ & reviews' & review & Hsome & Hin & Hauthor)];
        [discriminate |].
      injection Hsome as <-.
      assert (Hfail : formatted_reviews reviews = None).
      { apply formatted_reviews_none. now exists review. }
      congruence.
    + intros f Hf. injection Hf as <-. simpl.
      destruct (formatted_reviews_some _ Hrs) as (H1 & H2 & _ & _ & H5).
      destruct u. repeat split. exists reviews. auto.
  - split; [| discriminate].
    split; [| reflexivity]. intros _. right. split; [reflexivity |].
    apply formatted_reviews_none in Hrs. destruct Hrs as (review & Hin & Hnone).
    now exists reviews, review.
Qed.

Section Lookups.

Variable env : oracle.

Lemma GET_found (request : Request.t) (id : string) (c : completion Empty_set)
    (tr : list event) (flag : option bool) (report : Report.t) :
  handle env (GET request id) = (c, tr) ->
  In (Ev (getReportById id flag) (Found (Some report))) tr ->
  c = Returned (GET_answer (wants_reviews request) report)
  /\ tr = [connected; Ev (getReportById id (Some (wants_reviews request)))
                         (Found (Some report))].
Proof.
  rewrite GET_run.
  destruct (env [] connectToDatabase) as [[] | e0].
  2: { intros H. injection H as <- <-. intros [Hin | []]. discriminate. }
  destruct (invalid_id id).
  { intros H. injection H as <- <-. intros [Hin | []]. discriminate. }
  destruct (env [connected] (getReportById id (Some (wants_reviews request))))
    as [[report' |] | e]; intros H; injection H as <- <-;
    intros [Hin | [Hin | []]]; try discriminate.
  injection Hin as _ <-. auto.
Qed.

(** X11.  [GET] answers a found report with 200 and its projection: the
    report's identifier, its owner, its images (an empty array when the
    report has none).  Reviews are attached only when the parameter
    [includeReviews] is exactly ["true"] and the report carries reviews;
    then there is one entry per review, in order.  The answer is 500
    instead exactly when the report has no owner, or reviews are wanted and
    one of them has no author. *)
Theorem GET_attaches_reviews_on_request (request : Request.t) (id : string)
    (c : completion Empty_set) (tr : list event) (flag : option bool)
    (report : Report.t) :
  handle env (GET request id) = (c, tr) ->
  In (Ev (getReportById id flag) (Found (Some report))) tr ->
  (status_of c = 200 \/ status_of c = 500)
  /\ (status_of c = 500
      <-> Report.createdBy report = None
          \/ (get (Request.searchParams request) "includeReviews" = Some "true"
              /\ exists reviews review,
                   Report.reviews report = Some reviews
                   /\ In review reviews /\ author review = None))
  /\ (forall f,
        c = Returned (json (ReportBody f) 200) ->
        Formatted._id f = Report._id report
        /\ Report.createdBy report = Some (Formatted.createdBy f)
        /\ Formatted.images f
           = match Report.images report with Some l => l | None => [] end
        /\ match Formatted.reviews f with
           | None =>
               get (Request.searchParams request) "includeReviews" <> Some "true"
               \/ Report.reviews report = None
           | Some rs =>
               get (Request.searchParams request) "includeReviews" = Some "true"
               /\ exists reviews,
                    Report.reviews report = Some reviews
                    /\ map fr_id rs = map review_id reviews
                    /\ map fr_comment rs = map comment reviews
                    /\ map (fun r => Some (fr_author r)) rs = map author reviews
           end).
Proof.
  intros H Hin. destruct (GET_found _ _ H Hin) as [-> _].
  destruct (GET_answer_cases (wants_reviews request) report) as [H500 Hbody].
  split; [apply GET_answer_status |]. split.
  - simpl. rewrite H500, wants_reviews_true. reflexivity.
  - intros f Hf. injection Hf as Hf.
    destruct (Hbody f Hf) as (H1 & H2 & H3 & H4).
    split; [exact H1 |]. split; [exact H2 |]. split; [exact H3 |].
    destruct (Formatted.reviews f) as [rs |].
    + destruct H4 as [Hw H4]. split; [now apply wants_reviews_true | exact H4].
    + destruct H4 as [Hw | H4]; [left | now right].
      rewrite <- wants_reviews_true. congruence.
Qed.

Lemma lookup_not_external (tr : list event) (id : string) (flag : option bool)
    (r : reply) :
  Forall external tr -> ~ In (Ev (getReportById id flag) r) tr.
Proof.
  intros H Hin. rewrite Forall_forall in H. specialize (H _ Hin). discriminate.
Qed.

Lemma PATCH_lookup (request : Request.t) (id : string) (c : completion Empty_set)
    (tr : list event) (flag : option bool) (report : Report.t) :
  PATCH_run request id c tr ->
  In (Ev (getReportById id flag) (Found (Some report))) tr ->
  (Report.createdBy report = None
   /\ c = Returned internal_error
   /\ tr = [connected; found id (Some report)])
  \/ (exists u, Report.createdBy report = Some u).
Proof.
  assert (Hsame : forall currentReport rest,
             Forall external rest ->
             In (Ev (getReportById id flag) (Found (Some report)))
                (connected :: found id (Some currentReport) :: rest) ->
             report = currentReport).
  { intros currentReport rest Hext [Hin | [Hin | Hin]]; try discriminate.
    - injection Hin as _ <-. reflexivity.
    - now apply lookup_not_external in Hin. }
  assert (Hdone : forall currentReport finalLocation uploadedNewImages tr0 l,
             PATCH_uploaded request id currentReport finalLocation
               uploadedNewImages tr0 ->
             (forall e, In e l -> is_write (ev_call e) = true) ->
             In (Ev (getReportById id flag) (Found (Some report))) (tr0 ++ l) ->
             exists u, Report.createdBy report = Some u).
  { intros currentReport finalLocation uploadedNewImages tr0 l Hdone Hl Hin.
    destruct (PATCH_uploaded_facts Hdone) as ((rest & -> & Hext) & _).
    destruct Hdone as ((_ & _ & u & Hu & _) & _).
    apply in_app_or in Hin. destruct Hin as [Hin | Hin].
    - rewrite (Hsame _ _ Hext Hin). now exists u.
    - apply Hl in Hin. discriminate. }
  intros H Hin.
  destruct H as [e0 | Hid | Hid Hauth | e0 Hid Hauth | Hid Hauth
                | currentReport Hid Hauth Hnone
                | currentReport u' Hid Hauth Hu' Hneq'
                | currentReport Hadm Hcat
                | currentReport e0 Hadm Hcat Hg
                | currentReport finalLocation geo dels response ups
                    Hadm Hcat Hloc Hdels Hdcalls Hup
                | currentReport finalLocation uploadedNewImages tr e0 Hdone'
                | currentReport finalLocation uploadedNewImages tr Hdone'
                | currentReport finalLocation uploadedNewImages tr updatedReport
                    Hdone' Hnone
                | currentReport finalLocation uploadedNewImages tr updatedReport
                    formatted Hdone' Hfmt
                 | Hvalid_id Hunread];
    try (simpl in Hin; intuition discriminate);
    try (right; eapply Hdone; eauto;
         intros e [<- | []]; reflexivity).
  - rewrite (Hsame currentReport [] (Forall_nil _) Hin). auto.
  - rewrite (Hsame currentReport [] (Forall_nil _) Hin). right. now exists u'.
  - rewrite (Hsame currentReport [] (Forall_nil _) Hin).
    destruct Hadm as (_ & _ & u & Hu & _). right. now exists u.
  - destruct Hin as [Hin | [Hin | [Hin | []]]]; try discriminate.
    injection Hin as _ <-.
    destruct Hadm as (_ & _ & u & Hu & _). right. now exists u.
  - assert (Hext : Forall external (geo ++ dels ++ ups)).
    { apply Forall_app. split; [eapply located_external; eassumption |].
      apply Forall_app. split;
        [now apply deletion_external | eapply upload_run_external; eassumption]. }
    rewrite (Hsame currentReport _ Hext Hin).
    destruct Hadm as (_ & _ & u & Hu & _). right. now exists u.
Qed.

Lemma DELETE_lookup (request : Request.t) (id : string) (c : completion Empty_set)
    (tr : list event) (flag : option bool) (report : Report.t) :
  DELETE_run request id c tr ->
  In (Ev (getReportById id flag) (Found (Some report))) tr ->
  (Report.createdBy report = None
   /\ c = Returned internal_error
   /\ tr = [connected; found id (Some report)])
  \/ (exists u, Report.createdBy report = Some u).
Proof.
  intros H Hin.
  destruct H as [e0 | Hid | Hid Hauth | e0 Hid Hauth | Hid Hauth
                | report' Hid Hauth Hnone | report' u Hid Hauth Hu Hneq
                | report' dels r Hadm Hdels Hcalls Hr];
    try (simpl in Hin; intuition discriminate).
  - destruct Hin as [Hin | [Hin | []]]; try discriminate.
    injection Hin as _ <-. auto.
  - destruct Hin as [Hin | [Hin | []]]; try discriminate.
    injection Hin as _ <-. right. now exists u.
  - destruct Hin as [Hin | [Hin | Hin]]; try discriminate.
    + injection Hin as _ <-. destruct Hadm as (_ & _ & u & Hu & _).
      right. now exists u.
    + exfalso. apply in_app_or in Hin. destruct Hin as [Hin | [Hin | []]];
        [| discriminate].
      rewrite Forall_forall in Hdels. exact (Hdels _ Hin).
Qed.

(** X12.  A report whose owner is missing (its [createdBy] did not
    populate) is shown in the list, under the name ["Unknown"], but cannot
    be served, edited or deleted: [GET], [PATCH] and [DELETE] answer 500 as
    soon as the lookup returns it, without any effect. *)
Theorem ownerless_report_is_listed_but_not_served (request : Request.t)
    (id : string) (c : completion Empty_set) (tr : list event)
    (flag : option bool) (report : Report.t) :
  Report.createdBy report = None ->
  handle env (GET request id) = (c, tr)
  \/ handle env (PATCH request id) = (c, tr)
  \/ handle env (DELETE request id) = (c, tr) ->
  In (Ev (getReportById id flag) (Found (Some report))) tr ->
  c = Returned internal_error
  /\ List.length tr = 2%nat
  /\ Forall (fun e => has_effect (ev_call e) = false) tr
  /\ Summary.createdBy (format_summary report) = "Unknown".
Proof.
  intros Hnone H Hin.
  assert (Hlisted : Summary.createdBy (format_summary report) = "Unknown").
  { unfold format_summary. simpl. now rewrite Hnone. }
  destruct H as [H | [H | H]].
  - destruct (GET_found _ _ H Hin) as [-> ->].
    unfold GET_answer. rewrite Hnone. repeat split; auto; repeat constructor.
  - apply PATCH_runs in H.
    destruct (@PATCH_lookup _ _ _ _ _ _ H Hin) as [(_ & -> & ->) | [u Hu]]; [| congruence].
    repeat split; auto; repeat constructor.
  - apply DELETE_runs in H.
    destruct (@DELETE_lookup _ _ _ _ _ _ H Hin) as [(_ & -> & ->) | [u Hu]]; [| congruence].
    repeat split; auto; repeat constructor.
Qed.

(** X13.  The list handler queries within bounds.  It calls [getAllReports]
    at most once, as its last call, with a page of 1 or more and a limit
    between 1 and 100, the defaults 1 and 20 standing in for a missing
    parameter; with a category filter only for a non-empty [category]
    parameter; and with a [resolved] filter whenever the parameter is there,
    which is [true] only for the literal ["true"] and [false] for any other
    text. *)
Theorem GET_list_queries_within_bounds (request : Request.t)
    (c : completion Empty_set) (tr : list event) (options : ListOptions.t)
    (r : reply) :
  handle env (GET_list request) = (c, tr) ->
  In (Ev (getAllReports options) r) tr ->
  tr = [connected; Ev (getAllReports options) r]
  /\ 1 <= ListOptions.page options
  /\ 1 <= ListOptions.limit options <= 100
  /\ (get (Request.searchParams request) "page" = None -> ListOptions.page options = 1)
  /\ (get (Request.searchParams request) "limit" = None ->
      ListOptions.limit options = 20)
  /\ (forall category,
        ListOptions.category options = Some category
        <-> get (Request.searchParams request) "category" = Some category
            /\ category <> "")
  /\ (forall b,
        ListOptions.resolved options = Some b
        <-> exists text,
              get (Request.searchParams request) "resolved" = Some text
              /\ b = (text =? "true")%string).
Proof.
  pose proof (GET_list_steps env request) as Hlist. cbv zeta in Hlist.
  rewrite Hlist. clear Hlist.
  destruct (env [] connectToDatabase) as [[] | e0].
  2: { intros H. injection H as <- <-. intros [Hin | []]. discriminate. }
  destruct (_ || _) eqn:Hrange.
  { intros H. injection H as <- <-. intros [Hin | []]. discriminate. }
  apply orb_false_iff in Hrange. destruct Hrange as [Hrange Hmax].
  apply orb_false_iff in Hrange. destruct Hrange as [Hpage Hmin].
  apply Z.ltb_ge in Hpage, Hmin. rewrite Z.gtb_ltb in Hmax. apply Z.ltb_ge in Hmax.
  assert (Hoptions :
            forall r0,
              In (Ev (getAllReports options) r)
                 [connected;
                  Ev (getAllReports
                        (list_options
                           (parseInt_or (get (Request.searchParams request) "page") 1)
                           (parseInt_or (get (Request.searchParams request) "limit") 20)
                           (get (Request.searchParams request) "category")
                           (get (Request.searchParams request) "resolved"))) r0] ->
              options
              = list_options
                  (parseInt_or (get (Request.searchParams request) "page") 1)
                  (parseInt_or (get (Request.searchParams request) "limit") 20)
                  (get (Request.searchParams request) "category")
                  (get (Request.searchParams request) "resolved")
              /\ r = r0).
  { intros r0 [Hin | [Hin | []]]; [discriminate |].
    injection Hin as <- <-. auto. }
  assert (Hfacts :
            forall r0,
              In (Ev (getAllReports options) r)
                 [connected;
                  Ev (getAllReports
                        (list_options
                           (parseInt_or (get (Request.searchParams request) "page") 1)
                           (parseInt_or (get (Request.searchParams request) "limit") 20)
                           (get (Request.searchParams request) "category")
                           (get (Request.searchParams request) "resolved"))) r0] ->
              [connected;
               Ev (getAllReports
                     (list_options
                        (parseInt_or (get (Request.searchParams request) "page") 1)
                        (parseInt_or (get (Request.searchParams request) "limit") 20)
                        (get (Request.searchParams request) "category")
                        (get (Request.searchParams request) "resolved"))) r0]
              = [connected; Ev (getAllReports options) r]
              /\ 1 <= ListOptions.page options
              /\ 1 <= ListOptions.limit options <= 100
              /\ (get (Request.searchParams request) "page" = None ->
                  ListOptions.page options = 1)
              /\ (get (Request.searchParams request) "limit" = None ->
                  ListOptions.limit options = 20)
              /\ (forall category,
                    ListOptions.category options = Some category
                    <-> get (Request.searchParams request) "category" = Some category
                        /\ category <> "")
              /\ (forall b,
                    ListOptions.resolved options = Some b
                    <-> exists text,
                          get (Request.searchParams request) "resolved" = Some text
                          /\ b = (text =? "true")%string)).
  { intros r0 Hin. destruct (Hoptions r0 Hin) as [-> ->]. simpl.
    split; [reflexivity |]. split; [exact Hpage |]. split; [lia |].
    split; [now intros -> |]. split; [now intros -> |]. split.
    - intros category.
      destruct (get (Request.searchParams request) "category") as [cat |].
      + destruct (String.eqb_spec cat "") as [-> | Hne].
        * split; [discriminate | intros [Heq Hne]; congruence].
        * split; [intros Heq; injection Heq as <-; auto | intros [Heq _]; exact Heq].
      + split; [discriminate | intros [Heq _]; discriminate].
    - intros b.
      destruct (get (Request.searchParams request) "resolved") as [text |].
      + split.
        * intros Heq. injection Heq as <-. now exists text.
        * intros (text' & Heq & ->). injection Heq as <-. reflexivity.
      + split; [discriminate | intros (text' & Heq & _); discriminate]. }
  destruct (env [connected] _) as [result | e]; intros H; injection H as <- <-;
    apply Hfacts.
Qed.

(** X14.  The list handler answers a query that resolved with 200, one
    summary per report of the result, in order, and the pagination of the
    result as it is; it does not cut the result down to the limit itself.
    A summary shows the report's [imageUrl] as [thumbnail], ["resolved"] or
    ["pending"] as status, and the owner's name, or ["Unknown"] when the owner
    or the name is missing.  A query
    that failed is answered 500. *)
Theorem GET_list_summarises_each_report (request : Request.t)
    (c : completion Empty_set) (tr : list event) (options : ListOptions.t)
    (r : reply) :
  handle env (GET_list request) = (c, tr) ->
  In (Ev (getAllReports options) r) tr ->
  (forall e, r = Failed e -> c = Returned internal_error)
  /\ (forall result,
        r = Listed result ->
        exists summaries,
          c = Returned (json (ListBody summaries (pagination result)) 200)
          /\ List.length summaries = List.length (reports result)
          /\ map Summary._id summaries = map Report._id (reports result)
          /\ map Summary.thumbnail summaries = map Report.imageUrl (reports result)
          /\ map Summary.status summaries
             = map (fun report => if Report.resolved report then "resolved" else "pending")
                   (reports result)
          /\ map Summary.createdBy summaries
             = map (fun report =>
                      match Report.createdBy report with
                      | Some u => if (username u =? "")%string then "Unknown" else username u
                      | None => "Unknown"
                      end) (reports result)).
Proof.
  pose proof (GET_list_steps env request) as Hlist. cbv zeta in Hlist.
  rewrite Hlist. clear Hlist.
  destruct (env [] connectToDatabase) as [[] | e0].
  2: { intros H. injection H as <- <-. intros [Hin | []]. discriminate. }
  destruct (_ || _).
  { intros H. injection H as <- <-. intros [Hin | []]. discriminate. }
  destruct (env [connected] _) as [result | e]; intros H; injection H as <- <-;
    intros [Hin | [Hin | []]]; try discriminate; injection Hin as _ <-.
  - split; [discriminate |]. intros result' Hr. injection Hr as <-.
    eexists. split; [reflexivity |].
    rewrite length_map, !map_map. repeat split.
    apply map_ext. intros report. simpl.
    destruct (Report.createdBy report) as [u |]; reflexivity.
  - split; [| discriminate]. intros e' Hr. reflexivity.
Qed.

End Lookups.

(* ================================================================== *)
(** ** The data-access functions *)

(** Every event of a run records what the environment answered to its
    call at some point of the request. *)
Lemma run_answered (env : oracle) (A : Type) (p : prog A) :
  forall past,
    Forall (fun e => exists past',
                ev_reply e = reply_of (ev_call e) (env past' (ev_call e)))
           (snd (run env p past)).
Proof.
  induction p as [a | r | e | c k IH]; intros past; simpl; try constructor.
  - now exists past.
  - apply IH.
Qed.

Section DataAccess.

Variable db : Dal.database.

(** [catch (error) { throw error; }] changes nothing. *)
Lemma exec_rethrow (A : Type) (t : Dal.task A) (past : list Dal.query) :
  Dal.exec db (Dal.catch t (fun error => Dal.Raise error)) past = Dal.exec db t past.
Proof.
  revert past. induction t as [a | e | q k IH]; intros past; simpl; try reflexivity.
  now rewrite IH.
Qed.

(** [deleteReportIfOwner] step by step. *)
Lemma deleteReportIfOwner_run (reportId userId : string) :
  Dal.exec db (Dal.deleteReportIfOwner reportId userId) [] =
  match db [] (Dal.findById reportId) with
  | Rejected e => (Rejected e, [Dal.findById reportId])
  | Resolved None => (Resolved false, [Dal.findById reportId])
  | Resolved (Some report) =>
      match Dal.createdBy report with
      | None =>
          (Rejected (TypeError "Cannot read properties of undefined (reading 'toString')"),
           [Dal.findById reportId])
      | Some owner =>
          if (owner =? userId)%string then
            (match db [Dal.findById reportId] (Dal.findByIdAndDelete reportId) with
             | Resolved _ => Resolved true
             | Rejected e => Rejected e
             end,
             [Dal.findById reportId; Dal.findByIdAndDelete reportId])
          else (Resolved false, [Dal.findById reportId])
      end
  end.
Proof.
  unfold Dal.deleteReportIfOwner. rewrite exec_rethrow. simpl.
  destruct (db [] (Dal.findById reportId)) as [[report |] | e]; simpl;
    try reflexivity.
  unfold Dal.owner_string.
  destruct (Dal.createdBy report) as [owner |]; simpl; [| reflexivity].
  destruct (owner =? userId)%string; simpl; [| reflexivity].
  now destruct (db [Dal.findById reportId] (Dal.findByIdAndDelete reportId)).
Qed.

(** X15.  [deleteReportIfOwner] deletes only for the owner.  It asks the
    model to delete at most once, only the document it was called for, and
    only after [findById] resolved with a document whose [createdBy] is the
    caller's identifier.  It resolves with [true] exactly when that deletion
    query was made and resolved (with whatever result), and with [false],
    having deleted nothing, when the document is not there or belongs to
    someone else.  It rejects with the error of a query that failed, passed
    on as it is, or with a [TypeError] for a document without [createdBy]. *)
Theorem deleteReportIfOwner_only_for_owner (reportId userId : string)
    (out : outcome bool) (queries : list Dal.query) :
  Dal.exec db (Dal.deleteReportIfOwner reportId userId) [] = (out, queries) ->
  (forall reportId',
      In (Dal.findByIdAndDelete reportId') queries ->
      reportId' = reportId
      /\ queries = [Dal.findById reportId; Dal.findByIdAndDelete reportId]
      /\ exists report,
           db [] (Dal.findById reportId) = Resolved (Some report)
           /\ Dal.createdBy report = Some userId)
  /\ (out = Resolved true
      <-> In (Dal.findByIdAndDelete reportId) queries
          /\ exists deleted,
               db [Dal.findById reportId] (Dal.findByIdAndDelete reportId)
               = Resolved deleted)
  /\ (out = Resolved false ->
      queries = [Dal.findById reportId]
      /\ (db [] (Dal.findById reportId) = Resolved None
          \/ exists report owner,
               db [] (Dal.findById reportId) = Resolved (Some report)
               /\ Dal.createdBy report = Some owner /\ owner <> userId))
  /\ (forall e,
        out = Rejected e ->
        db [] (Dal.findById reportId) = Rejected e
        \/ db [Dal.findById reportId] (Dal.findByIdAndDelete reportId) = Rejected e
        \/ (e = TypeError "Cannot read properties of undefined (reading 'toString')"
            /\ exists report,
                 db [] (Dal.findById reportId) = Resolved (Some report)
                 /\ Dal.createdBy report = None)).
Proof.
  rewrite deleteReportIfOwner_run.
  destruct (db [] (Dal.findById reportId)) as [[report |] | e] eqn:Hfind.
  - destruct (Dal.createdBy report) as [owner |] eqn:Howner.
    + destruct (String.eqb_spec owner userId) as [-> | Hneq].
      * destruct (db [Dal.findById reportId] (Dal.findByIdAndDelete reportId))
          as [deleted | e] eqn:Hdelete;
          intros H; injection H as <- <-;
          (split; [| split; [| split]]).
        -- intros reportId' [Hin | [Hin | []]]; [discriminate |].
           injection Hin as <-. repeat split. now exists report.
        -- split; [intros _; split; [simpl; auto | now exists deleted] | reflexivity].
        -- discriminate.
        -- discriminate.
        -- intros reportId' [Hin | [Hin | []]]; [discriminate |].
           injection Hin as <-. repeat split. now exists report.
        -- split; [discriminate | intros (_ & deleted & Hd); discriminate].
        -- discriminate.
        -- intros e' He. injection He as <-. auto.
      * intros H; injection H as <- <-. split; [| split; [| split]].
        -- intros reportId' [Hin | []]. discriminate.
        -- split; [discriminate | intros ([Hin | []] & _); discriminate].
        -- intros _. split; [reflexivity |]. right. now exists report, owner.
        -- discriminate.
    + intros H; injection H as <- <-. split; [| split; [| split]].
      * intros reportId' [Hin | []]. discriminate.
      * split; [discriminate | intros ([Hin | []] & _); discriminate].
      * discriminate.
      * intros e He. injection He as <-. right. right. split; [reflexivity |].
        now exists report.
  - intros H; injection H as <- <-. split; [| split; [| split]].
    + intros reportId' [Hin | []]. discriminate.
    + split; [discriminate | intros ([Hin | []] & _); discriminate].
    + intros _. auto.
    + discriminate.
  - intros H; injection H as <- <-. split; [| split; [| split]].
    + intros reportId' [Hin | []]. discriminate.
    + split; [discriminate | intros ([Hin | []] & _); discriminate].
    + discriminate.
    + intros e' He. injection He as <-. auto.
Qed.

(** X16.  [createReport] and [getReportById] add nothing to the model's
    answer: each makes exactly one query, for the data or the identifier it
    was given, and settles as that query settled, a rejection being passed
    on with its error unchanged. *)
Theorem createReport_and_getReportById_pass_through (reportData : ReportData.t)
    (reportId : string) :
  Dal.exec db (Dal.createReport reportData) []
  = (db [] (Dal.save reportData), [Dal.save reportData])
  /\ Dal.exec db (Dal.getReportById reportId) []
     = (db [] (Dal.findById_populate reportId), [Dal.findById_populate reportId]).
Proof.
  unfold Dal.createReport, Dal.getReportById. rewrite !exec_rethrow. simpl.
  split.
  - now destruct (db [] (Dal.save reportData)).
  - now destruct (db [] (Dal.findById_populate reportId)).
Qed.

(** X17.  The two ownership checks of a deletion.  When the handler's
    [deleteReportIfOwner] is the function above, running on the database
    [db], a [DELETE] request is answered 200 only if both checks passed:
    the owner of the populated report that the handler looked up is the
    caller, and the [createdBy] of the document that the function read is
    the caller; and the model was then asked to delete that document. *)
Theorem DELETE_checks_ownership_twice (env : oracle) (request : Request.t)
    (id : string) (c : completion Empty_set) (tr : list event) :
  (forall past reportId userId,
      env past (deleteReportIfOwner reportId userId)
      = fst (Dal.exec db (Dal.deleteReportIfOwner reportId userId) [])) ->
  handle env (DELETE request id) = (c, tr) ->
  status_of c = 200 ->
  exists report u document,
    In (found id (Some report)) tr
    /\ Report.createdBy report = Some u
    /\ user_id u = request_userId request
    /\ db [] (Dal.findById id) = Resolved (Some document)
    /\ Dal.createdBy document = Some (request_userId request)
    /\ snd (Dal.exec db (Dal.deleteReportIfOwner id (request_userId request)) [])
       = [Dal.findById id; Dal.findByIdAndDelete id].
Proof.
  intros Hserved H Hstatus.
  pose proof (run_answered env (DELETE request id) []) as Hanswered.
  unfold handle in H. rewrite H in Hanswered. simpl in Hanswered.
  apply DELETE_runs in H.
  inversion H as [e0 | Hid | Hid Hauth | e0 Hid Hauth | Hid Hauth
                 | report Hid Hauth Hnone | report u Hid Hauth Hu Hneq
                 | report dels r Hadm Hdels Hcalls Hr];
    subst; try discriminate Hstatus.
  assert (Hr' : r = Removed true).
  { destruct Hr as [[[] ->] | [e ->]]; simpl in Hstatus; congruence. }
  subst r.
  destruct Hadm as (_ & _ & u & Hu & Howner).
  rewrite Forall_forall in Hanswered.
  destruct (Hanswered (Ev (deleteReportIfOwner id (request_userId request))
                          (Removed true))) as [past Hpast].
  { right. right. apply in_or_app. right. now left. }
  simpl in Hpast. rewrite Hserved in Hpast.
  pose proof (deleteReportIfOwner_run id (request_userId request)) as Hrun.
  destruct (Dal.exec db (Dal.deleteReportIfOwner id (request_userId request)) [])
    as [out queries].
  simpl in Hpast.
  destruct (db [] (Dal.findById id)) as [[document |] | e] eqn:Hfind.
  - destruct (Dal.createdBy document) as [owner |] eqn:Hcreated.
    + destruct (String.eqb_spec owner (request_userId request)) as [-> | Hneq].
      * injection Hrun as -> ->.
        exists report, u, document. repeat split; auto. simpl. auto.
      * injection Hrun as -> ->. discriminate Hpast.
    + injection Hrun as -> ->. discriminate Hpast.
  - injection Hrun as -> ->. discriminate Hpast.
  - injection Hrun as -> ->. discriminate Hpast.
Qed.

End DataAccess.

(* ================================================================== *)
(** ** The explore page *)

(** The cards of summaries: one per summary, none with a description. *)
Lemma cards_of_summaries (summaries : list Summary.t) :
  exists cs,
    Explore.cards (map Explore.summary_json summaries) = Some cs
    /\ Forall (fun c => Explore.description c = VStr "No description.") cs
    /\ map Explore.key cs = map (fun s => VStr (Summary._id s)) summaries
    /\ map Explore.title cs = map Summary.title summaries
    /\ map Explore.src cs = map (fun s => VStr (Summary.thumbnail s)) summaries
    /\ map Explore.green cs
       = map (fun s => (Summary.status s =? "resolved")%string) summaries.
Proof.
  induction summaries as [| s rest (cs & Hcs & Hdesc & Hkey & Htitle & Hsrc & Hgreen)].
  - exists []. repeat split. constructor.
  - simpl. rewrite Hcs. eexists. split; [reflexivity |].
    split; [constructor; [reflexivity | exact Hdesc] |].
    simpl. now rewrite Hkey, Htitle, Hsrc, Hgreen.
Qed.

(** X18.  [fetchReports] always ends with [loading] off.  When the request
    failed, the body was not JSON or it parsed to [null], the message
    ["Failed to load reports"] is set, the list is left as it was and the
    page shows the message.  Otherwise the list becomes the [reports]
    property of the parsed body, or the empty array when that is falsy, and
    the error message is left as it was: the function never clears it. *)
Theorem fetchReports_stops_loading (response : Explore.fetched) (s : Explore.State) :
  Explore.loading (Explore.fetchReports response s) = false
  /\ Explore.render (Explore.fetchReports response s) <> Explore.Loading
  /\ (fetch_failed response = true ->
      Explore.error (Explore.fetchReports response s) = "Failed to load reports"
      /\ Explore.reports (Explore.fetchReports response s) = Explore.reports s
      /\ Explore.render (Explore.fetchReports response s)
         = Explore.Message "Failed to load reports")
  /\ (fetch_failed response = false ->
      Explore.error (Explore.fetchReports response s) = Explore.error s
      /\ exists data reports,
           response = Explore.Parsed data
           /\ Explore.member data "reports" = Some reports
           /\ Explore.reports (Explore.fetchReports response s)
              = if truthy reports then reports else VArr []).
Proof.
  assert (Hrender : forall s',
             Explore.loading s' = false -> Explore.render s' <> Explore.Loading).
  { intros s' Hl. unfold Explore.render. rewrite Hl.
    destruct (negb _); [discriminate |].
    destruct (Explore.reports s'); try discriminate.
    destruct (Explore.cards items); discriminate. }
  assert (Hoff : Explore.loading (Explore.fetchReports response s) = false).
  { now destruct response. }
  split; [exact Hoff |]. split; [now apply Hrender |]. clear Hoff Hrender.
  unfold fetch_failed, Explore.fetchReports.
  destruct response as [e | e | data];
    try (split; [intros _; repeat split | discriminate]).
  destruct (Explore.member data "reports") as [reports |] eqn:Hmember.
  - split; [discriminate |]. intros _. split; [reflexivity |].
    now exists data, reports.
  - split; [intros _; repeat split | discriminate].
Qed.

Section Exploring.

Variable env : oracle.
Variable encode : Pagination -> value.

(** The page's request step by step. *)
Lemma list_request_run :
  handle env (GET_list Explore.list_request) =
  match env [] connectToDatabase with
  | Rejected e => (Returned internal_error, [Ev connectToDatabase (Failed e)])
  | Resolved _ =>
      match env [connected] (getAllReports (list_options 1 100 None None)) with
      | Resolved result =>
          (Returned (json (ListBody (map format_summary (reports result))
                             (pagination result)) 200),
           [connected; Ev (getAllReports (list_options 1 100 None None)) (Listed result)])
      | Rejected e =>
          (Returned internal_error,
           [connected; Ev (getAllReports (list_options 1 100 None None)) (Failed e)])
      end
  end.
Proof.
  pose proof (GET_list_steps env Explore.list_request) as H. cbv zeta in H.
  exact H.
Qed.

(** X19.  The explore page over the list handler.  The page asks for
    [limit=100], which the handler never refuses: the answer is 200 or 500,
    and the query, if made, is for page 1 of 100 without filters.  Whatever
    the answer, the page ends with [loading] off and no error message,
    since it does not look at the status: after a 500 it shows an empty
    list.  After a 200 it shows one card per summary, in order, with the
    summary's identifier, title and thumbnail, marked green exactly for
    status ["resolved"]; and every card reads ["No description."], because
    the summaries carry no [description]. *)
Theorem explore_shows_what_the_list_answers :
  In (status_of (fst (handle env (GET_list Explore.list_request)))) [200; 500]
  /\ (forall options r,
        In (Ev (getAllReports options) r)
           (snd (handle env (GET_list Explore.list_request))) ->
        options = {| ListOptions.page := 1; ListOptions.limit := 100;
                     ListOptions.category := None; ListOptions.resolved := None |})
  /\ Explore.loading (Explore.loaded env encode) = false
  /\ Explore.error (Explore.loaded env encode) = ""
  /\ exists cards,
       Explore.render (Explore.loaded env encode) = Explore.Cards cards
       /\ Forall (fun c => Explore.description c = VStr "No description.") cards
       /\ (status_of (fst (handle env (GET_list Explore.list_request))) <> 200 ->
           cards = [])
       /\ (forall summaries pages,
             fst (handle env (GET_list Explore.list_request))
             = Returned (json (ListBody summaries pages) 200) ->
             map Explore.key cards = map (fun s => VStr (Summary._id s)) summaries
             /\ map Explore.title cards = map Summary.title summaries
             /\ map Explore.src cards = map (fun s => VStr (Summary.thumbnail s)) summaries
             /\ map Explore.green cards
                = map (fun s => (Summary.status s =? "resolved")%string) summaries).
Proof.
  unfold Explore.loaded, Explore.fetch. rewrite list_request_run.
  destruct (env [] connectToDatabase) as [[] | e0].
  2: { simpl. split; [auto |]. split; [intros ? ? [Hin | []]; discriminate |].
       split; [reflexivity |]. split; [reflexivity |].
       exists []. repeat split; try constructor; discriminate. }
  destruct (env [connected] (getAllReports (list_options 1 100 None None)))
    as [result | e].
  - cbn [fst snd status_of status json content Explore.body_json].
    split; [simpl; auto |]. split.
    { intros options r [Hin | [Hin | []]]; [discriminate |].
      now injection Hin as <- _. }
    destruct (cards_of_summaries (map format_summary (reports result)))
      as (cs & Hcs & Hdesc & Hkey & Htitle & Hsrc & Hgreen).
    split; [reflexivity |]. split; [reflexivity |].
    exists cs. split.
    { unfold Explore.render. simpl. now rewrite Hcs. }
    split; [exact Hdesc |]. split; [intros Hne; now contradiction Hne |].
    intros summaries pages Heq. injection Heq as <- _. auto.
  - simpl. split; [auto |]. split.
    { intros options r [Hin | [Hin | []]]; [discriminate |].
      now injection Hin as <- _. }
    split; [reflexivity |]. split; [reflexivity |].
    exists []. repeat split; try constructor; discriminate.
Qed.

End Exploring.

(* ================================================================== *)
(** ** The navigation bar *)

(** X20.  The navigation bar highlights one link at most: the link whose
    [href] is the current path, character for character.  On a path below
    a link, such as the page of one report under [/report/], no link is
    highlighted. *)
Theorem navbar_highlights_at_most_one (pathname : string) :
  (List.length (Navbar.highlighted pathname) <= 1)%nat
  /\ (forall label,
        In label (Navbar.highlighted pathname) <-> In (pathname, label) Navbar.links)
  /\ (forall rest, Navbar.highlighted ("/report/" ++ rest) = [])
  /\ (forall rest, Navbar.highlighted ("/explore/" ++ rest) = []).
Proof.
  unfold Navbar.highlighted, Navbar.links, Navbar.isActive. simpl.
  destruct (String.eqb_spec pathname "/") as [-> | H1];
    [| destruct (String.eqb_spec pathname "/report") as [-> | H2];
       [| destruct (String.eqb_spec pathname "/explore") as [-> | H3]]];
    simpl; (split; [lia |]); (split; [| split; reflexivity]);
    intros label; split; intros H;
    repeat match goal with
           | H : _ \/ _ |- _ => destruct H as [H | H]
           | H : False |- _ => destruct H
           | H : (_, _) = (_, _) |- _ => injection H as ? ?; subst
           end;
    subst; try congruence; intuition congruence.
Qed.

(* ================================================================== *)
(** ** The further properties at work *)

Lemma POST_checks_before_calling_witness :
  Request.json Sample.anonymous = Json Sample.no_body
  /\ required_missing Sample.no_body = true
  /\ snd (handle Sample.env (POST Sample.anonymous)) = [connected]
  /\ fst (handle Sample.env (POST Sample.anonymous))
     = Returned (json (ErrorBody missing_fields) 400).
Proof.
  split; [reflexivity |]. split; [reflexivity |].
  destruct (@POST_checks_before_calling Sample.env Sample.anonymous _ _
              (surjective_pairing _))
    as [(e & Hfail & _) | (_ & Hbody & _)]; [discriminate Hfail |].
  destruct (Hbody Sample.no_body eq_refl) as [Hmissing _].
  exact (Hmissing eq_refl).
Defined.

Lemma PATCH_checks_before_effects_witness :
  In (Ev (geocodeAddress (VStr "Connaught Place, New Delhi"))
         (Coords (VObj [("lat", VNum (2861 # 100)); ("lng", VNum (7721 # 100))])))
     (snd (handle Sample.env
             (PATCH (Sample.by_owner Cases.move) (Report._id Sample.stored))))
  /\ exists currentReport,
       In (found (Report._id Sample.stored) (Some currentReport))
          (snd (handle Sample.env
                  (PATCH (Sample.by_owner Cases.move) (Report._id Sample.stored))))
       /\ PATCH_admitted (Sample.by_owner Cases.move) (Report._id Sample.stored)
            currentReport.
Proof.
  assert (Hin : In (Ev (geocodeAddress (VStr "Connaught Place, New Delhi"))
                      (Coords (VObj [("lat", VNum (2861 # 100));
                                     ("lng", VNum (7721 # 100))])))
                   (snd (handle Sample.env
                           (PATCH (Sample.by_owner Cases.move)
                              (Report._id Sample.stored))))).
  { vm_compute. tauto. }
  split; [exact Hin |].
  destruct (@PATCH_checks_before_effects Sample.env (Sample.by_owner Cases.move)
              (Report._id Sample.stored) _ _ _ (surjective_pairing _) Hin eq_refl)
    as (currentReport & Hfound & Hadm & _).
  now exists currentReport.
Defined.

Lemma DELETE_checks_before_effects_witness :
  (forall e,
      In e (snd (handle Sample.env
                   (DELETE (Sample.by_owner Sample.no_body) (Report._id Sample.stored)))) ->
      has_effect (ev_call e) = true ->
      exists report,
        In (found (Report._id Sample.stored) (Some report))
           (snd (handle Sample.env
                   (DELETE (Sample.by_owner Sample.no_body) (Report._id Sample.stored))))
        /\ DELETE_admitted (Sample.by_owner Sample.no_body) (Report._id Sample.stored)
             report)
  /\ (In (status_of
            (fst (handle Sample.env
                    (DELETE (Sample.by_owner Sample.no_body) (Report._id Sample.stored)))))
         [400; 401; 403; 404] ->
      Forall (fun e => has_effect (ev_call e) = false)
        (snd (handle Sample.env
                (DELETE (Sample.by_owner Sample.no_body) (Report._id Sample.stored))))).
Proof.
  apply (@DELETE_checks_before_effects Sample.env (Sample.by_owner Sample.no_body)
           (Report._id Sample.stored) _ _ (surjective_pairing _)).
Defined.

Lemma geocoder_asked_once_for_the_address_witness :
  List.length (geocodes (snd (handle Sample.env (POST Cases.create_by_address)))) = 1%nat
  /\ forall e,
       In e (geocodes (snd (handle Sample.env (POST Cases.create_by_address)))) ->
       ev_call e = geocodeAddress (VStr "Connaught Place, New Delhi").
Proof.
  split; [reflexivity |].
  destruct (@geocoder_asked_once_for_the_address Sample.env Cases.create_by_address ""
              _ _ (or_introl (surjective_pairing _)))
    as (_ & Hcall & _).
  intros e Hin. now destruct (Hcall e Hin).
Defined.

Lemma POST_hands_over_what_it_gathered_witness :
  In (Ev (createReport Cases.signed_data) (Saved (Sample.save Cases.signed_data)))
     (snd (handle Sample.env (POST Cases.create_signed)))
  /\ ReportData.images Cases.signed_data
     = map (fun u => {| url := secure_url u; publicId := public_id u |})
           (uploaded (snd (handle Sample.env (POST Cases.create_signed))))
  /\ upload_calls (snd (handle Sample.env (POST Cases.create_signed)))
     = [uploadImage (VStr "a.jpg"); uploadImage (VStr "b.jpg")]
  /\ ReportData.createdBy Cases.signed_data = "64b000000000000000000042".
Proof.
  assert (Hin : In (Ev (createReport Cases.signed_data)
                      (Saved (Sample.save Cases.signed_data)))
                   (snd (handle Sample.env (POST Cases.create_signed)))).
  { vm_compute. tauto. }
  split; [exact Hin |].
  destruct (@POST_hands_over_what_it_gathered Sample.env Cases.create_signed _ _ _ _
              (surjective_pairing _) Hin)
    as (items & tr0 & _ & _ & Hitems & _ & _ & Hcalls & Himages & _ & _ & Hby & _).
  injection Hitems as <-.
  split; [exact Himages |]. split; [exact Hcalls |].
  apply Hby; [reflexivity | discriminate | discriminate].
Defined.

Lemma POST_cleans_up_only_after_failed_upload_witness :
  (forall image e,
      ~ In (Ev (uploadImage image) (Failed e))
           (snd (handle Sample.env (POST Cases.create_numbered))))
  /\ fst (handle Sample.env (POST Cases.create_numbered)) = Returned internal_error
  /\ deletions (snd (handle Sample.env (POST Cases.create_numbered))) = []
  /\ hosted (snd (handle Sample.env (POST Cases.create_numbered))) []
     = ["reports/a.jpg"].
Proof.
  assert (Hnone : forall image e,
             ~ In (Ev (uploadImage image) (Failed e))
                  (snd (handle Sample.env (POST Cases.create_numbered)))).
  { intros image e Hin. vm_compute in Hin. intuition discriminate. }
  split; [exact Hnone |].
  destruct (@POST_cleans_up_only_after_failed_upload Sample.env Cases.create_numbered
              _ _ (surjective_pairing _) Hnone)
    as (Hdels & Hhosted & _ & Hstring).
  destruct Hstring as (Hc & _).
  - split; reflexivity.
  - intros t d [Ht _]. discriminate Ht.
  - vm_compute. repeat constructor.
  - split; [exact Hc |]. split; [exact Hdels |]. rewrite Hhosted. reflexivity.
Defined.

Lemma PATCH_deletes_listed_images_first_witness :
  In (Ev (uploadImage (VStr "corrupt")) (Failed Cases.refused))
     (snd (handle Sample.env
             (PATCH (Sample.by_owner Cases.swap_images) (Report._id Sample.stored))))
  /\ exists pre dels rest,
       snd (handle Sample.env
              (PATCH (Sample.by_owner Cases.swap_images) (Report._id Sample.stored)))
       = (pre ++ dels ++ rest)%list
       /\ In (Ev (uploadImage (VStr "corrupt")) (Failed Cases.refused)) rest
       /\ map ev_call dels = [deleteImage (VStr "reports/bin.jpg")].
Proof.
  assert (Hin : In (Ev (uploadImage (VStr "corrupt")) (Failed Cases.refused))
                   (snd (handle Sample.env
                           (PATCH (Sample.by_owner Cases.swap_images)
                              (Report._id Sample.stored))))).
  { vm_compute. tauto. }
  split; [exact Hin |].
  destruct (@PATCH_deletes_listed_images_first Sample.env
              (Sample.by_owner Cases.swap_images) (Report._id Sample.stored)
              _ _ _ (surjective_pairing _) Hin eq_refl)
    as (pre & dels & rest & Htr & Hrest & _ & _ & Hcalls).
  now exists pre, dels, rest.
Defined.

Lemma DELETE_removes_images_before_report_witness :
  In (Ev (deleteReportIfOwner (Report._id Sample.stored) (user_id Sample.owner))
         (Removed true))
     (snd (handle Sample.env
             (DELETE (Sample.by_owner Sample.no_body) (Report._id Sample.stored))))
  /\ exists report dels,
       snd (handle Sample.env
              (DELETE (Sample.by_owner Sample.no_body) (Report._id Sample.stored)))
       = (connected :: found (Report._id Sample.stored) (Some report)
            :: dels ++ [Ev (deleteReportIfOwner (Report._id Sample.stored)
                              (user_id Sample.owner)) (Removed true)])%list
       /\ map ev_call dels = map deleteImage (image_deletions report)
       /\ status_of
            (fst (handle Sample.env
                    (DELETE (Sample.by_owner Sample.no_body) (Report._id Sample.stored))))
          = 200.
Proof.
  assert (Hin : In (Ev (deleteReportIfOwner (Report._id Sample.stored)
                          (user_id Sample.owner)) (Removed true))
                   (snd (handle Sample.env
                           (DELETE (Sample.by_owner Sample.no_body)
                              (Report._id Sample.stored))))).
  { vm_compute. tauto. }
  split; [exact Hin |].
  destruct (@DELETE_removes_images_before_report Sample.env
              (Sample.by_owner Sample.no_body) (Report._id Sample.stored)
              _ _ _ _ _ (surjective_pairing _) Hin)
    as (_ & _ & report & dels & Htr & _ & _ & Hcalls & _ & _ & Hok & _).
  exists report, dels. split; [exact Htr |]. split; [exact Hcalls |].
  now apply Hok.
Defined.

Lemma GET_attaches_reviews_on_request_witness :
  In (Ev (getReportById (Report._id Cases.reviewed) (Some true))
         (Found (Some Cases.reviewed)))
     (snd (handle (Cases.env true true Cases.reviewed)
             (GET Cases.asking_reviews (Report._id Cases.reviewed))))
  /\ forall f,
       fst (handle (Cases.env true true Cases.reviewed)
              (GET Cases.asking_reviews (Report._id Cases.reviewed)))
       = Returned (json (ReportBody f) 200) ->
       match Formatted.reviews f with
       | None => False
       | Some rs => map fr_id rs = [review_id Cases.praise]
       end.
Proof.
  assert (Hin : In (Ev (getReportById (Report._id Cases.reviewed) (Some true))
                      (Found (Some Cases.reviewed)))
                   (snd (handle (Cases.env true true Cases.reviewed)
                           (GET Cases.asking_reviews (Report._id Cases.reviewed))))).
  { vm_compute. tauto. }
  split; [exact Hin |].
  destruct (@GET_attaches_reviews_on_request (Cases.env true true Cases.reviewed)
              Cases.asking_reviews (Report._id Cases.reviewed) _ _ _ _
              (surjective_pairing _) Hin)
    as (_ & _ & Hbody).
  intros f Hf. destruct (Hbody f Hf) as (_ & _ & _ & Hreviews).
  destruct (Formatted.reviews f) as [rs |].
  - destruct Hreviews as (_ & reviews & Hsome & Hids & _).
    injection Hsome as <-. exact Hids.
  - destruct Hreviews as [Hno | Hno]; [now apply Hno | discriminate Hno].
Defined.

Lemma ownerless_report_is_listed_but_not_served_witness :
  Report.createdBy Cases.ownerless = None
  /\ In (Ev (getReportById (Report._id Cases.ownerless) None)
            (Found (Some Cases.ownerless)))
        (snd (handle (Cases.env true true Cases.ownerless)
                (DELETE (Sample.by_owner Sample.no_body) (Report._id Cases.ownerless))))
  /\ fst (handle (Cases.env true true Cases.ownerless)
            (DELETE (Sample.by_owner Sample.no_body) (Report._id Cases.ownerless)))
     = Returned internal_error
  /\ Summary.createdBy (format_summary Cases.ownerless) = "Unknown".
Proof.
  assert (Hin : In (Ev (getReportById (Report._id Cases.ownerless) None)
                      (Found (Some Cases.ownerless)))
                   (snd (handle (Cases.env true true Cases.ownerless)
                           (DELETE (Sample.by_owner Sample.no_body)
                              (Report._id Cases.ownerless))))).
  { vm_compute. tauto. }
  split; [reflexivity |]. split; [exact Hin |].
  destruct (@ownerless_report_is_listed_but_not_served
              (Cases.env true true Cases.ownerless) (Sample.by_owner Sample.no_body)
              (Report._id Cases.ownerless) _ _ _ Cases.ownerless eq_refl
              (or_intror (or_intror (surjective_pairing _))) Hin)
    as (Hc & _ & _ & Hlisted).
  split; assumption.
Defined.

Lemma GET_list_queries_within_bounds_witness :
  In (Ev (getAllReports (list_options 1 20 (Some "garbage") (Some "yes")))
         (Listed (page_of [Sample.stored]
                    (list_options 1 20 (Some "garbage") (Some "yes")))))
     (snd (handle Sample.env (GET_list Cases.resolved_garbage)))
  /\ ListOptions.resolved (list_options 1 20 (Some "garbage") (Some "yes")) = Some false
  /\ 1 <= ListOptions.limit (list_options 1 20 (Some "garbage") (Some "yes")) <= 100.
Proof.
  assert (Hin : In (Ev (getAllReports (list_options 1 20 (Some "garbage") (Some "yes")))
                      (Listed (page_of [Sample.stored]
                                 (list_options 1 20 (Some "garbage") (Some "yes")))))
                   (snd (handle Sample.env (GET_list Cases.resolved_garbage)))).
  { vm_compute. tauto. }
  split; [exact Hin |].
  destruct (@GET_list_queries_within_bounds Sample.env Cases.resolved_garbage
              _ _ _ _ (surjective_pairing _) Hin)
    as (_ & _ & Hlimit & _ & _ & _ & Hresolved).
  split; [| exact Hlimit].
  apply Hresolved. now exists "yes".
Defined.

Lemma GET_list_summarises_each_report_witness :
  In (Ev (getAllReports (list_options 1 20 None None))
         (Listed (page_of [Sample.stored] (list_options 1 20 None None))))
     (snd (handle Sample.env (GET_list Sample.anonymous)))
  /\ exists summaries,
       fst (handle Sample.env (GET_list Sample.anonymous))
       = Returned (json (ListBody summaries
                           (pagination (page_of [Sample.stored]
                                          (list_options 1 20 None None)))) 200)
       /\ map Summary._id summaries = [Report._id Sample.stored].
Proof.
  assert (Hin : In (Ev (getAllReports (list_options 1 20 None None))
                      (Listed (page_of [Sample.stored] (list_options 1 20 None None))))
                   (snd (handle Sample.env (GET_list Sample.anonymous)))).
  { vm_compute. tauto. }
  split; [exact Hin |].
  destruct (@GET_list_summarises_each_report Sample.env Sample.anonymous
              _ _ _ _ (surjective_pairing _) Hin)
    as (_ & Hlisted).
  destruct (Hlisted _ eq_refl) as (summaries & Hc & _ & Hids & _).
  exists summaries. split; [exact Hc | exact Hids].
Defined.

Lemma deleteReportIfOwner_only_for_owner_witness :
  fst (Dal.exec (Dal.holding [Dal.bin])
         (Dal.deleteReportIfOwner (Dal._id Dal.bin) "64b000000000000000000042") [])
  = Resolved true
  /\ In (Dal.findByIdAndDelete (Dal._id Dal.bin))
        (snd (Dal.exec (Dal.holding [Dal.bin])
                (Dal.deleteReportIfOwner (Dal._id Dal.bin) "64b000000000000000000042") [])).
Proof.
  split; [reflexivity |].
  destruct (@deleteReportIfOwner_only_for_owner (Dal.holding [Dal.bin])
              (Dal._id Dal.bin) "64b000000000000000000042" _ _ (surjective_pairing _))
    as (_ & Htrue & _).
  now apply Htrue.
Defined.

Lemma DELETE_checks_ownership_twice_witness :
  status_of
    (fst (handle (served_by (Dal.holding [Dal.bin]) Sample.stored)
            (DELETE (Sample.by_owner Sample.no_body) (Report._id Sample.stored))))
  = 200
  /\ exists document,
       Dal.holding [Dal.bin] [] (Dal.findById (Report._id Sample.stored))
       = Resolved (Some document)
       /\ Dal.createdBy document
          = Some (request_userId (Sample.by_owner Sample.no_body)).
Proof.
  split; [reflexivity |].
  destruct (@DELETE_checks_ownership_twice (Dal.holding [Dal.bin])
              (served_by (Dal.holding [Dal.bin]) Sample.stored)
              (Sample.by_owner Sample.no_body) (Report._id Sample.stored) _ _
              (fun _ _ _ => eq_refl) (surjective_pairing _) eq_refl)
    as (report & u & document & _ & _ & _ & Hfind & Hcreated & _).
  now exists document.
Defined.
